(** * ACWhisk media upload: validation, compression, storage keys and routes

    A shallow embedding of the upload code of the repository:

    - [EnhancedImageUpload] of [src/components/DigitalPortfolio.tsx]
      ([validateFile], [compressImage], [uploadFile], [handleFileSelect],
      and the handlers [handleDrop], [handleClick] and [handleReset]);
    - [SimpleImageUpload], [RobustImageUpload] and [FixedMediaUpload]
      ([handleFileUpload] of each);
    - the edge-function routes [upload-image], [upload/:bucket] and
      [delete-file] of the server file, its routes over the key-value
      store ([auth/signup], [profile], [recipes], [my-recipes],
      [forum/posts], [resources], [admin/users]) and [get-signed-url];
    - the statistics and the export file name of [DigitalPortfolio].

    JavaScript numbers are IEEE-754 binary64 values.  They are modelled as
    the rationals they denote, and every arithmetic operation rounds its
    exact result to the nearest 53-bit significand, ties to even
    ([JS.round64]).  Browser and network answers (image decoding, canvas
    encoding, the object store, the clock, the random generator) are inputs
    of the model; everything an invocation does to the outside is recorded
    in a trace.  The callbacks a caller hands in ([onUpload], [onError],
    [onImageChange], [onMediaChange]), the toasts and the console are taken
    to return normally; size limits given as properties are whole numbers
    of megabytes. *)

From Stdlib Require Import ZArith NArith QArith Qround Qabs Qpower.
From Stdlib Require Import Lia Lqa Bool List String Ascii DecimalString.
From Stdlib Require Import Floats.SpecFloat.
Import ListNotations.

(* ================================================================== *)
(** * JavaScript numbers *)
(* ================================================================== *)

Module JS.

Open Scope Q_scope.

(** Unit roundoff of binary64, [2^-53]. *)
Definition u53 : Q := 1 # 9007199254740992.

Definition pow2 (e : Z) : Q := 2 ^ e.

(** [ilog2 x] is the binary exponent of a positive [x]:
    [2^(ilog2 x) <= x < 2^(ilog2 x + 1)]. *)
Definition ilog2 (x : Q) : Z :=
  let k := (Z.log2 (Qnum x) - Z.log2 (Zpos (Qden x)))%Z in
  if Qle_bool (pow2 k) x then k else (k - 1)%Z.

(** Round to the nearest integer, ties to the even one. *)
Definition rne (y : Q) : Z :=
  let f := Qfloor y in
  match Qcompare (y - inject_Z f) (1 # 2) with
  | Lt => f
  | Gt => (f + 1)%Z
  | Eq => if Z.even f then f else (f + 1)%Z
  end.

Definition round_pos (x : Q) : Q :=
  let e := (ilog2 x - 52)%Z in
  Qred (inject_Z (rne (x * pow2 (- e))) * pow2 e).

(** The binary64 value nearest to [x] (exponent range not bounded: the
    quantities of this development stay far from overflow and underflow). *)
Definition round64 (x : Q) : Q :=
  match Qnum x with
  | Z0 => 0
  | Zpos _ => round_pos x
  | Zneg _ => - round_pos (- x)
  end.

(** The arithmetic operators of the language on numbers. *)
Definition sub (x y : Q) : Q := round64 (x - y).
Definition mul (x y : Q) : Q := round64 (x * y).
Definition div (x y : Q) : Q := round64 (x / y).

(** [Math.min] of two numbers. *)
Definition min (x y : Q) : Q := if Qle_bool x y then x else y.

(** [x > y] *)
Definition gt (x y : Q) : bool := negb (Qle_bool x y).

Definition ofN (n : N) : Q := inject_Z (Z.of_N n).

(** The same operations in the Standard Library's executable
    specification of IEEE-754 arithmetic, to test [round64] against. *)
Definition SF_ofZ (z : Z) : spec_float := binary_normalize 53 1024 z 0 false.

Definition SF2Q (f : spec_float) : Q :=
  match f with
  | S754_finite s m e => (if s then - inject_Z (Zpos m) else inject_Z (Zpos m)) * pow2 e
  | _ => 0
  end.

Definition SF_scale (w : Z) : spec_float :=
  SFmul 53 1024 (SF_ofZ w) (SFdiv 53 1024 (SF_ofZ 1920) (SF_ofZ w)).

Definition SF_percent (o c : Z) : spec_float :=
  SFmul 53 1024 (SFdiv 53 1024 (SFsub 53 1024 (SF_ofZ o) (SF_ofZ c)) (SF_ofZ o))
    (SF_ofZ 100).

(** Assigning a number to an [unsigned long] attribute such as
    [canvas.width]: the fraction is dropped and the result taken modulo
    [2^32]. *)
Definition toUnsignedLong (x : Q) : Z :=
  (Z.quot (Qnum x) (Zpos (Qden x))) mod 2 ^ 32.

Close Scope Q_scope.
Open Scope string_scope.

(** ** Strings *)

(** Decimal digits of a non-negative integer, as template literals and
    [Number.prototype.toString] print it. *)
Definition showN (n : N) : string := NilZero.string_of_uint (N.to_uint n).

(** [s.split(sep)] for a one-character separator. *)
Fixpoint split (sep : ascii) (s : string) : list string :=
  match s with
  | EmptyString => [EmptyString]
  | String c r =>
      if Ascii.eqb c sep then EmptyString :: split sep r
      else match split sep r with
           | [] => [String c EmptyString]
           | h :: t => String c h :: t
           end
  end.

(** [a.pop()] on the result of a split, which is never empty. *)
Definition pop (l : list string) : string := last l EmptyString.

(** [a[i]], [None] standing for [undefined]. *)
Definition at_index (l : list string) (i : nat) : option string := nth_error l i.

(** [s.substring(n)] *)
Fixpoint substring_from (n : nat) (s : string) : string :=
  match n, s with
  | O, _ => s
  | S n', String _ r => substring_from n' r
  | S _, EmptyString => EmptyString
  end.

(** [s.substring(0, n)] *)
Fixpoint substring_to (n : nat) (s : string) : string :=
  match n, s with
  | S n', String c r => String c (substring_to n' r)
  | _, _ => EmptyString
  end.

(** [s.startsWith(p)] *)
Definition startsWith (s p : string) : bool := String.prefix p s.

(** [s.includes(sub)] on strings. *)
Fixpoint str_includes (s sub : string) : bool :=
  String.prefix sub s ||
  match s with
  | EmptyString => false
  | String _ r => str_includes r sub
  end.

(** [a.includes(x)] on arrays of strings. *)
Definition includes (l : list string) (x : string) : bool :=
  existsb (String.eqb x) l.

(** [a.join(sep)] *)
Fixpoint join (sep : string) (l : list string) : string :=
  match l with
  | [] => EmptyString
  | [x] => x
  | x :: r => x ++ sep ++ join sep r
  end.

(** Every character of [s] satisfies [p]. *)
Fixpoint all_chars (p : ascii -> bool) (s : string) : bool :=
  match s with
  | EmptyString => true
  | String c r => p c && all_chars p r
  end.

Definition notDot (c : ascii) : bool := negb (Ascii.eqb c ".").

(** The digits of base 36: [0-9a-z]. *)
Definition isBase36Digit (c : ascii) : bool :=
  let n := nat_of_ascii c in
  ((48 <=? n) && (n <=? 57))%nat || ((97 <=? n) && (n <=? 122))%nat.

(** The shape of [Math.random().toString(36)]: the number is in [0, 1),
    so the text is ["0"] or ["0."] followed by base-36 digits. *)
Definition isRandom36 (r : string) : bool :=
  match r with
  | String "0" EmptyString => true
  | String "0" (String "." ds) => all_chars isBase36Digit ds
  | _ => false
  end.

(** A string is truthy when it is not empty. *)
Definition truthy (s : string) : bool := negb (String.eqb s EmptyString).

(** [x.toFixed(1)]: the decimal [n / 10] nearest to the exact value of
    [|x|], the larger [n] on a tie, after the sign of [x] (for
    [|x| < 10^21]). *)
Definition toFixed1_tenths (x : Q) : Z := Qfloor (Qabs x * 10 + (1 # 2))%Q.

Definition toFixed1 (x : Q) : string :=
  let n := Z.to_N (toFixed1_tenths x) in
  let sign := if Qle_bool 0 x then EmptyString else "-" in
  sign ++ showN (n / 10) ++ "." ++ showN (n mod 10).

End JS.

(* ================================================================== *)
(** * Effects: exceptions, traces and the object store *)
(* ================================================================== *)

Module Eff.

(** A thrown value: an [Error] (or a storage error object) with its
    [message]. *)
Record JsError := mkError { message : string }.

Inductive Completion (A : Type) :=
| Normal (a : A)
| Throw (e : JsError).
Arguments Normal {A} a.
Arguments Throw {A} e.

(** A computation over a world [W]; a rejected promise is a [Throw]. *)
Definition M (W A : Type) := W -> Completion A * W.

Definition ret {W A} (a : A) : M W A := fun w => (Normal a, w).

Definition bind {W A B} (m : M W A) (k : A -> M W B) : M W B :=
  fun w => match m w with
           | (Normal a, w') => k a w'
           | (Throw e, w') => (Throw e, w')
           end.

Definition throw {W A} (e : JsError) : M W A := fun w => (Throw e, w).

(** [try { body } catch (e) { handler e }] *)
Definition try_catch {W A} (body : M W A) (handler : JsError -> M W A) : M W A :=
  fun w => match body w with
           | (Throw e, w') => handler e w'
           | r => r
           end.

(** [try { body } finally { fin }] *)
Definition try_finally {W A} (body : M W A) (fin : M W unit) : M W A :=
  fun w => let (r, w') := body w in
           match fin w' with
           | (Normal _, w'') => (r, w'')
           | (Throw e, w'') => (Throw e, w'')
           end.

Declare Scope eff_scope.
Delimit Scope eff_scope with eff.
Notation "x <- m ;; k" := (bind m (fun x => k))
  (at level 61, m at next level, right associativity) : eff_scope.
Notation "m ;; k" := (bind m (fun _ => k))
  (at level 61, right associativity) : eff_scope.

(** A [File] (or [Blob] with a name): what the code reads of it. *)
Record File := mkFile { name : string; type : string; size : N }.

(** Calls on the storage client. *)
Inductive StoreCall :=
| StorageUpload (bucket path : string) (body : File) (upsert : bool)
| StorageGetPublicUrl (bucket path : string)
| StorageRemove (bucket : string) (paths : list string).

(** The answer of [storage.from(bucket).upload(...)]: [{ data, error }]. *)
Inductive UploadResult :=
| UploadData (path : string)
| UploadError (e : JsError).

(** The effect of a sequence of calls on a store, whatever the store is
    and whatever each call does to it. *)
Definition applyCalls {S : Type} (step : StoreCall -> S -> S)
    (calls : list StoreCall) (s : S) : S :=
  fold_left (fun s c => step c s) calls s.

End Eff.

(* ================================================================== *)
(** * DigitalPortfolio.tsx: EnhancedImageUpload *)
(* ================================================================== *)

Module Portfolio.
Import JS Eff.
Open Scope string_scope.

Record Dimensions := mkDimensions { width : Q; height : Q }.

Record ImageMetadata := mkImageMetadata {
  originalSize : N;
  compressedSize : N;
  dimensions : Dimensions;
  format : string;
  compressionRatio : Q
}.

Inductive Status := idle | uploading | success | error.

Record UploadState := mkUploadState {
  status : Status;
  progress : N;
  file : option File;
  preview : option string;
  metadata : option ImageMetadata;
  error_message : option string    (* the field [error] *)
}.

Definition ALLOWED_FILE_TYPES : list (string * list string) :=
  [ ("image/jpeg", [".jpg"; ".jpeg"]);
    ("image/png", [".png"]);
    ("image/webp", [".webp"]);
    ("image/gif", [".gif"]) ].

Definition MAX_FILE_SIZE_MB : N := 10.
(** The literal [0.8]: the binary64 number nearest to 8/10. *)
Definition COMPRESSION_QUALITY : Q := round64 (8 # 10).

(** [Object.keys] and [Object.values(...).flat()] of the table. *)
Definition Object_keys (o : list (string * list string)) : list string := map fst o.
Definition Object_values_flat (o : list (string * list string)) : list string :=
  List.concat (map snd o).

(** The properties of the component that [uploadFile] reads.  [maxSize] is
    a whole number of megabytes (default [MAX_FILE_SIZE_MB]); [onError] is
    optional. *)
Record Props := mkProps {
  bucket : string;
  path : string;
  maxSize : N;
  hasOnError : bool
}.

Definition defaultProps : Props :=
  {| bucket := "avatars"; path := ""; maxSize := MAX_FILE_SIZE_MB; hasOnError := true |}.

(** What the browser and the network answer during one invocation. *)
Record Env := mkEnv {
  session_user_id : option string;               (* [session?.user?.id] *)
  now : N;                                       (* [Date.now()] *)
  random36 : string;                             (* [Math.random().toString(36)] *)
  loadImage : File -> option (N * N);            (* [img.onload] with width and height, or [img.onerror] *)
  getContext2d : bool;                           (* [canvas.getContext('2d')] is not null *)
  toBlob : File -> Z -> Z -> string -> Q -> option N;
                                                 (* [canvas.toBlob]: the size of the blob encoding the
                                                    image drawn on a canvas of that width and height,
                                                    with that type and quality; or a null blob *)
  storageUpload : string -> string -> File -> UploadResult;
  getPublicUrl : string -> string -> string
}.

Inductive ToastCall :=
| ToastOptimized (m : ImageMetadata)   (* toast.success(`Image optimized! ...`) *)
| ToastUploaded                        (* toast.success('Image uploaded successfully!') *)
| ToastError (msg : string).

Inductive Effect :=
| SetUploadState (s : UploadState)     (* a call of [setUploadState], with the state it installs *)
| CompressImage (f : File)
| Store (c : StoreCall)
| OnUpload (url : string) (m : ImageMetadata)
| OnError (msg : string)
| Toast (t : ToastCall)
| ConsoleError (msg : string).

Record World := mkWorld { uploadState : UploadState; trace : list Effect }.

Definition emit (e : Effect) : M World unit :=
  fun w => (Normal tt, {| uploadState := uploadState w; trace := trace w ++ [e] |}).

Definition setUploadState (f : UploadState -> UploadState) : M World unit :=
  fun w => let s := f (uploadState w) in
           (Normal tt, {| uploadState := s; trace := trace w ++ [SetUploadState s] |}).

(** ** validateFile *)

Definition invalidTypeMessage : string :=
  "Invalid file type. Please upload "
  ++ join ", " (Object_values_flat ALLOWED_FILE_TYPES) ++ " files only.".

Definition tooLargeMessage (maxSize : N) (fileSizeMB : Q) : string :=
  "File size too large. Maximum allowed size is " ++ showN maxSize
  ++ "MB. Your file is " ++ toFixed1 fileSizeMB ++ "MB.".

Definition validateFile (maxSize : N) (file : File) : option string :=
  if negb (includes (Object_keys ALLOWED_FILE_TYPES) (type file)) then
    Some invalidTypeMessage
  else
    let fileSizeMB := div (ofN (size file)) (mul 1024 1024) in
    if gt fileSizeMB (ofN maxSize) then Some (tooLargeMessage maxSize fileSizeMB)
    else None.

(** ** compressImage *)

Definition maxDimension : Q := 1920.

(** The dimension computation of [img.onload], for an image of positive
    width and height (a division by zero, [Infinity] in the language, is
    not modelled). *)
Definition optimalDimensions (w h : N) : Dimensions :=
  let width := ofN w in
  let height := ofN h in
  if gt width maxDimension || gt height maxDimension then
    let ratio := min (div maxDimension width) (div maxDimension height) in
    {| width := mul width ratio; height := mul height ratio |}
  else {| width := width; height := height |}.

Definition canvasWidth (d : Dimensions) : Z := toUnsignedLong (width d).
Definition canvasHeight (d : Dimensions) : Z := toUnsignedLong (height d).

(** [((file.size - compressedFile.size) / file.size) * 100], for a file
    that is not empty ([0 / 0] is [NaN] in the language). *)
Definition compressionRatioOf (originalSize compressedSize : N) : Q :=
  mul (div (sub (ofN originalSize) (ofN compressedSize)) (ofN originalSize)) 100.

Definition compressImage (env : Env) (file : File) : M World (File * ImageMetadata) :=
  (emit (CompressImage file) ;;
   match loadImage env file with
   | None => throw (mkError "Failed to load image")
   | Some (w, h) =>
       let d := optimalDimensions w h in
       if negb (getContext2d env) then throw (mkError "Failed to get canvas context")
       else
         match toBlob env file (canvasWidth d) (canvasHeight d) (type file)
                 COMPRESSION_QUALITY with
         | None => throw (mkError "Failed to compress image")
         | Some blobSize =>
             let compressedFile :=
               {| name := name file; type := type file; size := blobSize |} in
             let metadata :=
               {| originalSize := size file;
                  compressedSize := size compressedFile;
                  dimensions := d;
                  format := type file;
                  compressionRatio := compressionRatioOf (size file) (size compressedFile) |} in
             ret (compressedFile, metadata)
         end
   end)%eff.

(** ** uploadFile *)

Definition authenticated (env : Env) : bool :=
  match session_user_id env with
  | Some id => truthy id
  | None => false
  end.

(** The storage key: [fileName] and [filePath] of [uploadFile]. *)
Definition fileExt (file : File) : string := pop (split "." (name file)).

Definition fileName (env : Env) (file : File) : string :=
  showN (now env) ++ "-" ++ substring_from 2 (random36 env) ++ "." ++ fileExt file.

Definition filePath (props : Props) (env : Env) (file : File) : string :=
  if truthy (path props) then path props ++ "/" ++ fileName env file
  else fileName env file.

(** [error.message || 'Failed to upload image'] *)
Definition errorMessageOf (e : JsError) : string :=
  if truthy (message e) then message e else "Failed to upload image".

(** The state updates [prev => ({ ...prev, ... })] of [uploadFile]. *)
Definition started (f : File) : UploadState :=
  {| status := uploading; progress := 10; file := Some f;
     preview := None; metadata := None; error_message := None |}.

Definition withProgress (p : N) (prev : UploadState) : UploadState :=
  {| status := status prev; progress := p; file := file prev;
     preview := preview prev; metadata := metadata prev;
     error_message := error_message prev |}.

Definition withProgressMetadata (p : N) (m : ImageMetadata) (prev : UploadState)
    : UploadState :=
  {| status := status prev; progress := p; file := file prev;
     preview := preview prev; metadata := Some m;
     error_message := error_message prev |}.

Definition withSuccess (publicUrl : string) (prev : UploadState) : UploadState :=
  {| status := success; progress := 100; file := file prev;
     preview := Some publicUrl; metadata := metadata prev;
     error_message := error_message prev |}.

Definition withError (errorMessage : string) (prev : UploadState) : UploadState :=
  {| status := error; progress := progress prev; file := file prev;
     preview := preview prev; metadata := metadata prev;
     error_message := Some errorMessage |}.

Definition uploadFile (props : Props) (env : Env) (file : File) : M World unit :=
  (if negb (authenticated env) then throw (mkError "User not authenticated")
   else
     match validateFile (maxSize props) file with
     | Some validationError => throw (mkError validationError)
     | None =>
         setUploadState (fun _ => started file) ;;
         try_catch
           (setUploadState (withProgress 30) ;;
            r <- compressImage env file ;;
            let (compressedFile, metadata) := r in
            (if gt (compressionRatio metadata) 10
             then emit (Toast (ToastOptimized metadata)) else ret tt) ;;
            setUploadState (withProgressMetadata 50 metadata) ;;
            let filePath := filePath props env file in
            setUploadState (withProgress 70) ;;
            emit (Store (StorageUpload (bucket props) filePath compressedFile false)) ;;
            match storageUpload env (bucket props) filePath compressedFile with
            | UploadError e => throw e
            | UploadData dataPath =>
                setUploadState (withProgress 90) ;;
                emit (Store (StorageGetPublicUrl (bucket props) dataPath)) ;;
                let publicUrl := getPublicUrl env (bucket props) dataPath in
                setUploadState (withSuccess publicUrl) ;;
                emit (OnUpload publicUrl metadata) ;;
                emit (Toast ToastUploaded)
            end)
           (fun e =>
              emit (ConsoleError "Upload error:") ;;
              let errorMessage := errorMessageOf e in
              setUploadState (withError errorMessage) ;;
              (if hasOnError props then emit (OnError errorMessage) else ret tt) ;;
              emit (Toast (ToastError errorMessage)))
     end)%eff.

(** ** handleFileSelect

    [uploadFile(file)] is called and its promise dropped: a rejection of
    that promise is handled by nobody. *)
Record Selected := mkSelected {
  world : World;
  unhandledRejection : option JsError
}.

Definition handleFileSelect (props : Props) (env : Env) (files : option (list File))
    (w : World) : Selected :=
  match files with
  | None | Some [] => {| world := w; unhandledRejection := None |}
  | Some (file :: _) =>
      match uploadFile props env file w with
      | (Normal _, w') => {| world := w'; unhandledRejection := None |}
      | (Throw e, w') => {| world := w'; unhandledRejection := Some e |}
      end
  end.

(** ** Reading a trace *)

(** The states installed by [setUploadState], in order. *)
Definition snapshots (t : list Effect) : list UploadState :=
  flat_map (fun e => match e with SetUploadState s => [s] | _ => [] end) t.

(** The calls on the object store, in order. *)
Definition storeCalls (t : list Effect) : list StoreCall :=
  flat_map (fun e => match e with Store c => [c] | _ => [] end) t.

(** The files handed to the compression step. *)
Definition compressions (t : list Effect) : list File :=
  flat_map (fun e => match e with CompressImage f => [f] | _ => [] end) t.

(** The failure an invocation ends with, if any: the message of the
    error it threw, or of the error state it left. *)
Definition failure (r : Completion unit * World) : option string :=
  match r with
  | (Throw e, _) => Some (message e)
  | (Normal _, w) =>
      match status (uploadState w) with
      | error => error_message (uploadState w)
      | _ => None
      end
  end.

(** The last element of a list, if any. *)
Definition final {A} (l : list A) : option A :=
  match rev l with
  | x :: _ => Some x
  | [] => None
  end.


(** A fresh invocation: the state left by earlier ones, nothing done yet. *)
Definition fresh (st : UploadState) : World := {| uploadState := st; trace := [] |}.

Definition idleState : UploadState :=
  {| status := idle; progress := 0; file := None; preview := None;
     metadata := None; error_message := None |}.

Definition initialWorld : World := fresh idleState.

End Portfolio.

(* ================================================================== *)
(** * The three components with a [handleFileUpload] *)
(* ================================================================== *)

(** What [SimpleImageUpload], [RobustImageUpload] and [FixedMediaUpload]
    share: the answers of their surroundings and the effects they have. *)
Module Widget.
Import JS Eff.
Open Scope string_scope.

Record Env := mkEnv {
  user : option string;                         (* [user] of [useAuth()], by its [id] *)
  now : N;                                      (* [Date.now()] *)
  random36 : string;                            (* [Math.random().toString(36)] *)
  fileInputMounted : bool;                      (* [fileInputRef.current] is set *)
  storageUpload : string -> string -> File -> UploadResult;
  getPublicUrl : string -> string -> option string   (* [urlData?.publicUrl] *)
}.

(** The state setters of the components. *)
Inductive Setter :=
| SetUploadError (msg : string)
| SetUploadSuccess (msg : string)
| SetUploading (b : bool)
| SetUploadProgress (p : N)
| SetPreviewImage (url : string)
| SetPreviewMedia (url : string)
| SetPreviewMediaType (t : string).

Inductive Effect :=
| Set_ (s : Setter)
| OnImageChange (url : string)
| OnMediaChange (url : string) (mediaType : string)
| ResetFileInput
| ConsoleLog (msg : string)
| ConsoleError (msg : string)
| Store (c : StoreCall)
| SetTimeout (ms : N) (callback : list Setter).

Definition emit (e : Effect) : M (list Effect) unit :=
  fun t => (Normal tt, (t ++ [e])%list).

Definition set (s : Setter) : M (list Effect) unit := emit (Set_ s).

(** The calls on the object store, in order. *)
Definition storeCalls (t : list Effect) : list StoreCall :=
  flat_map (fun e => match e with Store c => [c] | _ => [] end) t.

Definition imageTypes : list string :=
  ["image/jpeg"; "image/jpg"; "image/png"; "image/gif"; "image/webp"].

Definition videoTypes : list string :=
  ["video/mp4"; "video/webm"; "video/ogg"; "video/quicktime"].

(** The key all three build:
    [`${user.id}/${Date.now()}-${Math.random().toString(36).substring(7)}.${fileExtension}`] *)
Definition fileName (userId : string) (env : Env) (file : File) : string :=
  let fileExtension := pop (split "." (name file)) in
  let timestamp := now env in
  let randomId := substring_from 7 (random36 env) in
  userId ++ "/" ++ showN timestamp ++ "-" ++ randomId ++ "." ++ fileExtension.

End Widget.

(* ================================================================== *)
(** * SimpleImageUpload.tsx *)
(* ================================================================== *)

Module Simple.
Import JS Eff Widget.
Open Scope string_scope.

Record Props := mkProps {
  bucket : string;        (* 'recipes' | 'profiles' | 'forums' | 'resources' | 'chat-media' *)
  maxSizeMB : N           (* default 10 *)
}.

Definition validTypes : list string := imageTypes.

Definition handleFileUpload (props : Props) (env : Env) (file : File)
    : M (list Effect) unit :=
  (match user env with
   | None => set (SetUploadError "You must be logged in to upload images")
   | Some userId =>
       if negb (includes validTypes (type file)) then
         set (SetUploadError "Please upload a valid image file (JPEG, PNG, GIF, WebP)")
       else
         let maxSize := mul (mul (ofN (maxSizeMB props)) 1024) 1024 in
         if gt (ofN (size file)) maxSize then
           set (SetUploadError ("File size must be less than "
                                ++ showN (maxSizeMB props) ++ "MB"))
         else
           set (SetUploading true) ;;
           set (SetUploadError "") ;;
           set (SetUploadProgress 0) ;;
           try_finally
             (try_catch
                (set (SetUploadProgress 30) ;;
                 let fileName := fileName userId env file in
                 let bucketName := "make-cfac176d-" ++ bucket props in
                 set (SetUploadProgress 50) ;;
                 emit (Store (StorageUpload bucketName fileName file false)) ;;
                 let result := storageUpload env bucketName fileName file in
                 set (SetUploadProgress 90) ;;
                 match result with
                 | UploadError _ =>
                     emit (ConsoleError "Upload error:") ;;
                     set (SetUploadError "Failed to upload image. Please try again.")
                 | UploadData _ =>
                     emit (Store (StorageGetPublicUrl bucketName fileName)) ;;
                     match getPublicUrl env bucketName fileName with
                     | Some publicUrl =>
                         if truthy publicUrl then
                           set (SetUploadProgress 100) ;;
                           set (SetPreviewImage publicUrl) ;;
                           emit (OnImageChange publicUrl) ;;
                           (if fileInputMounted env then emit ResetFileInput else ret tt)
                         else set (SetUploadError "Failed to get image URL")
                     | None => set (SetUploadError "Failed to get image URL")
                     end
                 end)
                (fun _ =>
                   emit (ConsoleError "Upload error:") ;;
                   set (SetUploadError "An unexpected error occurred during upload")))
             (set (SetUploading false) ;;
              emit (SetTimeout 1000 [SetUploadProgress 0]))
   end)%eff.

End Simple.

(* ================================================================== *)
(** * RobustImageUpload.tsx *)
(* ================================================================== *)

Module Robust.
Import JS Eff Widget.
Open Scope string_scope.

Record Props := mkProps {
  bucket : string;        (* 'recipes' | 'profiles' | 'forums' | 'resources' | 'chat-media' *)
  maxSizeMB : N           (* default 10 *)
}.

Definition validTypes : list string := imageTypes.

Definition bucketName (props : Props) : string := "make-cfac176d-" ++ bucket props.

Definition tooLargeMessage (props : Props) : string :=
  "File size must be less than " ++ showN (maxSizeMB props) ++ "MB".

Definition handleFileUpload (props : Props) (env : Env) (file : File)
    : M (list Effect) unit :=
  (match user env with
   | None => set (SetUploadError "You must be logged in to upload images")
   | Some userId =>
       if negb (includes validTypes (type file)) then
         set (SetUploadError "Please upload a valid image file (JPEG, PNG, GIF, WebP)")
       else
         let maxSize := mul (mul (ofN (maxSizeMB props)) 1024) 1024 in
         if gt (ofN (size file)) maxSize then
           set (SetUploadError (tooLargeMessage props))
         else
           set (SetUploading true) ;;
           set (SetUploadError "") ;;
           set (SetUploadSuccess "") ;;
           set (SetUploadProgress 0) ;;
           try_finally
             (try_catch
                (let fileName := fileName userId env file in
                 let bucketName := bucketName props in
                 set (SetUploadProgress 30) ;;
                 emit (ConsoleLog "Using existing bucket:") ;;
                 set (SetUploadProgress 50) ;;
                 emit (ConsoleLog "Uploading file to:") ;;
                 emit (Store (StorageUpload bucketName fileName file false)) ;;
                 match storageUpload env bucketName fileName file with
                 | UploadError uploadError =>
                     emit (ConsoleError "Upload error:") ;;
                     throw (mkError ("Upload failed: " ++ message uploadError))
                 | UploadData _ =>
                     set (SetUploadProgress 90) ;;
                     emit (ConsoleLog "Getting public URL for:") ;;
                     emit (Store (StorageGetPublicUrl bucketName fileName)) ;;
                     match getPublicUrl env bucketName fileName with
                     | None => throw (mkError "Failed to get image URL")
                     | Some publicUrl =>
                         if negb (truthy publicUrl) then
                           throw (mkError "Failed to get image URL")
                         else
                           set (SetUploadProgress 100) ;;
                           set (SetPreviewImage publicUrl) ;;
                           emit (OnImageChange publicUrl) ;;
                           set (SetUploadSuccess "Image uploaded successfully!") ;;
                           (if fileInputMounted env then emit ResetFileInput else ret tt)
                     end
                 end)
                (fun e =>
                   emit (ConsoleError "Upload error:") ;;
                   set (SetUploadError (message e))))
             (set (SetUploading false) ;;
              emit (SetTimeout 2000 [SetUploadProgress 0; SetUploadSuccess ""]))
   end)%eff.

End Robust.

(* ================================================================== *)
(** * FixedMediaUpload.tsx *)
(* ================================================================== *)

Module FixedMedia.
Import JS Eff Widget.
Open Scope string_scope.

Record Props := mkProps {
  bucket : string;
  allowVideo : bool;            (* default true *)
  allowImage : bool;            (* default true *)
  maxSizeMB : option N          (* optional, no default *)
}.

(** [maxSizeMB] is truthy when given and not zero. *)
Definition maxSizeMB_given (props : Props) : option N :=
  match maxSizeMB props with
  | Some 0%N | None => None
  | Some n => Some n
  end.

Definition getMaxSize (props : Props) : Q :=
  match maxSizeMB_given props with
  | Some n => mul (mul (ofN n) 1024) 1024
  | None => if allowVideo props then mul (mul 50 1024) 1024 else mul (mul 10 1024) 1024
  end.

Definition getAcceptedTypes (props : Props) : list string :=
  ((if allowImage props then imageTypes else [])
   ++ (if allowVideo props then videoTypes else []))%list.

Definition getFileTypeDescription (props : Props) : string :=
  join " or "
    ((if allowImage props then ["Images (JPEG, PNG, GIF, WebP)"] else [])
     ++ (if allowVideo props then ["Videos (MP4, WebM, OGG, MOV)"] else []))%list.

Definition fileTypeOf (file : File) : string :=
  if startsWith (type file) "video/" then "video" else "image".

Definition handleFileUpload (props : Props) (env : Env) (file : File)
    : M (list Effect) unit :=
  (match user env with
   | None => set (SetUploadError "You must be logged in to upload files")
   | Some userId =>
       let acceptedTypes := getAcceptedTypes props in
       let maxSize := getMaxSize props in
       if negb (includes acceptedTypes (type file)) then
         set (SetUploadError ("Please upload a valid file: "
                              ++ getFileTypeDescription props))
       else
         let sizeLimitMB :=
           match maxSizeMB_given props with
           | Some n => n
           | None => if startsWith (type file) "video/" then 50%N else 10%N
           end in
         if gt (ofN (size file)) maxSize then
           set (SetUploadError ("File size must be less than " ++ showN sizeLimitMB ++ "MB"))
         else
           set (SetUploading true) ;;
           set (SetUploadError "") ;;
           set (SetUploadSuccess "") ;;
           set (SetUploadProgress 0) ;;
           try_finally
             (try_catch
                (let fileName := fileName userId env file in
                 let bucketName := "make-cfac176d-" ++ bucket props in
                 set (SetUploadProgress 20) ;;
                 emit (ConsoleLog "Using existing bucket:") ;;
                 set (SetUploadProgress 40) ;;
                 emit (ConsoleLog "Uploading file to:") ;;
                 emit (Store (StorageUpload bucketName fileName file false)) ;;
                 match storageUpload env bucketName fileName file with
                 | UploadError uploadError =>
                     emit (ConsoleError "Upload error:") ;;
                     throw (mkError ("Upload failed: " ++ message uploadError))
                 | UploadData _ =>
                     set (SetUploadProgress 95) ;;
                     emit (ConsoleLog "Getting public URL for:") ;;
                     emit (Store (StorageGetPublicUrl bucketName fileName)) ;;
                     match getPublicUrl env bucketName fileName with
                     | None => throw (mkError "Failed to get file URL")
                     | Some publicUrl =>
                         if negb (truthy publicUrl) then
                           throw (mkError "Failed to get file URL")
                         else
                           set (SetUploadProgress 100) ;;
                           let fileType := fileTypeOf file in
                           set (SetPreviewMedia publicUrl) ;;
                           set (SetPreviewMediaType fileType) ;;
                           emit (OnMediaChange publicUrl fileType) ;;
                           set (SetUploadSuccess "File uploaded successfully!") ;;
                           (if fileInputMounted env then emit ResetFileInput else ret tt)
                     end
                 end)
                (fun e =>
                   emit (ConsoleError "Upload error:") ;;
                   set (SetUploadError (message e))))
             (set (SetUploading false) ;;
              emit (SetTimeout 1000 [SetUploadProgress 0; SetUploadSuccess ""]))
   end)%eff.

End FixedMedia.

(* ================================================================== *)
(** * The edge function: upload and delete routes *)
(* ================================================================== *)

Module Server.
Import JS Eff.
Open Scope string_scope.

(** A value of a parsed JSON body field. *)
Inductive JsonValue :=
| JAbsent                                        (* the field is missing: [undefined] *)
| JNull
| JString (s : string)
| JOther (isTruthy : bool) (asString : string).  (* a number, boolean, array or object *)

Definition json_truthy (v : JsonValue) : bool :=
  match v with
  | JAbsent | JNull => false
  | JString s => truthy s
  | JOther b _ => b
  end.

(** The string a value coerces to where the client builds a request path. *)
Definition json_toString (v : JsonValue) : string :=
  match v with
  | JAbsent => "undefined"
  | JNull => "null"
  | JString s => s
  | JOther _ s => s
  end.

Inductive FormData :=
| FormUnreadable                     (* [c.req.formData()] rejects *)
| Form (file : option File).         (* [formData.get("file")] *)

Inductive JsonBody :=
| JsonUnreadable                     (* [c.req.json()] rejects, or the body is [null] *)
| JsonFields (fileName bucket : JsonValue).

Record Request := mkRequest {
  authorization : option string;     (* the [Authorization] header *)
  bucketParam : string;              (* [c.req.param("bucket")] *)
  formData : FormData;
  json : JsonBody
}.

Record Env := mkEnv {
  authGetUser : string -> option string * option string;  (* [data.user] by its id, [error] *)
  now : N;
  randomUUID : string;
  storageUpload : string -> string -> File -> UploadResult;
  getPublicUrl : string -> string -> option string;
  storageRemove : string -> list string -> option JsError
}.

Record Uploaded := mkUploaded {
  up_fileName : string;
  up_url : string;
  up_bucket : string;
  up_fileType : string;
  up_fileSize : option N;
  up_mimeType : option string;
  up_isOptimized : option bool
}.

Inductive Body :=
| ErrorBody (error : string)
| UploadedBody (u : Uploaded)
| SuccessBody.

Record Response := mkResponse { status : N; body : Body }.

(** [c.json(body)] answers 200, [c.json(body, status)] the given status. *)
Definition jsonResponse (b : Body) (st : N) : Response := {| status := st; body := b |}.

Inductive Effect :=
| Store (c : StoreCall)
| ConsoleLog (msg : string).

(** The outcome of a route handler: the response and what it did. *)
Definition Handled : Type := Response * list Effect.

(** ** getUserFromToken *)
Definition getUserFromToken (env : Env) (req : Request)
    : option string * option string :=
  let accessToken :=
    match authorization req with
    | Some h => at_index (split " " h) 1
    | None => None
    end in
  match accessToken with
  | None => (None, Some "No token provided")
  | Some tok =>
      if negb (truthy tok) then (None, Some "No token provided")
      else authGetUser env tok
  end.

(** [error || "Unauthorized"] *)
Definition unauthorized (error : option string) : Response :=
  let msg := match error with
             | Some e => if truthy e then e else "Unauthorized"
             | None => "Unauthorized"
             end in
  jsonResponse (ErrorBody msg) 401.

Definition validImageTypes : list string :=
  ["image/jpeg"; "image/jpg"; "image/png"; "image/gif"; "image/webp"].

Definition validVideoTypes : list string :=
  ["video/mp4"; "video/webm"; "video/ogg"; "video/quicktime"].

Definition validBuckets : list string :=
  ["recipes"; "profiles"; "forums"; "resources"; "chat-media"].

(** ** POST /upload-image (legacy) *)

Definition legacyFileName (userId : string) (env : Env) (file : File) : string :=
  userId ++ "/" ++ showN (now env) ++ "-" ++ name file.

Definition uploadImageRoute (env : Env) (req : Request) : Handled :=
  match getUserFromToken env req with
  | (None, error) => (unauthorized error, [])
  | (Some userId, _) =>
      match formData req with
      | FormUnreadable =>
          (jsonResponse (ErrorBody "Internal server error during image upload") 500,
           [ConsoleLog "Image upload error:"])
      | Form None => (jsonResponse (ErrorBody "No file provided") 400, [])
      | Form (Some file) =>
          if negb (includes validImageTypes (type file)) then
            (jsonResponse (ErrorBody "Invalid file type. Please upload an image.") 400, [])
          else if gt (ofN (size file)) (mul (mul 10 1024) 1024) then
            (jsonResponse (ErrorBody "File size must be less than 10MB") 400, [])
          else
            let fileName := legacyFileName userId env file in
            let bucketName := "make-cfac176d-recipes" in
            let up := Store (StorageUpload bucketName fileName file false) in
            match storageUpload env bucketName fileName file with
            | UploadError _ =>
                (jsonResponse (ErrorBody "Failed to upload image") 500,
                 [up; ConsoleLog "Upload error:"])
            | UploadData _ =>
                let get := Store (StorageGetPublicUrl bucketName fileName) in
                match getPublicUrl env bucketName fileName with
                | Some url =>
                    if truthy url then
                      (jsonResponse
                         (UploadedBody
                            {| up_fileName := fileName; up_url := url;
                               up_bucket := bucketName; up_fileType := "image";
                               up_fileSize := None; up_mimeType := None;
                               up_isOptimized := None |}) 200,
                       [up; get])
                    else (jsonResponse (ErrorBody "Failed to create access URL") 500, [up; get])
                | None => (jsonResponse (ErrorBody "Failed to create access URL") 500, [up; get])
                end
            end
      end
  end.

(** ** POST /upload/:bucket *)

Definition isVideo (file : File) : bool := includes validVideoTypes (type file).

Definition optimizedExtension (file : File) : string :=
  let fileExtension := pop (split "." (name file)) in
  if String.eqb (type file) "image/webp" then "webp" else fileExtension.

Definition uploadFileName (userId : string) (env : Env) (file : File) : string :=
  let timestamp := now env in
  let randomId := substring_to 8 (randomUUID env) in
  userId ++ "/" ++ (if isVideo file then "videos" else "images") ++ "/"
  ++ showN timestamp ++ "-" ++ randomId ++ "." ++ optimizedExtension file.

Definition uploadRoute (env : Env) (req : Request) : Handled :=
  match getUserFromToken env req with
  | (None, error) => (unauthorized error, [])
  | (Some userId, _) =>
      let bucket := bucketParam req in
      if negb (includes validBuckets bucket) then
        (jsonResponse (ErrorBody "Invalid bucket") 400, [])
      else
        match formData req with
        | FormUnreadable =>
            (jsonResponse (ErrorBody "Internal server error during file upload") 500,
             [ConsoleLog "File upload error:"])
        | Form None => (jsonResponse (ErrorBody "No file provided") 400, [])
        | Form (Some file) =>
            let allValidTypes := (validImageTypes ++ validVideoTypes)%list in
            if negb (includes allValidTypes (type file)) then
              (jsonResponse
                 (ErrorBody "Invalid file type. Please upload an image (JPEG, PNG, GIF, WebP) or video (MP4, WebM, OGG, MOV).")
                 400, [])
            else
              let maxSize := if isVideo file then mul (mul 50 1024) 1024
                             else mul (mul 5 1024) 1024 in
              if gt (ofN (size file)) maxSize then
                let sizeLimit := if isVideo file then "50MB" else "5MB" in
                (jsonResponse (ErrorBody ("File size must be less than " ++ sizeLimit)) 400, [])
              else
                let fileName := uploadFileName userId env file in
                let bucketName := "make-cfac176d-" ++ bucket in
                let up := Store (StorageUpload bucketName fileName file false) in
                match storageUpload env bucketName fileName file with
                | UploadError _ =>
                    (jsonResponse (ErrorBody "Failed to upload file") 500,
                     [up; ConsoleLog "Upload error:"])
                | UploadData _ =>
                    let get := Store (StorageGetPublicUrl bucketName fileName) in
                    match getPublicUrl env bucketName fileName with
                    | Some url =>
                        if truthy url then
                          (jsonResponse
                             (UploadedBody
                                {| up_fileName := fileName; up_url := url;
                                   up_bucket := bucketName;
                                   up_fileType := if isVideo file then "video" else "image";
                                   up_fileSize := Some (size file);
                                   up_mimeType := Some (type file);
                                   up_isOptimized :=
                                     Some (String.eqb (type file) "image/webp"
                                           && negb (Qle_bool (mul (mul 2 1024) 1024)
                                                      (ofN (size file)))) |}) 200,
                           [up; get])
                        else
                          (jsonResponse (ErrorBody "Failed to create access URL") 500, [up; get])
                    | None =>
                        (jsonResponse (ErrorBody "Failed to create access URL") 500, [up; get])
                    end
                end
        end
  end.

(** ** DELETE /delete-file *)

Definition deleteFileRoute (env : Env) (req : Request) : Handled :=
  match getUserFromToken env req with
  | (None, error) => (unauthorized error, [])
  | (Some userId, _) =>
      match json req with
      | JsonUnreadable =>
          (jsonResponse (ErrorBody "Internal server error deleting file") 500,
           [ConsoleLog "Delete file error:"])
      | JsonFields fileName bucket =>
          if negb (json_truthy fileName) || negb (json_truthy bucket) then
            (jsonResponse (ErrorBody "fileName and bucket are required") 400, [])
          else
            match fileName with
            | JString fileName =>
                (* Only allow users to delete their own files *)
                if negb (startsWith fileName (userId ++ "/")) then
                  (jsonResponse (ErrorBody "Unauthorized to delete this file") 403, [])
                else
                  let rm := Store (StorageRemove (json_toString bucket) [fileName]) in
                  match storageRemove env (json_toString bucket) [fileName] with
                  | Some _ =>
                      (jsonResponse (ErrorBody "Failed to delete file") 500,
                       [rm; ConsoleLog "Delete error:"])
                  | None => (jsonResponse SuccessBody 200, [rm])
                  end
            | _ =>
                (* [fileName.startsWith] is not a function: caught below *)
                (jsonResponse (ErrorBody "Internal server error deleting file") 500,
                 [ConsoleLog "Delete file error:"])
            end
      end
  end.

(** The calls on the object store, in order. *)
Definition storeCalls (t : list Effect) : list StoreCall :=
  flat_map (fun e => match e with Store c => [c] | _ => [] end) t.

End Server.

(* ================================================================== *)
(** * More readings of the traces *)
(* ================================================================== *)

Module Observe.
Import JS Eff.

(** The calls of [onUpload], in order. *)
Definition onUploads (t : list Portfolio.Effect)
    : list (string * Portfolio.ImageMetadata) :=
  flat_map (fun e => match e with
                     | Portfolio.OnUpload url m => [(url, m)]
                     | _ => []
                     end) t.

(** The calls of [onImageChange] and [onMediaChange], by their URL. *)
Definition onChanges (t : list Widget.Effect) : list string :=
  flat_map (fun e => match e with
                     | Widget.OnImageChange url => [url]
                     | Widget.OnMediaChange url _ => [url]
                     | _ => []
                     end) t.

(** The values given to [setUploading], in order. *)
Definition uploadingFlags (t : list Widget.Effect) : list bool :=
  flat_map (fun e => match e with
                     | Widget.Set_ (Widget.SetUploading b) => [b]
                     | _ => []
                     end) t.

(** The messages given to [setUploadError] that are not empty. *)
Definition errorsShown (t : list Widget.Effect) : list string :=
  flat_map (fun e => match e with
                     | Widget.Set_ (Widget.SetUploadError msg) =>
                         if truthy msg then [msg] else []
                     | _ => []
                     end) t.

(** The timers started. *)
Definition timers (t : list Widget.Effect) : list (N * list Widget.Setter) :=
  flat_map (fun e => match e with
                     | Widget.SetTimeout ms cb => [(ms, cb)]
                     | _ => []
                     end) t.

End Observe.

Module WidgetRuns.
Import JS Eff Widget Observe.

(** What a finished run of a [handleFileUpload] looks like: it returned,
    and either it never raised the uploading flag, called no store and
    started no timer, or it raised the flag once, lowered it once, and
    the last two things it did were to lower it and to start the timer
    [ms] with the callback [cb]. *)
Definition settled (ms : N) (cb : list Setter)
    (r : Completion unit * list Effect) : Prop :=
  fst r = Normal tt /\
  ((uploadingFlags (snd r) = [] /\ storeCalls (snd r) = [] /\ timers (snd r) = [])
   \/ (uploadingFlags (snd r) = [true; false] /\
       timers (snd r) = [(ms, cb)] /\
       exists t, snd r = (t ++ [Set_ (SetUploading false); SetTimeout ms cb])%list)).

(** A run tells its caller one thing.  Either the change callback, once:
    then the URL is not empty and is the one the store gave for the key
    [fileName] after accepting the upload under that key, these two were
    the only calls on the store, and no error message was shown.  Or one
    error message, and no callback. *)
Definition answered (bucketName : string) (env : Env) (file : File)
    (r : Completion unit * list Effect) : Prop :=
  (exists userId url,
      user env = Some userId /\
      onChanges (snd r) = [url] /\ truthy url = true /\
      errorsShown (snd r) = [] /\
      storeCalls (snd r) =
        [StorageUpload bucketName (fileName userId env file) file false;
         StorageGetPublicUrl bucketName (fileName userId env file)] /\
      (exists p, storageUpload env bucketName (fileName userId env file) file
                 = UploadData p) /\
      getPublicUrl env bucketName (fileName userId env file) = Some url)
  \/ (exists msg, onChanges (snd r) = [] /\ errorsShown (snd r) = [msg]).

(** The store calls of a run that got as far as the upload. *)
Definition uploadsTo (bucketName key : string) (file : File)
    (calls : list StoreCall) : Prop :=
  exists rest, calls = StorageUpload bucketName key file false :: rest.

End WidgetRuns.

Module Chars.
Import JS.

(** A character other than [sep]. *)
Definition notChar (sep c : ascii) : bool := negb (Ascii.eqb c sep).

(** The string does not contain [sep]. *)
Definition without (sep : ascii) (s : string) : bool := all_chars (notChar sep) s.

End Chars.

(* ================================================================== *)
(** * The edge function: the routes over the key-value store *)
(* ================================================================== *)

(** The routes [auth/signup], [profile], [recipes], [my-recipes],
    [forum/posts], [resources] and [admin/users] of the server file, and
    [get-signed-url].  The key-value store, the auth service, the clock
    and the UUID generator are inputs: a handler is run against their
    answers, and what it writes is recorded. *)
Module Api.
Import JS Eff.
Open Scope string_scope.

(** A JSON value.  A number is kept by whether it is zero and by the
    text [String(n)] gives for it.  An object is the list of its own
    properties, the first entry of a name being its value. *)
#[warnings="-register-all"] Inductive Value :=
| VNull
| VBool (b : bool)
| VNum (isZero : bool) (shown : string)
| VStr (s : string)
| VArr (items : list Value)
| VObj (fields : list (string * Value)).

(** A value that may be [undefined]. *)
Definition Maybe : Type := option Value.

(** [!!v] *)
Definition truthyV (v : Value) : bool :=
  match v with
  | VNull => false
  | VBool b => b
  | VNum isZero _ => negb isZero
  | VStr s => truthy s
  | VArr _ | VObj _ => true
  end.

Definition truthyM (v : Maybe) : bool :=
  match v with
  | Some v => truthyV v
  | None => false
  end.

(** [x === "s"] *)
Definition is_string (v : Maybe) (s : string) : bool :=
  match v with
  | Some (VStr x) => String.eqb x s
  | _ => false
  end.

(** [String(v)], as a template literal applies it. *)
Fixpoint toStr (v : Value) : string :=
  match v with
  | VNull => "null"
  | VBool true => "true"
  | VBool false => "false"
  | VNum _ s => s
  | VStr s => s
  | VArr l => join "," (map (fun x => match x with
                                      | VNull => EmptyString
                                      | _ => toStr x
                                      end) l)
  | VObj _ => "[object Object]"
  end.

Fixpoint lookup (k : string) (fields : list (string * Value)) : Maybe :=
  match fields with
  | [] => None
  | (k', v) :: rest => if String.eqb k k' then Some v else lookup k rest
  end.

(** The elements of an array or the characters of a string under their
    indices, counted from [i]. *)
Fixpoint indexed (i : N) (l : list Value) : list (string * Value) :=
  match l with
  | [] => []
  | v :: rest => (showN i, v) :: indexed (i + 1) rest
  end.

Fixpoint chars (s : string) : list Value :=
  match s with
  | EmptyString => []
  | String c r => VStr (String c EmptyString) :: chars r
  end.

(** The own enumerable properties of a value, which [{...v}] copies:
    the fields of an object, the elements of an array and the characters
    of a string under their indices, nothing of [null], a boolean or a
    number. *)
Definition spread (v : Value) : list (string * Value) :=
  match v with
  | VObj fields => fields
  | VArr l => indexed 0 l
  | VStr s => indexed 0 (chars s)
  | VNull | VBool _ | VNum _ _ => []
  end.

(** The own enumerable property [k] of a value, if it has one. *)
Definition own (v : Value) (k : string) : Maybe := lookup k (spread v).

(** [v.k] for a property name [k] that is not inherited: an own
    enumerable property, or the [length] of an array or a string. *)
Definition field (v : Value) (k : string) : Maybe :=
  match v with
  | VObj fields => lookup k fields
  | VArr l =>
      if String.eqb k "length"
      then Some (VNum (N.eqb (N.of_nat (List.length l)) 0)
                   (showN (N.of_nat (List.length l))))
      else lookup k (indexed 0 l)
  | VStr s =>
      if String.eqb k "length"
      then Some (VNum (N.eqb (N.of_nat (String.length s)) 0)
                   (showN (N.of_nat (String.length s))))
      else lookup k (indexed 0 (chars s))
  | VNull | VBool _ | VNum _ _ => None
  end.

(** A part of an object literal: [k: v] or [...v]. *)
Inductive Part :=
| Field (k : string) (v : Value)
| Spread (v : Value).

(** The object an object literal builds: its parts are taken in source
    order, a later part replacing the properties it shares with an
    earlier one. *)
Definition object (parts : list Part) : Value :=
  VObj (fold_left (fun acc p => match p with
                                | Field k v => (k, v) :: acc
                                | Spread v => (spread v ++ acc)%list
                                end) parts []).

Record Request := mkRequest {
  authorization : option string;     (* the [Authorization] header *)
  body : option Value                (* [c.req.json()], [None] when it rejects *)
}.

(** The request as [getUserFromToken] reads it: by its headers. *)
Definition raw (req : Request) : Server.Request :=
  {| Server.authorization := authorization req;
     Server.bucketParam := EmptyString;
     Server.formData := Server.FormUnreadable;
     Server.json := Server.JsonUnreadable |}.

(** What [kv.get] answers. *)
Inductive KvGot :=
| Found (v : Value)
| Missing                            (* [undefined] *)
| KvFails.                           (* the promise rejects *)

(** The user the auth service created, by its id and email. *)
Record AuthUser := mkAuthUser { user_id : string; user_email : string }.

Inductive Created :=
| CreatedUser (u : AuthUser)
| CreateError (message : string)     (* [error.message] *)
| CreateFails.                       (* the promise rejects *)

Inductive Signed :=
| SignedUrl (url : option string)    (* [signedUrlData?.signedUrl] *)
| SignError
| SignFails.

Record Env := mkEnv {
  server : Server.Env;               (* the auth service and [crypto.randomUUID()] *)
  kvGet : string -> KvGot;
  kvGetByPrefix : string -> option (list Value);
  kvSet : string -> Value -> bool;   (* [false] when the promise rejects *)
  toISOString : nat -> string;       (* the n-th [new Date().toISOString()] of the handler *)
  createUser : Value -> Value -> Value -> Value -> Created;
                                     (* by email, password, name and role *)
  createSignedUrl : Value -> Value -> N -> Signed
                                     (* by bucket, path and seconds *)
}.

Inductive Body :=
| ErrorBody (error : string)
| SignedUpBody (user : AuthUser)     (* [{ user, success: true }] *)
| ProfileBody (profile : Value)
| RecipeBody (recipe : Value)
| RecipesBody (recipes : list Value)
| PostBody (post : Value)
| ResourceBody (resource : Value)
| UsersBody (users : list Value)
| UrlBody (url : option string).

Record Response := mkResponse { status : N; body_of : Body }.

Definition jsonResponse (b : Body) (st : N) : Response :=
  {| status := st; body_of := b |}.

Inductive Effect :=
| KvSet (key : string) (value : Value)
| CreateUser (email password name role : Value)
| CreateSignedUrl (bucket path : Value) (seconds : N)
| ConsoleLog (msg : string).

Definition Handled : Type := Response * list Effect.

Definition emit (e : Effect) : M (list Effect) unit :=
  fun t => (Normal tt, (t ++ [e])%list).

(** [await kv.get(key)] *)
Definition kv_get (env : Env) (key : string) : M (list Effect) Maybe :=
  match kvGet env key with
  | Found v => ret (Some v)
  | Missing => ret None
  | KvFails => throw (mkError "kv.get")
  end.

(** [await kv.set(key, value)] *)
Definition kv_set (env : Env) (key : string) (value : Value) : M (list Effect) unit :=
  (emit (KvSet key value) ;;
   if kvSet env key value then ret tt else throw (mkError "kv.set"))%eff.

(** [await kv.getByPrefix(prefix)] *)
Definition kv_getByPrefix (env : Env) (prefix : string) : M (list Effect) (list Value) :=
  match kvGetByPrefix env prefix with
  | Some l => ret l
  | None => throw (mkError "kv.getByPrefix")
  end.

(** [await c.req.json()] *)
Definition req_json (req : Request) : M (list Effect) Value :=
  match body req with
  | Some v => ret v
  | None => throw (mkError "Unexpected end of JSON input")
  end.

(** [try { handler } catch (error) { console.log(log, error); return
    c.json({ error: msg }, 500) }] *)
Definition handle (handler : M (list Effect) Response) (log msg : string) : Handled :=
  match handler [] with
  | (Normal r, t) => (r, t)
  | (Throw _, t) => (jsonResponse (ErrorBody msg) 500, (t ++ [ConsoleLog log])%list)
  end.

(** The first lines of every route with a user: the user's id, or the
    401 answer. *)
Definition authenticate (env : Env) (req : Request) : string + Response :=
  match Server.getUserFromToken (server env) (raw req) with
  | (Some userId, _) => inl userId
  | (None, error) =>
      inr (jsonResponse
             (ErrorBody match error with
                        | Some e => if truthy e then e else "Unauthorized"
                        | None => "Unauthorized"
                        end) 401)
  end.

(** ** POST /auth/signup *)

Definition roles : list string := ["student"; "instructor"; "admin"].

(** [roles.includes(role)] *)
Definition includesV (l : list string) (v : Value) : bool :=
  match v with
  | VStr s => includes l s
  | _ => false
  end.

(** [role = "student"] in the destructuring of the body. *)
Definition requestedRole (b : Value) : Value :=
  match field b "role" with
  | Some r => r
  | None => VStr "student"
  end.

Definition signupProfile (env : Env) (u : AuthUser) (name role : Value) : Value :=
  object [Field "id" (VStr (user_id u));
          Field "email" (VStr (user_email u));
          Field "name" name;
          Field "role" role;
          Field "created_at" (VStr (toISOString env 0));
          Field "profile_complete" (VBool false)].

Definition signupRoute (env : Env) (req : Request) : Handled :=
  handle
    (b <- req_json req ;;
     match b with
     | VNull => throw (mkError "Cannot destructure property of null")
     | _ =>
         let email := field b "email" in
         let password := field b "password" in
         let name := field b "name" in
         let role := requestedRole b in
         match email, password, name with
         | Some email, Some password, Some name =>
             if negb (truthyV email) || negb (truthyV password) || negb (truthyV name) then
               ret (jsonResponse (ErrorBody "Email, password, and name are required") 400)
             else if negb (includesV roles role) then
               ret (jsonResponse
                      (ErrorBody "Invalid role. Must be student, instructor, or admin") 400)
             else
               emit (CreateUser email password name role) ;;
               match createUser env email password name role with
               | CreateFails => throw (mkError "createUser")
               | CreateError message =>
                   emit (ConsoleLog "Signup error:") ;;
                   ret (jsonResponse (ErrorBody message) 400)
               | CreatedUser u =>
                   kv_set env ("user:" ++ user_id u) (signupProfile env u name role) ;;
                   ret (jsonResponse (SignedUpBody u) 200)
               end
         | _, _, _ =>
             ret (jsonResponse (ErrorBody "Email, password, and name are required") 400)
         end
     end)%eff
    "Signup server error:" "Internal server error during signup".

(** ** GET /profile *)

Definition getProfileRoute (env : Env) (req : Request) : Handled :=
  handle
    (match authenticate env req with
     | inr r => ret r
     | inl userId =>
         profile <- kv_get env ("user:" ++ userId) ;;
         match profile with
         | Some profile =>
             if truthyV profile then ret (jsonResponse (ProfileBody profile) 200)
             else ret (jsonResponse (ErrorBody "Profile not found") 404)
         | None => ret (jsonResponse (ErrorBody "Profile not found") 404)
         end
     end)%eff
    "Get profile error:" "Internal server error fetching profile".

(** ** PUT /profile *)

Definition updatedProfile (env : Env) (currentProfile updates : Value) : Value :=
  object [Spread currentProfile;
          Spread updates;
          Field "updated_at" (VStr (toISOString env 0))].

Definition putProfileRoute (env : Env) (req : Request) : Handled :=
  handle
    (match authenticate env req with
     | inr r => ret r
     | inl userId =>
         updates <- req_json req ;;
         currentProfile <- kv_get env ("user:" ++ userId) ;;
         match currentProfile with
         | Some currentProfile =>
             if truthyV currentProfile then
               let updatedProfile := updatedProfile env currentProfile updates in
               kv_set env ("user:" ++ userId) updatedProfile ;;
               ret (jsonResponse (ProfileBody updatedProfile) 200)
             else ret (jsonResponse (ErrorBody "Profile not found") 404)
         | None => ret (jsonResponse (ErrorBody "Profile not found") 404)
         end
     end)%eff
    "Update profile error:" "Internal server error updating profile".

(** ** POST /recipes *)

Definition newRecipe (env : Env) (userId : string) (recipe : Value) : Value :=
  object [Field "id" (VStr (Server.randomUUID (server env)));
          Spread recipe;
          Field "author_id" (VStr userId);
          Field "created_at" (VStr (toISOString env 0));
          Field "updated_at" (VStr (toISOString env 1));
          Field "ratings" (VArr []);
          Field "comments" (VArr [])].

(** The names the route sets after the body is spread. *)
Definition recipeStamps : list string :=
  ["author_id"; "created_at"; "updated_at"; "ratings"; "comments"].

(** [(await kv.get(key)) || []], then a method of arrays is called on
    it: anything truthy that is no array has no such method. *)
Definition arrayOrEmpty (v : Maybe) : M (list Effect) (list Value) :=
  match v with
  | None => ret []
  | Some v =>
      if truthyV v then
        match v with
        | VArr l => ret l
        | _ => throw (mkError "is not a function")
        end
      else ret []
  end.

Definition createRecipeRoute (env : Env) (req : Request) : Handled :=
  handle
    (match authenticate env req with
     | inr r => ret r
     | inl userId =>
         recipe <- req_json req ;;
         let recipeId := Server.randomUUID (server env) in
         let newRecipe := newRecipe env userId recipe in
         kv_set env ("recipe:" ++ recipeId) newRecipe ;;
         stored <- kv_get env ("user_recipes:" ++ userId) ;;
         userRecipes <- arrayOrEmpty stored ;;
         kv_set env ("user_recipes:" ++ userId)
           (VArr (userRecipes ++ [VStr recipeId])%list) ;;
         ret (jsonResponse (RecipeBody newRecipe) 200)
     end)%eff
    "Create recipe error:" "Internal server error creating recipe".

(** ** GET /my-recipes *)

(** [await Promise.all(ids.map(async id => await kv.get(`recipe:${id}`)))] *)
Fixpoint getAll (env : Env) (ids : list Value) : M (list Effect) (list Maybe) :=
  match ids with
  | [] => ret []
  | id :: rest =>
      (v <- kv_get env ("recipe:" ++ toStr id) ;;
       vs <- getAll env rest ;;
       ret (v :: vs))%eff
  end.

(** [recipes.filter(Boolean)] *)
Definition filterBoolean (l : list Maybe) : list Value :=
  flat_map (fun v => match v with
                     | Some v => if truthyV v then [v] else []
                     | None => []
                     end) l.

Definition myRecipesRoute (env : Env) (req : Request) : Handled :=
  handle
    (match authenticate env req with
     | inr r => ret r
     | inl userId =>
         stored <- kv_get env ("user_recipes:" ++ userId) ;;
         recipeIds <- arrayOrEmpty stored ;;
         recipes <- getAll env recipeIds ;;
         ret (jsonResponse (RecipesBody (filterBoolean recipes)) 200)
     end)%eff
    "Get user recipes error:" "Internal server error fetching user recipes".

(** ** POST /forum/posts *)

Definition newPost (env : Env) (userId : string) (post : Value) : Value :=
  object [Field "id" (VStr (Server.randomUUID (server env)));
          Spread post;
          Field "author_id" (VStr userId);
          Field "created_at" (VStr (toISOString env 0));
          Field "replies" (VArr [])].

Definition createPostRoute (env : Env) (req : Request) : Handled :=
  handle
    (match authenticate env req with
     | inr r => ret r
     | inl userId =>
         post <- req_json req ;;
         let postId := Server.randomUUID (server env) in
         let newPost := newPost env userId post in
         kv_set env ("forum_post:" ++ postId) newPost ;;
         ret (jsonResponse (PostBody newPost) 200)
     end)%eff
    "Create forum post error:" "Internal server error creating forum post".

(** ** POST /resources *)

Definition newResource (env : Env) (userId : string) (resource : Value) : Value :=
  object [Field "id" (VStr (Server.randomUUID (server env)));
          Spread resource;
          Field "author_id" (VStr userId);
          Field "created_at" (VStr (toISOString env 0))].

(** [!userProfile || (userProfile.role !== "instructor" &&
    userProfile.role !== "admin")] *)
Definition mayNotTeach (userProfile : Maybe) : bool :=
  match userProfile with
  | None => true
  | Some p =>
      negb (truthyV p)
      || (negb (is_string (field p "role") "instructor")
          && negb (is_string (field p "role") "admin"))
  end.

Definition createResourceRoute (env : Env) (req : Request) : Handled :=
  handle
    (match authenticate env req with
     | inr r => ret r
     | inl userId =>
         userProfile <- kv_get env ("user:" ++ userId) ;;
         if mayNotTeach userProfile then
           ret (jsonResponse
                  (ErrorBody "Only instructors and admins can create resources") 403)
         else
           resource <- req_json req ;;
           let resourceId := Server.randomUUID (server env) in
           let newResource := newResource env userId resource in
           kv_set env ("resource:" ++ resourceId) newResource ;;
           ret (jsonResponse (ResourceBody newResource) 200)
     end)%eff
    "Create resource error:" "Internal server error creating resource".

(** ** GET /admin/users *)

(** [!userProfile || userProfile.role !== "admin"] *)
Definition notAdmin (userProfile : Maybe) : bool :=
  match userProfile with
  | None => true
  | Some p => negb (truthyV p) || negb (is_string (field p "role") "admin")
  end.

Definition adminUsersRoute (env : Env) (req : Request) : Handled :=
  handle
    (match authenticate env req with
     | inr r => ret r
     | inl userId =>
         userProfile <- kv_get env ("user:" ++ userId) ;;
         if notAdmin userProfile then
           ret (jsonResponse (ErrorBody "Admin access required") 403)
         else
           users <- kv_getByPrefix env "user:" ;;
           ret (jsonResponse (UsersBody users) 200)
     end)%eff
    "Get users error:" "Internal server error fetching users".

(** ** POST /get-signed-url *)

Definition getSignedUrlRoute (env : Env) (req : Request) : Handled :=
  handle
    (match authenticate env req with
     | inr r => ret r
     | inl userId =>
         b <- req_json req ;;
         match b with
         | VNull => throw (mkError "Cannot destructure property of null")
         | _ =>
             match field b "fileName", field b "bucket" with
             | Some fileName, Some bucket =>
                 if negb (truthyV fileName) || negb (truthyV bucket) then
                   ret (jsonResponse (ErrorBody "fileName and bucket are required") 400)
                 else
                   emit (CreateSignedUrl bucket fileName (24 * 3600)) ;;
                   match createSignedUrl env bucket fileName (24 * 3600) with
                   | SignFails => throw (mkError "createSignedUrl")
                   | SignError =>
                       emit (ConsoleLog "Signed URL error:") ;;
                       ret (jsonResponse (ErrorBody "Failed to create access URL") 500)
                   | SignedUrl url => ret (jsonResponse (UrlBody url) 200)
                   end
             | _, _ => ret (jsonResponse (ErrorBody "fileName and bucket are required") 400)
             end
         end
     end)%eff
    "Get signed URL error:" "Internal server error getting signed URL".

(** The writes to the key-value store, in order. *)
Definition kvSets (t : list Effect) : list (string * Value) :=
  flat_map (fun e => match e with KvSet k v => [(k, v)] | _ => [] end) t.

End Api.

(* ================================================================== *)
(** * EnhancedImageUpload: what the success view says of the ratio *)
(* ================================================================== *)

Module View.
Import JS Eff Portfolio.
Open Scope string_scope.

(** [x.toFixed(0)]: the whole number nearest to the exact value of
    [|x|], the larger one on a tie, after the sign of [x] (for
    [|x| < 10^21]). *)
Definition toFixed0 (x : Q) : string :=
  let n := Z.to_N (Qfloor (Qabs x + (1 # 2))%Q) in
  let sign := if Qle_bool 0 x then EmptyString else "-" in
  sign ++ showN n.

(** The line under "Upload successful!" that [renderContent] puts out in
    the case ['success']:
    [uploadState.metadata && uploadState.metadata.compressionRatio > 0 &&
     <span>Optimized by {compressionRatio.toFixed(0)}%</span>]. *)
Definition optimizedLine (st : UploadState) : option string :=
  match status st with
  | success =>
      match metadata st with
      | Some m =>
          if gt (compressionRatio m) 0
          then Some ("Optimized by " ++ toFixed0 (compressionRatio m) ++ "%")
          else None
      | None => None
      end
  | _ => None
  end.

End View.

(* ================================================================== *)
(** * EnhancedImageUpload: the event handlers *)
(* ================================================================== *)

(** The component function runs anew at every render; each run has its
    own [disabled], props and [session], and builds its own [uploadFile]
    over them.  [useCallback(f, deps)] hands back the function of the
    latest render at which [deps] changed: with [[]] that of the first
    render, for as long as the component is mounted. *)
Module Handlers.
Import JS Eff Portfolio.
Open Scope string_scope.

(** What one render has in scope. *)
Record Render := mkRender {
  props : Props;
  disabled : bool;
  session : option string            (* [session?.user?.id] of this render's [useAuth()] *)
}.

(** The surroundings of an [uploadFile] built at the render [r] and
    called when the browser answers as [browser] does. *)
Definition envOf (r : Render) (browser : Env) : Env :=
  {| session_user_id := session r;
     now := now browser;
     random36 := random36 browser;
     loadImage := loadImage browser;
     getContext2d := getContext2d browser;
     toBlob := toBlob browser;
     storageUpload := storageUpload browser;
     getPublicUrl := getPublicUrl browser |}.

(** [handleFileSelect = useCallback(..., [])]: the function of the
    render [mounted], which calls the [uploadFile] of that render. *)
Definition handleFileSelect (mounted : Render) (browser : Env)
    (files : option (list File)) (w : World) : Selected :=
  Portfolio.handleFileSelect (props mounted) (envOf mounted browser) files w.

Inductive Ui :=
| PreventDefault
| SetIsDragOver (b : bool)
| ClickFileInput                     (* [fileInputRef.current.click()] *)
| ClearFileInput.                    (* [fileInputRef.current.value = ''] *)

Record Handled := mkHandled {
  ui : list Ui;
  selected : option Selected         (* the call of [handleFileSelect], if one was made *)
}.

(** [handleDrop = useCallback(..., [disabled, handleFileSelect])]: its
    [disabled] is that of the render [current]. *)
Definition handleDrop (mounted current : Render) (browser : Env)
    (files : option (list File)) (w : World) : Handled :=
  if disabled current then
    {| ui := [PreventDefault; SetIsDragOver false]; selected := None |}
  else
    {| ui := [PreventDefault; SetIsDragOver false];
       selected := Some (handleFileSelect mounted browser files w) |}.

(** [onChange={(e) => handleFileSelect(e.target.files)}] *)
Definition onChange (mounted : Render) (browser : Env)
    (files : option (list File)) (w : World) : Handled :=
  {| ui := []; selected := Some (handleFileSelect mounted browser files w) |}.

Definition handleDragOver (current : Render) : list Ui :=
  PreventDefault :: (if negb (disabled current) then [SetIsDragOver true] else []).

Definition handleDragLeave : list Ui := [PreventDefault; SetIsDragOver false].

Definition handleClick (current : Render) (state : UploadState) (inputMounted : bool)
    : list Ui :=
  if disabled current
     || match status state with uploading => true | _ => false end
  then []
  else if inputMounted then [ClickFileInput] else [].

Definition handleReset (inputMounted : bool) (w : World) : World * list Ui :=
  ({| uploadState := idleState;
      trace := (trace w ++ [SetUploadState idleState])%list |},
   if inputMounted then [ClearFileInput] else []).

End Handlers.

(* ================================================================== *)
(** * DigitalPortfolio: the statistics and the export file name *)
(* ================================================================== *)

Module Page.
Import JS.
Open Scope string_scope.

(** [a-z], [A-Z] or [0-9]. *)
Definition isAlnum (c : ascii) : bool :=
  let n := nat_of_ascii c in
  ((48 <=? n) && (n <=? 57))%nat || ((65 <=? n) && (n <=? 90))%nat
  || ((97 <=? n) && (n <=? 122))%nat.

(** [s.replace(/[^a-z0-9]/gi, "_")]: every code unit that is no ASCII
    letter or digit becomes an underscore. *)
Fixpoint replaceNonAlnum (s : string) : string :=
  match s with
  | EmptyString => EmptyString
  | String c r => String (if isAlnum c then c else "_"%char) (replaceNonAlnum r)
  end.

(** The lower case of a code unit below 256: [A-Z], and the capital
    letters of Latin-1 ([U+00C0] to [U+00DE] without the multiplication
    sign [U+00D7]), move up by 32. *)
Definition lowerChar (c : ascii) : ascii :=
  let n := nat_of_ascii c in
  if ((65 <=? n) && (n <=? 90))%nat
     || ((192 <=? n) && (n <=? 222) && negb (n =? 215))%nat
  then ascii_of_nat (n + 32)
  else c.

(** [s.toLowerCase()] *)
Fixpoint toLowerCase (s : string) : string :=
  match s with
  | EmptyString => EmptyString
  | String c r => String (lowerChar c) (toLowerCase r)
  end.

(** [exportFileDefaultName] of [exportPortfolio] *)
Definition exportFileDefaultName (title : string) : string :=
  toLowerCase (replaceNonAlnum title) ++ "_portfolio.json".

(** [a-z], [0-9] or [_]. *)
Definition isNameChar (c : ascii) : bool :=
  let n := nat_of_ascii c in
  ((48 <=? n) && (n <=? 57))%nat || ((97 <=? n) && (n <=? 122))%nat || (n =? 95)%nat.

(** [Math.round(x)]: the integer nearest to [x], the larger one on a tie. *)
Definition Math_round (x : Q) : Q := inject_Z (Qfloor (x + (1 # 2))%Q).

(** [skills.reduce((acc, skill) => acc + skill.level, 0)], for levels
    that are whole numbers. *)
Definition sumLevels (levels : list N) : Q :=
  fold_left (fun acc level => round64 (acc + ofN level)%Q) levels 0%Q.

(** The sum of the levels as a whole number. *)
Definition total (levels : list N) : N := fold_right N.add 0%N levels.

(** [avgSkillLevel] of [portfolioStats] *)
Definition avgSkillLevel (levels : list N) : Q :=
  if gt (ofN (N.of_nat (List.length levels))) 0%Q
  then Math_round (div (sumLevels levels) (ofN (N.of_nat (List.length levels))))
  else 0%Q.

End Page.

(* ================================================================== *)
(** * Sample inputs *)
(* ================================================================== *)

Module Samples.
Import JS Eff.
Open Scope string_scope.

Definition MB : N := 1024 * 1024.

(** A 2 MB JPEG named [photo.png], 4000 x 3000 pixels. *)
Definition photo : File := {| name := "photo.png"; type := "image/jpeg"; size := 2 * MB |}.

(** An 11 MB PNG. *)
Definition bigPng : File := {| name := "big.png"; type := "image/png"; size := 11 * MB |}.

(** An 11 MB PDF. *)
Definition bigPdf : File := {| name := "scan.pdf"; type := "application/pdf"; size := 11 * MB |}.

(** A signed-in browser whose encoder shrinks every image to 500000
    bytes and whose store accepts every object. *)
Definition browser : Portfolio.Env :=
  {| Portfolio.session_user_id := Some "u1";
     Portfolio.now := 1700000000000;
     Portfolio.random36 := "0.k3j9x2ab";
     Portfolio.loadImage := fun _ => Some (4000, 3000)%N;
     Portfolio.getContext2d := true;
     Portfolio.toBlob := fun _ _ _ _ _ => Some 500000%N;
     Portfolio.storageUpload := fun _ p _ => UploadData p;
     Portfolio.getPublicUrl := fun b p => "https://store/" ++ b ++ "/" ++ p |}.

(** The properties the recipe form passes to the component. *)
Definition recipeProps : Portfolio.Props :=
  {| Portfolio.bucket := "recipe-images"; Portfolio.path := "recipes";
     Portfolio.maxSize := Portfolio.MAX_FILE_SIZE_MB; Portfolio.hasOnError := false |}.

(** The same browser without a session. *)
Definition signedOut : Portfolio.Env :=
  {| Portfolio.session_user_id := None;
     Portfolio.now := Portfolio.now browser;
     Portfolio.random36 := Portfolio.random36 browser;
     Portfolio.loadImage := Portfolio.loadImage browser;
     Portfolio.getContext2d := true;
     Portfolio.toBlob := Portfolio.toBlob browser;
     Portfolio.storageUpload := Portfolio.storageUpload browser;
     Portfolio.getPublicUrl := Portfolio.getPublicUrl browser |}.

Definition photoCompressed : File :=
  {| name := "photo.png"; type := "image/jpeg"; size := 500000 |}.

Definition photoMetadata : Portfolio.ImageMetadata :=
  {| Portfolio.originalSize := 2 * MB;
     Portfolio.compressedSize := 500000;
     Portfolio.dimensions := {| Portfolio.width := 1920; Portfolio.height := 1440 |};
     Portfolio.format := "image/jpeg";
     Portfolio.compressionRatio := 1247775 # 16384 |}.

(** A signed-in user of [RobustImageUpload], 10 MB limit. *)
Definition robustProps : Robust.Props :=
  {| Robust.bucket := "recipes"; Robust.maxSizeMB := 10 |}.

(** The browser of user [u1], by what [Math.random().toString(36)] gives. *)
Definition robustBrowserWith (random : string) : Widget.Env :=
  {| Widget.user := Some "u1";
     Widget.now := 1700000000000;
     Widget.random36 := random;
     Widget.fileInputMounted := true;
     Widget.storageUpload := fun _ p _ => UploadData p;
     Widget.getPublicUrl := fun b p => Some ("https://store/" ++ b ++ "/" ++ p) |}.

Definition robustBrowser : Widget.Env := robustBrowserWith "0.k3j9x2ab".

(** The edge function with one known token, [tok], of user [u1]. *)
Definition server : Server.Env :=
  {| Server.authGetUser :=
       fun t => if String.eqb t "tok" then (Some "u1", None)
                else (None, Some "invalid JWT");
     Server.now := 1700000000000;
     Server.randomUUID := "3f2a9c1e-0b7d-4c55-9e21-7a6d5f4e3b2a";
     Server.storageUpload := fun _ p _ => UploadData p;
     Server.getPublicUrl := fun b p => Some ("https://store/" ++ b ++ "/" ++ p);
     Server.storageRemove := fun _ _ => None |}.

(** A request of [u1] to delete [u2/a.png], with and without a bucket. *)
Definition deleteForeign (bucket : Server.JsonValue) : Server.Request :=
  {| Server.authorization := Some "Bearer tok";
     Server.bucketParam := "";
     Server.formData := Server.FormUnreadable;
     Server.json := Server.JsonFields (Server.JString "u2/a.png") bucket |}.

(** An upload request without an [Authorization] header. *)
Definition anonymousUpload : Server.Request :=
  {| Server.authorization := None;
     Server.bucketParam := "recipes";
     Server.formData := Server.Form (Some photo);
     Server.json := Server.JsonUnreadable |}.

(** The widgets' browser without a user. *)
Definition widgetSignedOut : Widget.Env :=
  {| Widget.user := None;
     Widget.now := 1700000000000;
     Widget.random36 := "0.k3j9x2ab";
     Widget.fileInputMounted := true;
     Widget.storageUpload := fun _ p _ => UploadData p;
     Widget.getPublicUrl := fun b p => Some ("https://store/" ++ b ++ "/" ++ p) |}.

End Samples.

Module MoreSamples.
Import JS Eff.
Open Scope string_scope.

(** User [u1] uploads the photo to the bucket [recipes]. *)
Definition uploadPhoto : Server.Request :=
  {| Server.authorization := Some "Bearer tok";
     Server.bucketParam := "recipes";
     Server.formData := Server.Form (Some Samples.photo);
     Server.json := Server.JsonUnreadable |}.

(** What the upload route answers to it. *)
Definition photoUploaded : Server.Uploaded :=
  {| Server.up_fileName := "u1/images/1700000000000-3f2a9c1e.png";
     Server.up_url :=
       "https://store/make-cfac176d-recipes/u1/images/1700000000000-3f2a9c1e.png";
     Server.up_bucket := "make-cfac176d-recipes";
     Server.up_fileType := "image";
     Server.up_fileSize := Some (2 * Samples.MB)%N;
     Server.up_mimeType := Some "image/jpeg";
     Server.up_isOptimized := Some false |}.

(** A request of [u1] to delete a stored object. *)
Definition deleteOf (u : Server.Uploaded) : Server.Request :=
  {| Server.authorization := Some "Bearer tok";
     Server.bucketParam := "";
     Server.formData := Server.FormUnreadable;
     Server.json := Server.JsonFields (Server.JString (Server.up_fileName u))
                      (Server.JString (Server.up_bucket u)) |}.

End MoreSamples.

Module ApiSamples.
Import JS Eff Api.
Open Scope string_scope.

(** A key-value store as a list of entries, the first entry of a key
    being its value. *)
Definition Store : Type := list (string * Value).

Fixpoint storeGet (key : string) (s : Store) : KvGot :=
  match s with
  | [] => Missing
  | (k, v) :: rest => if String.eqb key k then Found v else storeGet key rest
  end.

Definition storePrefix (prefix : string) (s : Store) : list Value :=
  flat_map (fun e => if startsWith (fst e) prefix then [snd e] else []) s.

(** The edge function over the store [s], which never fails; the auth
    service knows the token [tok] of user [u1], and creates every user
    asked for as [u2]. *)
Definition over (s : Store) : Env :=
  {| server := Samples.server;
     kvGet := fun k => storeGet k s;
     kvGetByPrefix := fun p => Some (storePrefix p s);
     kvSet := fun _ _ => true;
     toISOString := fun _ => "2023-11-14T22:13:20.000Z";
     createUser := fun email _ _ _ =>
                     CreatedUser {| user_id := "u2"; user_email := toStr email |};
     createSignedUrl := fun bucket path _ =>
                          SignedUrl (Some ("https://store/sign/" ++ toStr bucket ++ "/"
                                           ++ toStr path)) |}.

Definition storeSet (key : string) (v : Value) (s : Store) : Store :=
  (key, v) :: filter (fun e => negb (String.eqb (fst e) key)) s.

(** The store after the writes of a handler. *)
Definition after (t : list Effect) (s : Store) : Store :=
  fold_left (fun s e => storeSet (fst e) (snd e) s) (kvSets t) s.

Definition studentProfile : Value :=
  VObj [("id", VStr "u1"); ("email", VStr "u1@example.org");
        ("name", VStr "Ana"); ("role", VStr "student")].

(** The store with the profile of [u1], a student. *)
Definition oneStudent : Store := [("user:u1", studentProfile)].

(** A request of [u1] with a JSON body. *)
Definition asU1 (b : Value) : Request :=
  {| authorization := Some "Bearer tok"; body := Some b |}.

(** A request without headers. *)
Definition anonymous (b : Value) : Request :=
  {| authorization := None; body := Some b |}.

Definition teacherProfile : Value :=
  VObj [("id", VStr "u1"); ("email", VStr "u1@example.org");
        ("name", VStr "Ana"); ("role", VStr "instructor")].

(** The store with the profile of [u1], an instructor. *)
Definition oneTeacher : Store := [("user:u1", teacherProfile)].

Definition becomeAdmin : Value := VObj [("role", VStr "admin")].

Definition adminSignup : Value :=
  VObj [("email", VStr "eve@example.org"); ("password", VStr "pw");
        ("name", VStr "Eve"); ("role", VStr "admin")].

(** The edge function over [s] for the token of user [u2]. *)
Definition overFor2 (s : Store) : Env :=
  {| server :=
       {| Server.authGetUser :=
            fun t => if String.eqb t "tok2" then (Some "u2", None)
                     else (None, Some "invalid JWT");
          Server.now := Server.now Samples.server;
          Server.randomUUID := Server.randomUUID Samples.server;
          Server.storageUpload := Server.storageUpload Samples.server;
          Server.getPublicUrl := Server.getPublicUrl Samples.server;
          Server.storageRemove := Server.storageRemove Samples.server |};
     kvGet := kvGet (over s);
     kvGetByPrefix := kvGetByPrefix (over s);
     kvSet := kvSet (over s);
     toISOString := toISOString (over s);
     createUser := createUser (over s);
     createSignedUrl := createSignedUrl (over s) |}.

Definition asU2 (b : Value) : Request :=
  {| authorization := Some "Bearer tok2"; body := Some b |}.

Definition soup : Value :=
  VObj [("title", VStr "Soup"); ("author_id", VStr "u9"); ("id", VStr "mine")].

End ApiSamples.

Module PageSamples.
Import JS Eff.
Open Scope string_scope.

(** A signed-in browser whose encoder takes 97152 bytes off the 2 MB
    photo, less than five percent. *)
Definition gentleBrowser : Portfolio.Env :=
  {| Portfolio.session_user_id := Some "u1";
     Portfolio.now := 1700000000000;
     Portfolio.random36 := "0.k3j9x2ab";
     Portfolio.loadImage := fun _ => Some (4000, 3000)%N;
     Portfolio.getContext2d := true;
     Portfolio.toBlob := fun _ _ _ _ _ => Some 2000000%N;
     Portfolio.storageUpload := fun _ p _ => UploadData p;
     Portfolio.getPublicUrl := fun b p => "https://store/" ++ b ++ "/" ++ p |}.

(** The component as first rendered, before the session was restored. *)
Definition mountedSignedOut : Handlers.Render :=
  {| Handlers.props := Samples.recipeProps;
     Handlers.disabled := false;
     Handlers.session := None |}.

(** The same component rendered again for the signed-in user [u1]. *)
Definition renderedSignedIn : Handlers.Render :=
  {| Handlers.props := Samples.recipeProps;
     Handlers.disabled := false;
     Handlers.session := Some "u1" |}.

(** The levels of the four starter skills. *)
Definition starterLevels : list N := [20; 15; 10; 5]%N.

End PageSamples.

(* ================================================================== *)
(** * Facts about binary64 rounding *)
(* ================================================================== *)

Module JSFacts.
Import JS.
Open Scope Q_scope.

Lemma pow2_pos (e : Z) : 0 < pow2 e.
Proof. unfold pow2. apply Qpower_0_lt. reflexivity. Qed.

Lemma pow2_add (a b : Z) : pow2 (a + b) == pow2 a * pow2 b.
Proof. unfold pow2. apply Qpower_plus. discriminate. Qed.

Lemma pow2_Z (a : Z) : (0 <= a)%Z -> pow2 a == inject_Z (2 ^ a).
Proof. intros Ha. unfold pow2. rewrite Zpower_Qpower by assumption. reflexivity. Qed.

Lemma pow2_opp_cancel (e : Z) : pow2 (- e) * pow2 e == 1.
Proof. rewrite <- pow2_add. replace (- e + e)%Z with 0%Z by lia. reflexivity. Qed.

Lemma Q_num_den (x : Q) : inject_Z (Qnum x) == x * inject_Z (Zpos (Qden x)).
Proof.
  destruct x as [n d]. simpl. unfold Qeq, Qmult, inject_Z. simpl.
  rewrite Pos.mul_1_r. ring.
Qed.

Lemma ilog2_spec (x : Q) : 0 < x -> pow2 (ilog2 x) <= x /\ x < pow2 (ilog2 x + 1).
Proof.
  intros Hx.
  assert (Hn : (0 < Qnum x)%Z) by (destruct x as [n d]; unfold Qlt in Hx; simpl in *; lia).
  assert (Hd : (0 < Zpos (Qden x))%Z) by lia.
  pose proof (Z.log2_spec _ Hn) as [Ha1 Ha2].
  pose proof (Z.log2_spec _ Hd) as [Hb1 Hb2].
  pose proof (Z.log2_nonneg (Qnum x)) as Ha0.
  pose proof (Z.log2_nonneg (Zpos (Qden x))) as Hb0.
  pose proof (Q_num_den x) as Hx'.
  unfold ilog2.
  set (a := Z.log2 (Qnum x)) in *. set (b := Z.log2 (Zpos (Qden x))) in *.
  rewrite Zle_Qle in Ha1, Hb1. rewrite Zlt_Qlt in Ha2, Hb2.
  rewrite <- pow2_Z in Ha1, Hb1, Ha2, Hb2 by lia.
  set (n := inject_Z (Qnum x)) in *. set (d := inject_Z (Zpos (Qden x))) in *.
  pose proof (pow2_pos b) as Pb. pose proof (pow2_pos (a - b)) as Pk.
  pose proof (pow2_pos (a - b - 1)) as Pk1.
  destruct (Qle_bool (pow2 (a - b)) x) eqn:E.
  - apply Qle_bool_iff in E. split; [exact E|].
    assert (H1 : pow2 (a - b + 1) * pow2 b == pow2 (Z.succ a)).
    { rewrite <- pow2_add. replace (a - b + 1 + b)%Z with (Z.succ a) by lia. reflexivity. }
    assert (H2 : x * pow2 b < pow2 (a - b + 1) * pow2 b).
    { rewrite H1. apply Qle_lt_trans with (x * d); [|rewrite <- Hx'; exact Ha2].
      apply Qmult_le_l; [exact Hx|exact Hb1]. }
    apply Qmult_lt_r in H2; assumption.
  - assert (E' : x < pow2 (a - b)).
    { apply Qnot_le_lt. intros H. apply Qle_bool_iff in H. congruence. }
    split.
    + assert (H1 : pow2 (a - b - 1) * pow2 (Z.succ b) == pow2 a).
      { rewrite <- pow2_add. replace (a - b - 1 + Z.succ b)%Z with a by lia. reflexivity. }
      assert (H2 : pow2 (a - b - 1) * d < x * d).
      { rewrite <- Hx'. apply Qlt_le_trans with (pow2 a); [|exact Ha1].
        rewrite <- H1. apply Qmult_lt_l; assumption. }
      apply Qlt_le_weak. apply Qmult_lt_r in H2; [exact H2|].
      apply Qlt_le_trans with (pow2 b); assumption.
    + replace (a - b - 1 + 1)%Z with (a - b)%Z by lia. exact E'.
Qed.

Lemma rne_near (y : Q) : - (1 # 2) <= inject_Z (rne y) - y /\ inject_Z (rne y) - y <= 1 # 2.
Proof.
  unfold rne. pose proof (Qfloor_le y) as H1. pose proof (Qlt_floor y) as H2.
  set (f := Qfloor y) in *.
  rewrite inject_Z_plus in *. change (inject_Z 1) with 1 in *.
  destruct (Qcompare_spec (y - inject_Z f) (1 # 2)) as [E|E|E].
  - destruct (Z.even f); rewrite ?inject_Z_plus; change (inject_Z 1) with 1; lra.
  - lra.
  - rewrite inject_Z_plus. change (inject_Z 1) with 1. lra.
Qed.

Lemma rne_Z (y : Q) (z : Z) : y == inject_Z z -> rne y = z.
Proof.
  intros E. unfold rne. rewrite (Qfloor_comp _ _ E), Qfloor_Z.
  destruct (Qcompare_spec (y - inject_Z z) (1 # 2)) as [H|H|H]; try lra. reflexivity.
Qed.


Lemma ilog2_unique (x : Q) (k : Z) : pow2 k <= x -> x < pow2 (k + 1) -> ilog2 x = k.
Proof.
  intros H1 H2.
  assert (Hx : 0 < x) by (apply Qlt_le_trans with (pow2 k); [apply pow2_pos|exact H1]).
  destruct (ilog2_spec x Hx) as [H3 H4].
  assert (A : (ilog2 x < k + 1)%Z).
  { apply Qpower_lt_compat_l_inv with (q := 2); [|reflexivity].
    apply Qle_lt_trans with x; assumption. }
  assert (B : (k < ilog2 x + 1)%Z).
  { apply Qpower_lt_compat_l_inv with (q := 2); [|reflexivity].
    apply Qle_lt_trans with x; assumption. }
  lia.
Qed.

Lemma ilog2_comp (x y : Q) : 0 < x -> x == y -> ilog2 x = ilog2 y.
Proof.
  intros Hx E. symmetry. destruct (ilog2_spec x Hx) as [H1 H2].
  apply ilog2_unique; rewrite <- E; assumption.
Qed.

Lemma rne_comp (x y : Q) : x == y -> rne x = rne y.
Proof.
  intros E. unfold rne. rewrite (Qfloor_comp _ _ E).
  assert (E' : x - inject_Z (Qfloor y) == y - inject_Z (Qfloor y)) by (rewrite E; reflexivity).
  rewrite (Qcompare_comp _ _ E' (1 # 2) (1 # 2) (Qeq_refl _)). reflexivity.
Qed.

Lemma round_pos_comp (x y : Q) : 0 < x -> x == y -> round_pos x = round_pos y.
Proof.
  intros Hx E. unfold round_pos. rewrite (ilog2_comp x y Hx E).
  apply Qred_complete.
  rewrite (rne_comp (x * pow2 (- (ilog2 y - 52))) (y * pow2 (- (ilog2 y - 52)))).
  - reflexivity.
  - rewrite E. reflexivity.
Qed.

Lemma scaled_lower (x : Q) :
  0 < x -> pow2 52 <= x * pow2 (- (ilog2 x - 52)).
Proof.
  intros Hx. destruct (ilog2_spec x Hx) as [H1 _].
  assert (E : pow2 52 == pow2 (ilog2 x) * pow2 (- (ilog2 x - 52))).
  { rewrite <- pow2_add. replace (ilog2 x + - (ilog2 x - 52))%Z with 52%Z by lia. reflexivity. }
  rewrite E. apply Qmult_le_compat_r; [exact H1|]. apply Qlt_le_weak, pow2_pos.
Qed.

Lemma round_pos_value (x : Q) :
  round_pos x == inject_Z (rne (x * pow2 (- (ilog2 x - 52)))) * pow2 (ilog2 x - 52).
Proof. unfold round_pos. apply Qred_correct. Qed.

Lemma round_pos_error (x : Q) :
  0 < x -> (1 - u53) * x <= round_pos x /\ round_pos x <= (1 + u53) * x.
Proof.
  intros Hx. rewrite round_pos_value.
  pose proof (scaled_lower x Hx) as Hy.
  set (e := (ilog2 x - 52)%Z) in *.
  pose proof (pow2_pos e) as Hp. pose proof (pow2_opp_cancel e) as Hqp.
  set (y := x * pow2 (- e)) in *.
  destruct (rne_near y) as [N1 N2]. set (m := inject_Z (rne y)) in *.
  assert (Ex : x == y * pow2 e).
  { unfold y. rewrite <- Qmult_assoc, Hqp. ring. }
  assert (C : pow2 52 == 4503599627370496) by reflexivity. rewrite C in Hy.
  assert (U : (1 # 2) <= u53 * y) by (unfold u53; lra).
  assert (B1 : (y - u53 * y) * pow2 e <= m * pow2 e).
  { apply Qmult_le_compat_r; [lra|apply Qlt_le_weak, Hp]. }
  assert (B2 : m * pow2 e <= (y + u53 * y) * pow2 e).
  { apply Qmult_le_compat_r; [lra|apply Qlt_le_weak, Hp]. }
  rewrite Ex. split.
  - eapply Qle_trans; [|exact B1]. ring_simplify. apply Qle_refl.
  - eapply Qle_trans; [exact B2|]. ring_simplify. apply Qle_refl.
Qed.

Lemma round_pos_exact (x : Q) (m t : Z) :
  (0 < m < 2 ^ 53)%Z -> x == inject_Z m * pow2 t -> round_pos x == x.
Proof.
  intros Hm Ex.
  assert (Hx : 0 < x).
  { rewrite Ex. apply Qmult_lt_0_compat; [|apply pow2_pos].
    change 0 with (inject_Z 0). rewrite <- Zlt_Qlt. lia. }
  rewrite round_pos_value. pose proof (scaled_lower x Hx) as Hy.
  set (e := (ilog2 x - 52)%Z) in *.
  pose proof (pow2_opp_cancel e) as Hqp.
  assert (Ey : x * pow2 (- e) == inject_Z m * pow2 (t - e)).
  { rewrite Ex, <- Qmult_assoc, <- pow2_add. reflexivity. }
  assert (Hte : (0 <= t - e)%Z).
  { destruct (Z_lt_le_dec (t - e) 0) as [Hneg|]; [exfalso|assumption].
    assert (P : pow2 (t - e) <= pow2 (-1)).
    { unfold pow2. apply Qpower_le_compat_l; [lia|discriminate]. }
    assert (M : inject_Z m < inject_Z (2 ^ 53)) by (rewrite <- Zlt_Qlt; lia).
    assert (M0 : 0 < inject_Z m) by (change 0 with (inject_Z 0); rewrite <- Zlt_Qlt; lia).
    rewrite Ey in Hy.
    assert (C : pow2 52 == 4503599627370496) by reflexivity. rewrite C in Hy.
    assert (C2 : pow2 (-1) == 1 # 2) by reflexivity. rewrite C2 in P.
    assert (C3 : inject_Z (2 ^ 53) == 9007199254740992) by reflexivity. rewrite C3 in M.
    pose proof (pow2_pos (t - e)) as Pp.
    assert (inject_Z m * pow2 (t - e) <= inject_Z m * (1 # 2)).
    { apply Qmult_le_l; assumption. }
    lra. }
  rewrite (rne_Z _ (m * 2 ^ (t - e))%Z).
  - rewrite inject_Z_mult, <- pow2_Z by assumption.
    rewrite <- Qmult_assoc, <- pow2_add, Ex.
    replace (t - e + e)%Z with t by lia. reflexivity.
  - rewrite Ey, inject_Z_mult, <- pow2_Z by assumption. reflexivity.
Qed.

Lemma Qnum_sign (x : Q) :
  match Qnum x with Z0 => x == 0 | Zpos _ => 0 < x | Zneg _ => x < 0 end.
Proof. destruct x as [[|p|p] d]; unfold Qeq, Qlt; simpl; lia. Qed.

Lemma round64_comp (x y : Q) : x == y -> round64 x == round64 y.
Proof.
  intros E. unfold round64.
  pose proof (Qnum_sign x) as Sx. pose proof (Qnum_sign y) as Sy.
  destruct (Qnum x), (Qnum y); try lra.
  - rewrite (round_pos_comp x y) by assumption. reflexivity.
  - rewrite (round_pos_comp (- x) (- y)); [reflexivity|lra|rewrite E; reflexivity].
Qed.

#[export] Instance round64_Proper : Proper (Qeq ==> Qeq) round64.
Proof. intros x y E. apply round64_comp, E. Qed.

Lemma round64_error_pos (x : Q) :
  0 <= x -> (1 - u53) * x <= round64 x /\ round64 x <= (1 + u53) * x.
Proof.
  intros Hx. unfold round64. pose proof (Qnum_sign x) as S.
  destruct (Qnum x).
  - rewrite S. split; lra.
  - apply round_pos_error, S.
  - lra.
Qed.

Lemma round64_error_neg (x : Q) :
  x <= 0 -> (1 + u53) * x <= round64 x /\ round64 x <= (1 - u53) * x.
Proof.
  intros Hx. unfold round64. pose proof (Qnum_sign x) as S.
  destruct (Qnum x).
  - rewrite S. split; lra.
  - lra.
  - assert (S' : 0 < - x) by lra.
    destruct (round_pos_error (- x) S') as [H1 H2]. split; lra.
Qed.

Lemma round64_error (x : Q) : Qabs (round64 x - x) <= u53 * Qabs x.
Proof.
  unfold round64. pose proof (Qnum_sign x) as S.
  destruct (Qnum x).
  - rewrite S. apply Qle_lteq. right. reflexivity.
  - destruct (round_pos_error x S) as [H1 H2].
    rewrite (Qabs_pos x) by lra. apply Qabs_Qle_condition. lra.
  - assert (S' : 0 < - x) by lra. destruct (round_pos_error (- x) S') as [H1 H2].
    rewrite (Qabs_neg x) by lra. apply Qabs_Qle_condition. lra.
Qed.

Lemma round64_exact (m t : Z) :
  (Z.abs m < 2 ^ 53)%Z -> round64 (inject_Z m * pow2 t) == inject_Z m * pow2 t.
Proof.
  intros Hm. set (x := inject_Z m * pow2 t).
  unfold round64. pose proof (Qnum_sign x) as S. pose proof (pow2_pos t) as Pp.
  destruct (Qnum x).
  - symmetry. exact S.
  - apply (round_pos_exact x m t); [|reflexivity].
    split; [|lia]. unfold x in S.
    destruct (Z_lt_le_dec 0 m) as [|Hle]; [assumption|exfalso].
    assert (inject_Z m <= 0) by (change 0 with (inject_Z 0); rewrite <- Zle_Qle; lia).
    assert (inject_Z m * pow2 t <= 0 * pow2 t) by (apply Qmult_le_compat_r; lra).
    lra.
  - assert (E : - x == inject_Z (- m) * pow2 t) by (unfold x; rewrite inject_Z_opp; ring).
    rewrite (round_pos_exact (- x) (- m)%Z t); [ring| |exact E].
    split; [|lia]. unfold x in S.
    destruct (Z_lt_le_dec m 0) as [|Hle]; [lia|exfalso].
    assert (0 <= inject_Z m) by (change 0 with (inject_Z 0); rewrite <- Zle_Qle; lia).
    assert (0 * pow2 t <= inject_Z m * pow2 t) by (apply Qmult_le_compat_r; lra).
    lra.
Qed.

Lemma round64_Z (m : Z) : (Z.abs m < 2 ^ 53)%Z -> round64 (inject_Z m) == inject_Z m.
Proof.
  intros Hm. pose proof (round64_exact m 0 Hm) as H.
  assert (E : inject_Z m * pow2 0 == inject_Z m) by (change (pow2 0) with 1; ring).
  rewrite E in H. exact H.
Qed.

(** [round64] computes what IEEE-754 binary64 arithmetic computes: on
    the scaling [w * (1920 / w)] for the widths 1921 to 2420, and on the
    percentage of some pairs of sizes. *)
Example round64_scale_agrees_with_SpecFloat :
  forallb (fun w => Qeq_bool (SF2Q (SF_scale w))
                      (mul (inject_Z w) (div 1920 (inject_Z w))))
          (map (fun n => Z.of_nat n + 1921)%Z (seq 0 500)) = true.
Proof. vm_compute. reflexivity. Qed.

Example round64_percent_agrees_with_SpecFloat :
  forallb (fun oc => Qeq_bool (SF2Q (SF_percent (fst oc) (snd oc)))
                       (mul (div (sub (inject_Z (fst oc)) (inject_Z (snd oc)))
                               (inject_Z (fst oc))) 100))
          [(2097152, 500000); (3, 1); (7, 9); (1000001, 333333); (10, 9);
           (123456789, 98765432)]%Z = true.
Proof. vm_compute. reflexivity. Qed.

End JSFacts.

(* ================================================================== *)
(** * compressImage: the dimension cap *)
(* ================================================================== *)

Module CompressFacts.
Import JS Eff Portfolio JSFacts.
Open Scope Q_scope.

Lemma gt_true (x y : Q) : gt x y = true <-> y < x.
Proof.
  unfold gt. rewrite negb_true_iff. split; intros H.
  - apply Qnot_le_lt. intros L. apply Qle_bool_iff in L. congruence.
  - destruct (Qle_bool x y) eqn:E; [|reflexivity].
    apply Qle_bool_iff in E. lra.
Qed.

Lemma gt_false (x y : Q) : gt x y = false <-> x <= y.
Proof.
  unfold gt. rewrite negb_false_iff. apply Qle_bool_iff.
Qed.

Lemma min_lower (x y b : Q) : b <= x -> b <= y -> b <= min x y.
Proof. intros. unfold min. destruct (Qle_bool x y); assumption. Qed.

Lemma min_le_l (x y : Q) : min x y <= x.
Proof.
  unfold min. destruct (Qle_bool x y) eqn:E; [apply Qle_refl|].
  apply Qlt_le_weak, gt_true. unfold gt. rewrite E. reflexivity.
Qed.

Lemma min_le_r (x y : Q) : min x y <= y.
Proof.
  unfold min. destruct (Qle_bool x y) eqn:E; [|apply Qle_refl].
  apply Qle_bool_iff, E.
Qed.

Lemma ofN_pos (n : N) : (0 < n)%N -> 0 < ofN n.
Proof. intros H. unfold ofN. change 0 with (inject_Z 0). rewrite <- Zlt_Qlt. lia. Qed.

Lemma ofN_le (n m : N) : (n <= m)%N <-> ofN n <= ofN m.
Proof. unfold ofN. rewrite <- Zle_Qle. lia. Qed.

Lemma ofN_lt (n m : N) : (n < m)%N <-> ofN n < ofN m.
Proof. unfold ofN. rewrite <- Zlt_Qlt. lia. Qed.

Lemma toUnsignedLong_floor (x : Q) :
  0 <= x -> x < 4294967296 -> toUnsignedLong x = Qfloor x.
Proof.
  intros H0 H1. unfold toUnsignedLong.
  assert (Hn : (0 <= Qnum x)%Z) by (destruct x as [n d]; unfold Qle in H0; simpl in *; lia).
  rewrite Z.quot_div_nonneg by lia.
  assert (E : (Qnum x / Z.pos (Qden x))%Z = Qfloor x) by (destruct x; reflexivity).
  rewrite E. apply Z.mod_small. split.
  - change 0%Z with (Qfloor 0). apply Qfloor_resp_le, H0.
  - pose proof (Qfloor_le x) as Hf.
    assert (inject_Z (Qfloor x) < inject_Z (2 ^ 32)).
    { apply Qle_lt_trans with x; [exact Hf|exact H1]. }
    rewrite <- Zlt_Qlt in H. exact H.
Qed.

Lemma floor_between (x : Q) (a b : Z) :
  inject_Z a <= x -> x < inject_Z (b + 1) -> (a <= Qfloor x <= b)%Z.
Proof.
  intros Ha Hb. split.
  - rewrite <- (Qfloor_Z a). apply Qfloor_resp_le, Ha.
  - pose proof (Qfloor_le x) as Hf.
    assert (inject_Z (Qfloor x) < inject_Z (b + 1)) by (eapply Qle_lt_trans; eassumption).
    rewrite <- Zlt_Qlt in H. lia.
Qed.

(** The common factor applied to both dimensions is the exact factor
    [1920 / max(w, h)] up to one rounding. *)
Lemma ratio_bounds (W H Mx : Q) :
  0 < W -> 0 < H -> W <= Mx -> H <= Mx -> (Mx == W \/ Mx == H) ->
  let ratio := min (div maxDimension W) (div maxDimension H) in
  (1 - u53) * (maxDimension / Mx) <= ratio /\ ratio <= (1 + u53) * (maxDimension / Mx).
Proof.
  intros HW HH LW LH HM ratio.
  assert (HMx : 0 < Mx) by lra.
  assert (sW : maxDimension / Mx <= maxDimension / W).
  { unfold maxDimension. apply Qle_shift_div_l; [exact HW|].
    assert (E : 1920 / Mx * W == 1920 * (W / Mx)) by (field; lra).
    rewrite E. assert (W / Mx <= 1) by (apply Qle_shift_div_r; lra). lra. }
  assert (sH : maxDimension / Mx <= maxDimension / H).
  { unfold maxDimension. apply Qle_shift_div_l; [exact HH|].
    assert (E : 1920 / Mx * H == 1920 * (H / Mx)) by (field; lra).
    rewrite E. assert (H / Mx <= 1) by (apply Qle_shift_div_r; lra). lra. }
  assert (s0 : 0 < maxDimension / Mx).
  { unfold maxDimension. apply Qlt_shift_div_l; lra. }
  assert (pW : 0 <= maxDimension / W) by lra.
  assert (pH : 0 <= maxDimension / H) by lra.
  destruct (round64_error_pos _ pW) as [W1 W2].
  destruct (round64_error_pos _ pH) as [H1 H2].
  fold (div maxDimension W) in W1, W2. fold (div maxDimension H) in H1, H2.
  unfold u53 in *. split.
  - apply min_lower; lra.
  - destruct HM as [E|E].
    + apply Qle_trans with (div maxDimension W); [apply min_le_l|].
      rewrite E. exact W2.
    + apply Qle_trans with (div maxDimension H); [apply min_le_r|].
      rewrite E. exact H2.
Qed.

(** A dimension multiplied by the common factor stays within [2^-40] of
    its exact proportional value. *)
Lemma scaled_close (X Mx ratio : Q) :
  0 < X -> X <= Mx ->
  (1 - u53) * (maxDimension / Mx) <= ratio -> ratio <= (1 + u53) * (maxDimension / Mx) ->
  Qabs (mul X ratio - X * (maxDimension / Mx)) <= 1 # 1099511627776.
Proof.
  intros HX LX R1 R2.
  assert (HMx : 0 < Mx) by lra.
  set (s := maxDimension / Mx) in *.
  assert (s0 : 0 < s) by (unfold s, maxDimension; apply Qlt_shift_div_l; lra).
  assert (A : X * s <= 1920).
  { unfold s, maxDimension.
    assert (E : X * (1920 / Mx) == 1920 * (X / Mx)) by (field; lra).
    rewrite E. assert (X / Mx <= 1) by (apply Qle_shift_div_r; lra). lra. }
  assert (A0 : 0 < X * s) by (apply Qmult_lt_0_compat; assumption).
  assert (T1 : X * ((1 - u53) * s) <= X * ratio) by (apply Qmult_le_l; assumption).
  assert (T2 : X * ratio <= X * ((1 + u53) * s)) by (apply Qmult_le_l; assumption).
  assert (E1 : X * ((1 - u53) * s) == (1 - u53) * (X * s)) by ring.
  assert (E2 : X * ((1 + u53) * s) == (1 + u53) * (X * s)) by ring.
  rewrite E1 in T1. rewrite E2 in T2.
  assert (T0 : 0 <= X * ratio) by (unfold u53 in *; lra).
  destruct (round64_error_pos _ T0) as [V1 V2].
  fold (mul X ratio) in V1, V2.
  apply Qabs_Qle_condition. unfold u53 in *. split; lra.
Qed.


Lemma canvas_of_close (x a : Q) (lo hi : Z) :
  Qabs (x - a) <= 1 # 1099511627776 ->
  inject_Z lo + (1 # 1099511627776) <= a -> a <= inject_Z hi -> (0 <= lo)%Z -> (hi <= 1920)%Z ->
  (lo <= toUnsignedLong x <= hi)%Z.
Proof.
  intros C L Hh Hlo Hhi. apply Qabs_Qle_condition in C. destruct C as [C1 C2].
  assert (I0 : 0 <= inject_Z lo) by (change 0 with (inject_Z 0); rewrite <- Zle_Qle; lia).
  assert (I1 : inject_Z hi <= 1920) by (change 1920 with (inject_Z 1920); rewrite <- Zle_Qle; lia).
  rewrite toUnsignedLong_floor by lra.
  apply floor_between; [lra|]. rewrite inject_Z_plus. change (inject_Z 1) with 1. lra.
Qed.

Lemma canvas_exact (n : N) : (n <= 1920)%N -> toUnsignedLong (ofN n) = Z.of_N n.
Proof.
  intros H. unfold ofN.
  assert (A : 0 <= inject_Z (Z.of_N n)) by (change 0 with (inject_Z 0); rewrite <- Zle_Qle; lia).
  assert (B : inject_Z (Z.of_N n) <= 1920)
    by (change 1920 with (inject_Z 1920); rewrite <- Zle_Qle; lia).
  rewrite toUnsignedLong_floor by lra. apply Qfloor_Z.
Qed.

Lemma optimalDimensions_unscaled (w h : N) :
  (w <= 1920)%N -> (h <= 1920)%N ->
  optimalDimensions w h = {| width := ofN w; height := ofN h |}.
Proof.
  intros Hw Hh. unfold optimalDimensions.
  assert (A : gt (ofN w) maxDimension = false).
  { apply gt_false. change maxDimension with (ofN 1920). apply ofN_le, Hw. }
  assert (B : gt (ofN h) maxDimension = false).
  { apply gt_false. change maxDimension with (ofN 1920). apply ofN_le, Hh. }
  rewrite A, B. reflexivity.
Qed.

Lemma optimalDimensions_scaled (w h : N) :
  (1920 < w)%N \/ (1920 < h)%N ->
  optimalDimensions w h =
  let ratio := min (div maxDimension (ofN w)) (div maxDimension (ofN h)) in
  {| width := mul (ofN w) ratio; height := mul (ofN h) ratio |}.
Proof.
  intros Hs. unfold optimalDimensions.
  assert (A : gt (ofN w) maxDimension || gt (ofN h) maxDimension = true).
  { apply orb_true_iff. destruct Hs as [Hs|Hs]; [left|right];
      apply gt_true; change maxDimension with (ofN 1920); apply ofN_lt, Hs. }
  rewrite A. reflexivity.
Qed.

Lemma compressImage_dimensions (env : Env) (file : File) (w0 w1 : World)
    (cf : File) (m : ImageMetadata) :
  compressImage env file w0 = (Normal (cf, m), w1) ->
  exists w h, loadImage env file = Some (w, h) /\ dimensions m = optimalDimensions w h.
Proof.
  unfold compressImage, bind, emit, throw, ret. 
  destruct (loadImage env file) as [[w h]|]; [|discriminate].
  destruct (getContext2d env); simpl; [|discriminate].
  destruct (toBlob env file _ _ _ _); [|discriminate].
  intros E. inversion E; subst. exists w, h. split; reflexivity.
Qed.

Lemma mul_nonneg (x y : Q) : 0 <= x -> 0 <= y -> 0 <= mul x y.
Proof.
  intros Hx Hy. assert (P : 0 <= x * y) by (apply Qmult_le_0_compat; assumption).
  destruct (round64_error_pos _ P) as [L _]. fold (mul x y) in L.
  unfold u53 in L. lra.
Qed.

End CompressFacts.

Section DimensionCap.
Import JS Eff Portfolio JSFacts CompressFacts.
Open Scope Q_scope.

(** The three facts about [optimalDimensions] behind the cap. *)
Lemma optimalDimensions_cap (w h : N) :
  (0 < w)%N -> (0 < h)%N ->
  let d := optimalDimensions w h in
  let s := maxDimension / ofN (N.max w h) in
  ((1920 < w)%N \/ (1920 < h)%N ->
     Qabs (width d - ofN w * s) <= 1 # 1099511627776 /\
     Qabs (height d - ofN h * s) <= 1 # 1099511627776 /\
     (1919 <= Z.max (canvasWidth d) (canvasHeight d) <= 1920)%Z) /\
  ((w <= 1920)%N /\ (h <= 1920)%N ->
     canvasWidth d = Z.of_N w /\ canvasHeight d = Z.of_N h) /\
  (canvasWidth d <= 1920)%Z /\ (canvasHeight d <= 1920)%Z.
Proof.
  intros Hw Hh d s.
  assert (Scaled : (1920 < w)%N \/ (1920 < h)%N ->
     Qabs (width d - ofN w * s) <= 1 # 1099511627776 /\
     Qabs (height d - ofN h * s) <= 1 # 1099511627776 /\
     (1919 <= Z.max (canvasWidth d) (canvasHeight d) <= 1920)%Z /\
     (canvasWidth d <= 1920)%Z /\ (canvasHeight d <= 1920)%Z).
  { intros Hs. unfold d, canvasWidth, canvasHeight.
    rewrite (optimalDimensions_scaled w h Hs). cbv zeta. simpl width. simpl height.
    pose proof (ofN_pos w Hw) as PW. pose proof (ofN_pos h Hh) as PH.
    assert (LW : ofN w <= ofN (N.max w h)) by (apply ofN_le; lia).
    assert (LH : ofN h <= ofN (N.max w h)) by (apply ofN_le; lia).
    assert (HM : ofN (N.max w h) == ofN w \/ ofN (N.max w h) == ofN h).
    { destruct (N.max_spec w h) as [[_ E]|[_ E]]; rewrite E; [right|left]; reflexivity. }
    destruct (ratio_bounds _ _ _ PW PH LW LH HM) as [R1 R2].
    set (ratio := min (div maxDimension (ofN w)) (div maxDimension (ofN h))) in *.
    pose proof (scaled_close _ _ _ PW LW R1 R2) as CW.
    pose proof (scaled_close _ _ _ PH LH R1 R2) as CH.
    fold s in CW, CH.
    assert (PM : 0 < ofN (N.max w h)) by lra.
    assert (Big : 1920 < ofN (N.max w h)).
    { change 1920 with (ofN 1920). apply ofN_lt. lia. }
    assert (S0 : 0 < s) by (unfold s, maxDimension; apply Qlt_shift_div_l; lra).
    assert (S1 : s < 1) by (unfold s, maxDimension; apply Qlt_shift_div_r; lra).
    assert (AW : ofN w * s <= 1920).
    { unfold s, maxDimension.
      assert (E : ofN w * (1920 / ofN (N.max w h)) == 1920 * (ofN w / ofN (N.max w h)))
        by (field; lra).
      rewrite E. assert (ofN w / ofN (N.max w h) <= 1) by (apply Qle_shift_div_r; lra). lra. }
    assert (AH : ofN h * s <= 1920).
    { unfold s, maxDimension.
      assert (E : ofN h * (1920 / ofN (N.max w h)) == 1920 * (ofN h / ofN (N.max w h)))
        by (field; lra).
      rewrite E. assert (ofN h / ofN (N.max w h) <= 1) by (apply Qle_shift_div_r; lra). lra. }
    assert (BW : 0 < ofN w * s) by (apply Qmult_lt_0_compat; assumption).
    assert (BH : 0 < ofN h * s) by (apply Qmult_lt_0_compat; assumption).
    assert (R0 : 0 <= ratio).
    { fold s in R1. unfold u53 in R1. lra. }
    assert (NW : 0 <= mul (ofN w) ratio) by (apply mul_nonneg; lra).
    assert (NH : 0 <= mul (ofN h) ratio) by (apply mul_nonneg; lra).
    assert (GW : (0 <= toUnsignedLong (mul (ofN w) ratio) <= 1920)%Z).
    { apply Qabs_Qle_condition in CW. destruct CW as [C1 C2].
      rewrite toUnsignedLong_floor by lra. apply floor_between; unfold inject_Z; simpl; lra. }
    assert (GH : (0 <= toUnsignedLong (mul (ofN h) ratio) <= 1920)%Z).
    { apply Qabs_Qle_condition in CH. destruct CH as [C1 C2].
      rewrite toUnsignedLong_floor by lra. apply floor_between; unfold inject_Z; simpl; lra. }
    split; [exact CW|]. split; [exact CH|]. split; [|lia].
    destruct HM as [E|E].
    - assert (X : ofN w * s == 1920) by (unfold s, maxDimension; rewrite E; field; lra).
      assert (1919 <= toUnsignedLong (mul (ofN w) ratio))%Z.
      { apply Qabs_Qle_condition in CW. destruct CW as [C1 C2].
        rewrite toUnsignedLong_floor by lra.
        apply (floor_between _ 1919 1920); unfold inject_Z; simpl; lra. }
      lia.
    - assert (X : ofN h * s == 1920) by (unfold s, maxDimension; rewrite E; field; lra).
      assert (1919 <= toUnsignedLong (mul (ofN h) ratio))%Z.
      { apply Qabs_Qle_condition in CH. destruct CH as [C1 C2].
        rewrite toUnsignedLong_floor by lra.
        apply (floor_between _ 1919 1920); unfold inject_Z; simpl; lra. }
      lia. }
  assert (Unscaled : (w <= 1920)%N /\ (h <= 1920)%N ->
     canvasWidth d = Z.of_N w /\ canvasHeight d = Z.of_N h).
  { intros [Lw Lh]. unfold d, canvasWidth, canvasHeight.
    rewrite (optimalDimensions_unscaled w h Lw Lh). simpl.
    split; apply canvas_exact; assumption. }
  split; [intros Hs; destruct (Scaled Hs) as (A & B & C & _); auto|].
  split; [exact Unscaled|].
  destruct (N.le_gt_cases w 1920) as [Lw|Gw]; [destruct (N.le_gt_cases h 1920) as [Lh|Gh]|].
  - destruct (Unscaled (conj Lw Lh)) as [E1 E2]. rewrite E1, E2. lia.
  - destruct (Scaled (or_intror Gh)) as (_ & _ & _ & A & B). auto.
  - destruct (Scaled (or_introl Gw)) as (_ & _ & _ & A & B). auto.
Qed.

End DimensionCap.

(* ================================================================== *)
(** * Facts about strings *)
(* ================================================================== *)

Module StringFacts.
Import JS.
Open Scope string_scope.

Lemma append_assoc (a b c : string) : (a ++ b) ++ c = a ++ (b ++ c).
Proof. induction a as [|x a IH]; simpl; [reflexivity|rewrite IH; reflexivity]. Qed.

Lemma append_inv_head (p a b : string) : p ++ a = p ++ b -> a = b.
Proof. induction p as [|x p IH]; simpl; intros E; [exact E|]. inversion E. auto. Qed.

Lemma prefix_append (sub rest : string) : String.prefix sub (sub ++ rest) = true.
Proof.
  induction sub as [|x sub IH]; simpl.
  - destruct rest; reflexivity.
  - destruct (ascii_dec x x); [exact IH|congruence].
Qed.

Lemma str_includes_unfold (s sub : string) :
  str_includes s sub =
  String.prefix sub s || match s with
                         | EmptyString => false
                         | String _ r => str_includes r sub
                         end.
Proof. destruct s; reflexivity. Qed.

Lemma str_includes_here (sub rest : string) : str_includes (sub ++ rest) sub = true.
Proof. rewrite str_includes_unfold, prefix_append. reflexivity. Qed.

(** A string includes each piece it is assembled from. *)
Lemma str_includes_middle (pre sub post : string) :
  str_includes (pre ++ sub ++ post) sub = true.
Proof.
  induction pre as [|x pre IH]; simpl.
  - apply str_includes_here.
  - rewrite IH. apply orb_true_r.
Qed.

Lemma all_chars_substring_from (p : ascii -> bool) (n : nat) (s : string) :
  all_chars p s = true -> all_chars p (substring_from n s) = true.
Proof.
  revert s. induction n as [|n IH]; intros s H; [destruct s; exact H|].
  destruct s as [|c r]; simpl; [reflexivity|].
  simpl in H. apply andb_true_iff in H. apply IH, H.
Qed.

Lemma all_chars_substring_to (p : ascii -> bool) (n : nat) (s : string) :
  all_chars p s = true -> all_chars p (substring_to n s) = true.
Proof.
  revert s. induction n as [|n IH]; intros s H; [destruct s; reflexivity|].
  destruct s as [|c r]; simpl; [reflexivity|].
  simpl in H. apply andb_true_iff in H. destruct H as [H1 H2].
  rewrite H1. simpl. apply IH, H2.
Qed.

(** Two texts [s ++ "." ++ e] with dot-free [s] are equal only when both
    parts are. *)
Lemma dotted_inj (s1 s2 e1 e2 : string) :
  all_chars notDot s1 = true -> all_chars notDot s2 = true ->
  s1 ++ "." ++ e1 = s2 ++ "." ++ e2 -> s1 = s2 /\ e1 = e2.
Proof.
  revert s2. induction s1 as [|c s1 IH]; intros [|c2 s2] H1 H2 E; simpl in *.
  - inversion E. auto.
  - inversion E; subst. discriminate H2.
  - inversion E; subst. discriminate H1.
  - inversion E; subst.
    apply andb_true_iff in H1. apply andb_true_iff in H2.
    destruct (IH s2 (proj2 H1) (proj2 H2) H3) as [A B]. subst. auto.
Qed.

(** [name.split('.').pop()] is what follows the last dot of the name. *)
Lemma split_nonempty (sep : ascii) (s : string) : split sep s <> [].
Proof.
  induction s as [|c r IH]; simpl; [discriminate|].
  destruct (Ascii.eqb c sep); [discriminate|].
  destruct (split sep r); [congruence|discriminate].
Qed.

Lemma split_nodot (s : string) :
  all_chars notDot s = true -> split "." s = [s].
Proof.
  induction s as [|c s IH]; simpl; intros H; [reflexivity|].
  apply andb_true_iff in H. destruct H as [A B].
  unfold notDot in A. apply negb_true_iff in A. rewrite A, (IH B). reflexivity.
Qed.

Lemma split_append (sep : ascii) (a b : string) :
  split sep (a ++ String sep b) = (split sep a ++ split sep b)%list.
Proof.
  induction a as [|c a IH]; simpl.
  - rewrite Ascii.eqb_refl. reflexivity.
  - rewrite IH. destruct (Ascii.eqb c sep); [reflexivity|].
    pose proof (split_nonempty sep a) as NE.
    destruct (split sep a); [congruence|reflexivity].
Qed.

Lemma pop_split_nodot (s : string) :
  all_chars notDot s = true -> pop (split "." s) = s.
Proof. intros H. rewrite (split_nodot s H). reflexivity. Qed.

Lemma pop_split_last (base e : string) :
  all_chars notDot e = true -> pop (split "." (base ++ "." ++ e)) = e.
Proof.
  intros H. simpl. rewrite split_append, (split_nodot e H).
  unfold pop. apply last_last.
Qed.

End StringFacts.

(* ================================================================== *)
(** * validateFile and the rejected invocations *)
(* ================================================================== *)

Module ValidateFacts.
Import JS Eff Portfolio JSFacts CompressFacts StringFacts.
Open Scope Q_scope.

Lemma mul_1024 : mul 1024 1024 = 1048576.
Proof. vm_compute. reflexivity. Qed.

(** Dividing a file size by [2^20] is exact in binary64. *)
Lemma fileSizeMB_exact (n : N) :
  (n < 9007199254740992)%N -> div (ofN n) (mul 1024 1024) == ofN n / 1048576.
Proof.
  intros Hn. rewrite mul_1024. unfold div, ofN.
  assert (E : inject_Z (Z.of_N n) / 1048576 == inject_Z (Z.of_N n) * pow2 (-20)).
  { change (pow2 (-20)) with (/ 1048576). reflexivity. }
  rewrite E. apply round64_exact. change (2 ^ 53)%Z with 9007199254740992%Z. lia.
Qed.

Lemma oversized_iff (maxSize n : N) :
  (n < 9007199254740992)%N ->
  gt (div (ofN n) (mul 1024 1024)) (ofN maxSize) = true <-> (maxSize * 1048576 < n)%N.
Proof.
  intros Hn. rewrite gt_true, (fileSizeMB_exact n Hn).
  unfold ofN.
  assert (E : inject_Z (Z.of_N n) / 1048576 == inject_Z (Z.of_N n) * (1 # 1048576))
    by reflexivity.
  rewrite E.
  assert (Z : (maxSize * 1048576 < n)%N <->
              inject_Z (Z.of_N maxSize) * 1048576 < inject_Z (Z.of_N n)).
  { change 1048576 with (inject_Z 1048576).
    rewrite <- inject_Z_mult, <- Zlt_Qlt. lia. }
  rewrite Z. split; intros H; lra.
Qed.

Lemma validateFile_disallowed (maxSize : N) (file : File) :
  includes (Object_keys ALLOWED_FILE_TYPES) (type file) = false ->
  validateFile maxSize file = Some invalidTypeMessage.
Proof. intros H. unfold validateFile. rewrite H. reflexivity. Qed.

Lemma validateFile_oversized (maxSize : N) (file : File) :
  includes (Object_keys ALLOWED_FILE_TYPES) (type file) = true ->
  (size file < 9007199254740992)%N ->
  (maxSize * 1048576 < size file)%N ->
  validateFile maxSize file =
  Some (tooLargeMessage maxSize (div (ofN (size file)) (mul 1024 1024))).
Proof.
  intros Ht Hn Hs. unfold validateFile. rewrite Ht. simpl negb. cbv iota.
  apply (oversized_iff maxSize _ Hn) in Hs. rewrite Hs. reflexivity.
Qed.

Lemma validateFile_accepts (maxSize : N) (file : File) :
  includes (Object_keys ALLOWED_FILE_TYPES) (type file) = true ->
  (size file < 9007199254740992)%N ->
  (size file <= maxSize * 1048576)%N ->
  validateFile maxSize file = None.
Proof.
  intros Ht Hn Hs. unfold validateFile. rewrite Ht. simpl negb. cbv iota.
  destruct (gt _ _) eqn:E; [|reflexivity].
  apply (oversized_iff maxSize _ Hn) in E. lia.
Qed.

(** ** toFixed(1) *)

Lemma toFixed1_nonneg (x : Q) :
  0 <= x ->
  let n := Z.to_N (toFixed1_tenths x) in
  toFixed1 x = (showN (n / 10) ++ "." ++ showN (n mod 10))%string /\
  Qabs (ofN n / 10 - x) <= 1 # 20.
Proof.
  intros Hx n. split.
  - unfold toFixed1. fold n. apply Qle_bool_iff in Hx. rewrite Hx. reflexivity.
  - unfold n, toFixed1_tenths, ofN. rewrite (Qabs_pos x Hx).
    pose proof (Qfloor_le (x * 10 + (1 # 2))) as F1.
    pose proof (Qlt_floor (x * 10 + (1 # 2))) as F2.
    rewrite inject_Z_plus in F2. change (inject_Z 1) with 1 in F2.
    assert (F0 : (0 <= Qfloor (x * 10 + (1 # 2)))%Z).
    { change 0%Z with (Qfloor 0). apply Qfloor_resp_le. lra. }
    rewrite Z2N.id by exact F0.
    set (f := inject_Z (Qfloor (x * 10 + (1 # 2)))) in *.
    apply Qabs_Qle_condition.
    assert (E : f / 10 == f * (1 # 10)) by (unfold Qdiv; reflexivity).
    rewrite E. split; lra.
Qed.

Lemma showN_digit (d : N) : (d < 10)%N -> String.length (showN d) = 1%nat.
Proof.
  intros H.
  assert (C : (d = 0 \/ d = 1 \/ d = 2 \/ d = 3 \/ d = 4 \/ d = 5 \/ d = 6 \/ d = 7
              \/ d = 8 \/ d = 9)%N) by lia.
  repeat (destruct C as [C|C]; [subst; reflexivity|]). subst. reflexivity.
Qed.

(** ** The invocations that never reach the try block *)

Lemma uploadFile_unauthenticated (props : Props) (env : Env) (file : File) (w : World) :
  authenticated env = false ->
  uploadFile props env file w = (Throw (mkError "User not authenticated"), w).
Proof. intros H. unfold uploadFile. rewrite H. reflexivity. Qed.

Lemma uploadFile_invalid (props : Props) (env : Env) (file : File) (w : World)
    (msg : string) :
  authenticated env = true ->
  validateFile (maxSize props) file = Some msg ->
  uploadFile props env file w = (Throw (mkError msg), w).
Proof. intros H V. unfold uploadFile. rewrite H, V. reflexivity. Qed.

End ValidateFacts.

(* ================================================================== *)
(** * C2: the dimension cap of the compression step *)
(* ================================================================== *)

Section ClaimC2.
Import JS Eff Portfolio JSFacts CompressFacts.
Open Scope Q_scope.

(** C2.  When [compressImage] succeeds on an image of [w] x [h] pixels,
    both positive, and [w] or [h] exceeds 1920, both returned dimensions
    are the exact proportional values [w * s] and [h * s] for the one
    factor [s = 1920 / max w h], up to binary64 rounding (less than
    [2^-40]), so the aspect ratio is kept; the canvas that is encoded has
    the integer parts of these as its sides, and its larger side is 1919
    or 1920 pixels.  For no image does a side of the canvas exceed 1920;
    an image within the cap keeps its size. *)
Theorem compressImage_dimension_cap
    (env : Env) (file : File) (w0 w1 : World) (cf : File) (m : ImageMetadata)
    (w h : N) :
  compressImage env file w0 = (Normal (cf, m), w1) ->
  loadImage env file = Some (w, h) ->
  (0 < w)%N -> (0 < h)%N ->
  let d := dimensions m in
  let s := maxDimension / ofN (N.max w h) in
  toBlob env file (canvasWidth d) (canvasHeight d) (type file) COMPRESSION_QUALITY
    = Some (size cf) /\
  ((1920 < w)%N \/ (1920 < h)%N ->
     Qabs (width d - ofN w * s) <= 1 # 1099511627776 /\
     Qabs (height d - ofN h * s) <= 1 # 1099511627776 /\
     (1919 <= Z.max (canvasWidth d) (canvasHeight d) <= 1920)%Z) /\
  ((w <= 1920)%N /\ (h <= 1920)%N ->
     canvasWidth d = Z.of_N w /\ canvasHeight d = Z.of_N h) /\
  (canvasWidth d <= 1920)%Z /\ (canvasHeight d <= 1920)%Z.
Proof.
  intros Hc Hl Hw Hh d s.
  assert (Ed : d = optimalDimensions w h /\
               toBlob env file (canvasWidth d) (canvasHeight d) (type file) COMPRESSION_QUALITY
    = Some (size cf)).
  { unfold d. revert Hc. unfold compressImage, bind, emit, throw, ret.
    rewrite Hl. destruct (getContext2d env); simpl; [|discriminate].
    destruct (toBlob env file _ _ _ _) eqn:Eb; [|discriminate].
    intros E. inversion E; subst. simpl. split; [reflexivity|exact Eb]. }
  destruct Ed as [Ed Eb]. split; [exact Eb|].
  rewrite Ed. apply optimalDimensions_cap; assumption.
Qed.

Lemma compressImage_dimension_cap_witness :
  let d := dimensions Samples.photoMetadata in
  let s := maxDimension / ofN (N.max 4000 3000) in
  toBlob Samples.browser Samples.photo (canvasWidth d) (canvasHeight d)
    (type Samples.photo) COMPRESSION_QUALITY
    = Some (size Samples.photoCompressed) /\
  ((1920 < 4000)%N \/ (1920 < 3000)%N ->
     Qabs (width d - ofN 4000 * s) <= 1 # 1099511627776 /\
     Qabs (height d - ofN 3000 * s) <= 1 # 1099511627776 /\
     (1919 <= Z.max (canvasWidth d) (canvasHeight d) <= 1920)%Z) /\
  ((4000 <= 1920)%N /\ (3000 <= 1920)%N ->
     canvasWidth d = Z.of_N 4000 /\ canvasHeight d = Z.of_N 3000) /\
  (canvasWidth d <= 1920)%Z /\ (canvasHeight d <= 1920)%Z.
Proof.
  apply (compressImage_dimension_cap Samples.browser Samples.photo initialWorld
           {| uploadState := uploadState initialWorld;
              trace := [CompressImage Samples.photo] |}
           Samples.photoCompressed Samples.photoMetadata 4000 3000).
  - vm_compute. reflexivity.
  - reflexivity.
  - reflexivity.
  - reflexivity.
Defined.

(** Scenario A: 4000 x 3000 becomes 1920 x 1440. *)
Example scenario_A_dimensions :
  let d := optimalDimensions 4000 3000 in
  canvasWidth d = 1920%Z /\ canvasHeight d = 1440%Z.
Proof. vm_compute. split; reflexivity. Qed.

(** Scenario E: an 800 x 600 image is within the cap and keeps its size. *)
Example scenario_E_dimensions :
  optimalDimensions 800 600 = {| width := 800; height := 600 |}.
Proof. vm_compute. reflexivity. Qed.

(** In binary64 the product [2148 * (1920 / 2148)] is just below 1920:
    the canvas of a 2148-pixel-wide image is 1919 pixels wide. *)
Example width_2148_canvas_1919 :
  let d := optimalDimensions 2148 1000 in
  width d < 1920 /\ canvasWidth d = 1919%Z.
Proof. vm_compute. split; reflexivity. Qed.

(** And [2094 * (1920 / 2094)] is just above 1920; the canvas is 1920 wide. *)
Example width_2094_canvas_1920 :
  let d := optimalDimensions 2094 1000 in
  1920 < width d /\ canvasWidth d = 1920%Z.
Proof. vm_compute. split; reflexivity. Qed.

End ClaimC2.

(* ================================================================== *)
(** * C1, C6, C8: rejected files *)
(* ================================================================== *)

Section RejectedFiles.
Import JS Eff Portfolio JSFacts CompressFacts StringFacts ValidateFacts.
Open Scope string_scope.

(** C1, as stated, fails: an 11 MB PDF exceeds the 10 MB limit, yet
    [uploadFile] fails with the invalid-type message, not the too-large
    one (the type is checked first); and without a session the same file
    fails with the authentication message. *)
Lemma uploadFile_oversized_pdf_not_too_large :
  let r := uploadFile defaultProps Samples.browser Samples.bigPdf initialWorld in
  let r' := uploadFile defaultProps Samples.signedOut Samples.bigPdf initialWorld in
  (maxSize defaultProps * 1048576 < size Samples.bigPdf)%N /\
  includes (Object_keys ALLOWED_FILE_TYPES) (type Samples.bigPdf) = false /\
  failure r = Some invalidTypeMessage /\
  failure r <> Some (tooLargeMessage (maxSize defaultProps)
                       (div (ofN (size Samples.bigPdf)) (mul 1024 1024))) /\
  failure r' = Some "User not authenticated" /\
  failure r' <> Some invalidTypeMessage.
Proof.
  cbv zeta. split; [reflexivity|]. split; [reflexivity|]. split; [reflexivity|].
  split; [|split; [reflexivity|]].
  - vm_compute. intros H. discriminate H.
  - vm_compute. intros H. discriminate H.
Qed.

(** C1, amended.  For a file whose type is not allowed or whose size
    exceeds [maxSize] MB, [uploadFile] ends in a failure without having
    compressed anything or called the store.  With a signed-in user the
    failure is the invalid-type one when the type is not allowed, and the
    too-large one when the type is allowed and the file is too large;
    without a signed-in user it is the authentication failure. *)
Theorem uploadFile_rejects_invalid_file
    (props : Props) (env : Env) (file : File) (st : UploadState) :
  (size file < 9007199254740992)%N ->
  includes (Object_keys ALLOWED_FILE_TYPES) (type file) = false
  \/ (maxSize props * 1048576 < size file)%N ->
  let r := uploadFile props env file (fresh st) in
  compressions (trace (snd r)) = [] /\
  storeCalls (trace (snd r)) = [] /\
  (authenticated env = false -> failure r = Some "User not authenticated") /\
  (authenticated env = true ->
   includes (Object_keys ALLOWED_FILE_TYPES) (type file) = false ->
   failure r = Some invalidTypeMessage) /\
  (authenticated env = true ->
   includes (Object_keys ALLOWED_FILE_TYPES) (type file) = true ->
   (maxSize props * 1048576 < size file)%N ->
   failure r = Some (tooLargeMessage (maxSize props)
                       (div (ofN (size file)) (mul 1024 1024)))).
Proof.
  intros Hn Hbad. cbv zeta.
  destruct (authenticated env) eqn:A.
  - destruct (includes (Object_keys ALLOWED_FILE_TYPES) (type file)) eqn:T.
    + destruct Hbad as [Hbad|Hbad]; [discriminate|].
      rewrite (uploadFile_invalid props env file (fresh st) _ A
                 (validateFile_oversized _ _ T Hn Hbad)).
      repeat split; try reflexivity; discriminate.
    + rewrite (uploadFile_invalid props env file (fresh st) _ A
                 (validateFile_disallowed _ _ T)).
      repeat split; try reflexivity; discriminate.
  - rewrite (uploadFile_unauthenticated props env file (fresh st) A).
    repeat split; try reflexivity; discriminate.
Qed.

Lemma uploadFile_rejects_invalid_file_witness :
  let r := uploadFile defaultProps Samples.browser Samples.bigPng (fresh idleState) in
  compressions (trace (snd r)) = [] /\
  storeCalls (trace (snd r)) = [] /\
  failure r = Some (tooLargeMessage (maxSize defaultProps)
                      (div (ofN (size Samples.bigPng)) (mul 1024 1024))).
Proof.
  destruct (uploadFile_rejects_invalid_file defaultProps Samples.browser Samples.bigPng
              idleState) as (A & B & _ & _ & C).
  - reflexivity.
  - right. reflexivity.
  - split; [exact A|]. split; [exact B|]. apply C; reflexivity.
Defined.

(** Scenario B: a PDF is rejected before anything is done. *)
Example scenario_B_pdf :
  let r := uploadFile defaultProps Samples.browser Samples.bigPdf initialWorld in
  failure r
  = Some "Invalid file type. Please upload .jpg, .jpeg, .png, .webp, .gif files only."
  /\ trace (snd r) = [].
Proof. split; reflexivity. Qed.

(** Scenario C: the message for an 11 MB PNG against the 10 MB limit. *)
Example scenario_C_message :
  validateFile 10 Samples.bigPng
  = Some "File size too large. Maximum allowed size is 10MB. Your file is 11.0MB.".
Proof. vm_compute. reflexivity. Qed.

(** C6, as stated, fails in [RobustImageUpload]: its message for the
    same file names the limit only. *)
Lemma robust_too_large_message_omits_size :
  Robust.handleFileUpload Samples.robustProps Samples.robustBrowser Samples.bigPng []
  = (Normal tt, [Widget.Set_ (Widget.SetUploadError "File size must be less than 10MB")])
  /\ str_includes "File size must be less than 10MB" "10MB" = true
  /\ str_includes "File size must be less than 10MB" "11.0MB" = false
  /\ str_includes "File size must be less than 10MB" "11" = false.
Proof. vm_compute. repeat split; reflexivity. Qed.

Lemma tooLargeMessage_limit (maxSize : N) (x : Q) :
  tooLargeMessage maxSize x
  = "File size too large. Maximum allowed size is "
    ++ (showN maxSize ++ "MB") ++ ". Your file is " ++ toFixed1 x ++ "MB.".
Proof. unfold tooLargeMessage. rewrite !append_assoc. reflexivity. Qed.

Lemma tooLargeMessage_size (maxSize : N) (x : Q) :
  tooLargeMessage maxSize x
  = ("File size too large. Maximum allowed size is " ++ showN maxSize
     ++ "MB. Your file is ") ++ (toFixed1 x ++ "MB") ++ ".".
Proof. unfold tooLargeMessage. rewrite !append_assoc. reflexivity. Qed.

(** C6, amended.  In [EnhancedImageUpload], for a file of an allowed type
    larger than [maxSize] MB, [validateFile] returns a message that
    includes the limit as [<maxSize>MB] and the size of the file in MB
    with one decimal digit, [<tenths / 10>.<tenths mod 10>MB], where
    [tenths / 10] is within 0.05 of [size / 2^20]. *)
Theorem validateFile_too_large_message (maxSize : N) (file : File) :
  includes (Object_keys ALLOWED_FILE_TYPES) (type file) = true ->
  (size file < 9007199254740992)%N ->
  (maxSize * 1048576 < size file)%N ->
  exists msg tenths,
    validateFile maxSize file = Some msg /\
    str_includes msg (showN maxSize ++ "MB") = true /\
    str_includes msg (showN (tenths / 10) ++ "." ++ showN (tenths mod 10) ++ "MB") = true /\
    String.length (showN (tenths mod 10)) = 1%nat /\
    (Qabs (ofN tenths / 10 - ofN (size file) / 1048576) <= 1 # 20)%Q.
Proof.
  intros Ht Hn Hs.
  set (fileSizeMB := div (ofN (size file)) (mul 1024 1024)).
  assert (E : (fileSizeMB == ofN (size file) / 1048576)%Q)
    by (apply fileSizeMB_exact, Hn).
  assert (P : (0 <= fileSizeMB)%Q).
  { rewrite E. apply Qle_shift_div_l; [reflexivity|].
    unfold ofN. change (0 * 1048576)%Q with (inject_Z 0). rewrite <- Zle_Qle. lia. }
  destruct (toFixed1_nonneg fileSizeMB P) as [F1 F2].
  exists (tooLargeMessage maxSize fileSizeMB), (Z.to_N (toFixed1_tenths fileSizeMB)).
  split; [apply validateFile_oversized; assumption|].
  set (t := Z.to_N (toFixed1_tenths fileSizeMB)) in *.
  split; [rewrite tooLargeMessage_limit; apply str_includes_middle|].
  split; [rewrite tooLargeMessage_size, F1, (append_assoc (showN (t / 10)));
          apply str_includes_middle|].
  split; [apply showN_digit, N.mod_lt; discriminate|].
  rewrite <- E. exact F2.
Qed.

Lemma validateFile_too_large_message_witness :
  exists msg tenths,
    validateFile 10 Samples.bigPng = Some msg /\
    str_includes msg (showN 10 ++ "MB") = true /\
    str_includes msg (showN (tenths / 10) ++ "." ++ showN (tenths mod 10) ++ "MB") = true /\
    String.length (showN (tenths mod 10)) = 1%nat /\
    (Qabs (ofN tenths / 10 - ofN (size Samples.bigPng) / 1048576) <= 1 # 20)%Q.
Proof.
  apply (validateFile_too_large_message 10 Samples.bigPng); reflexivity.
Defined.

(** C8, at the failing input: a signed-in user selects a PDF.
    [uploadFile] throws the validation error before its [try] block and
    [handleFileSelect] drops the promise: the rejection is unhandled, the
    state stays idle, and neither [onError] nor a toast is called. *)
Theorem handleFileSelect_validation_error_unhandled :
  handleFileSelect defaultProps Samples.browser (Some [Samples.bigPdf]) initialWorld
  = {| world := initialWorld;
       unhandledRejection := Some (mkError invalidTypeMessage) |}.
Proof. reflexivity. Qed.

(** Whatever file the validator rejects, the error escapes in this way. *)
Lemma handleFileSelect_rejection_unhandled
    (props : Props) (env : Env) (file : File) (rest : list File) (w : World)
    (msg : string) :
  authenticated env = true ->
  validateFile (maxSize props) file = Some msg ->
  handleFileSelect props env (Some (file :: rest)) w
  = {| world := w; unhandledRejection := Some (mkError msg) |}.
Proof.
  intros A V. unfold handleFileSelect.
  rewrite (uploadFile_invalid props env file w msg A V). reflexivity.
Qed.

(** The sibling component reports the same file through its error state. *)
Example robust_reports_invalid_type :
  Robust.handleFileUpload Samples.robustProps Samples.robustBrowser Samples.bigPdf []
  = (Normal tt,
     [Widget.Set_ (Widget.SetUploadError
                     "Please upload a valid image file (JPEG, PNG, GIF, WebP)")]).
Proof. reflexivity. Qed.

End RejectedFiles.

(* ================================================================== *)
(** * C3, C4, C7: what a run of uploadFile does *)
(* ================================================================== *)

Section Runs.
Import JS Eff Portfolio JSFacts CompressFacts StringFacts ValidateFacts.
Open Scope string_scope.

(** Every way a run of [uploadFile] can go, one goal each. *)
Ltac run_cases props env file :=
  unfold uploadFile, fresh;
  destruct (authenticated env) eqn:?A; cbn [negb];
  [ destruct (validateFile (maxSize props) file) as [?validationError|] eqn:?V;
    [ | unfold compressImage, bind, try_catch, throw, ret, emit, setUploadState;
        cbn [uploadState trace app];
        destruct (loadImage env file) as [[?iw ?ih]|] eqn:?L;
        [ destruct (getContext2d env) eqn:?G; cbn [negb];
          [ destruct (toBlob env file _ _ _ _) as [?blob|] eqn:?B;
            [ cbn [uploadState trace app];
              destruct (gt _ 10) eqn:?R;
              cbn [uploadState trace app];
              destruct (storageUpload env _ _ _) as [?dataPath|?err] eqn:?U
            | ]
          | ]
        | ]
    ]
  | ];
  destruct (hasOnError props) eqn:?O;
  cbn -[filePath compressionRatioOf optimalDimensions canvasWidth canvasHeight
        errorMessageOf getPublicUrl invalidTypeMessage].



(** Scenario D: the store rejects the object; the progress stops at 70. *)
Example scenario_D_progress :
  let env := {| session_user_id := Some "u1"; now := 1700000000000;
                random36 := "0.k3j9x2ab"; loadImage := fun _ => Some (4000, 3000)%N;
                getContext2d := true; toBlob := fun _ _ _ _ _ => Some 500000%N;
                storageUpload := fun _ _ _ => UploadError (mkError "network error");
                getPublicUrl := fun _ _ => "" |} in
  let w := snd (uploadFile Samples.recipeProps env Samples.photo (fresh idleState)) in
  map progress (snapshots (trace w)) = [10; 30; 50; 70; 70]%N /\
  status (uploadState w) = error /\
  error_message (uploadState w) = Some "network error".
Proof. vm_compute. repeat split; reflexivity. Qed.

(** The only object [uploadFile] writes goes to [filePath]. *)
Lemma uploadFile_upload_path
    (props : Props) (env : Env) (file : File) (st : UploadState)
    (b p : string) (body : File) (u : bool) :
  In (Store (StorageUpload b p body u))
     (trace (snd (uploadFile props env file (fresh st)))) ->
  b = bucket props /\ p = filePath props env file /\ u = false /\
  name body = name file /\ type body = type file.
Proof.
  run_cases props env file.
  all: intros H; repeat (destruct H as [H|H]; try discriminate H); try contradiction.
  all: inversion H; subst; auto.
Qed.

(** An invocation that ends in the success state has written its object. *)
Lemma uploadFile_success_writes
    (props : Props) (env : Env) (file : File) (st : UploadState) (s : UploadState) :
  final (snapshots (trace (snd (uploadFile props env file (fresh st))))) = Some s ->
  status s = success ->
  exists body,
    In (Store (StorageUpload (bucket props) (filePath props env file) body false))
       (trace (snd (uploadFile props env file (fresh st)))).
Proof.
  run_cases props env file.
  all: intros E Hs; inversion E; subst; try discriminate Hs.
  all: eexists; auto 20.
Qed.

(** Once the file is validated nothing escapes [uploadFile]: it returns
    normally, in the success state or in the error state with the
    message shown and handed to [onError]. *)
Lemma uploadFile_try_block_captures
    (props : Props) (env : Env) (file : File) (st : UploadState) :
  authenticated env = true ->
  validateFile (maxSize props) file = None ->
  let r := uploadFile props env file (fresh st) in
  fst r = Normal tt /\
  (status (uploadState (snd r)) = success \/
   exists msg,
     status (uploadState (snd r)) = error /\
     error_message (uploadState (snd r)) = Some msg /\
     In (Toast (ToastError msg)) (trace (snd r)) /\
     (hasOnError props = true -> In (OnError msg) (trace (snd r)))).
Proof.
  intros HA HV. cbv zeta. revert HA HV.
  run_cases props env file.
  all: intros HA HV; try discriminate HA; try discriminate HV.
  all: split; [reflexivity|].
  all: first [left; reflexivity
             |right; eexists; split; [reflexivity|]; split; [reflexivity|];
              split; [auto 20|intros HO; try discriminate HO; auto 20]].
Qed.

(** ** C7: the compression ratio *)

Lemma compressionRatioOf_bounds (o c : N) :
  (0 < o)%N ->
  let P := (100 * ((ofN o - ofN c) / ofN o))%Q in
  let r := compressionRatioOf o c in
  ((c <= o)%N ->
     ((1 - u53) * ((1 - u53) * ((1 - u53) * P)) <= r
      /\ r <= (1 + u53) * ((1 + u53) * ((1 + u53) * P)) /\ 0 <= P)%Q) /\
  ((o <= c)%N ->
     ((1 + u53) * ((1 + u53) * ((1 + u53) * P)) <= r
      /\ r <= (1 - u53) * ((1 - u53) * ((1 - u53) * P)) /\ P <= 0)%Q).
Proof.
  intros Ho P r. unfold r, compressionRatioOf, mul, div, sub.
  pose proof (ofN_pos o Ho) as Po.
  set (O := ofN o) in *. set (C := ofN c) in *.
  assert (Pi : (0 < / O)%Q) by (apply Qinv_lt_0_compat, Po).
  assert (EP : (P == 100 * ((O - C) * / O))%Q) by reflexivity.
  split; intros Hc.
  - assert (D0 : (0 <= O - C)%Q).
    { apply ofN_le in Hc. fold O C in Hc. lra. }
    destruct (round64_error_pos _ D0) as [A1 A2].
    set (a1 := round64 (O - C)) in *.
    assert (Y1 : ((1 - u53) * (O - C) * / O <= a1 * / O)%Q)
      by (apply Qmult_le_compat_r; [exact A1|lra]).
    assert (Y2 : (a1 * / O <= (1 + u53) * (O - C) * / O)%Q)
      by (apply Qmult_le_compat_r; [exact A2|lra]).
    assert (X0 : (0 <= (O - C) * / O)%Q) by (apply Qmult_le_0_compat; lra).
    assert (E1 : ((1 - u53) * (O - C) * / O == (1 - u53) * ((O - C) * / O))%Q) by ring.
    assert (E2 : ((1 + u53) * (O - C) * / O == (1 + u53) * ((O - C) * / O))%Q) by ring.
    rewrite E1 in Y1. rewrite E2 in Y2.
    set (X := ((O - C) * / O)%Q) in *.
    assert (Y0 : (0 <= a1 / O)%Q) by (unfold Qdiv, u53 in *; lra).
    destruct (round64_error_pos _ Y0) as [B1 B2].
    set (a2 := round64 (a1 / O)) in *. unfold Qdiv in B1, B2.
    assert (Z0 : (0 <= a2 * 100)%Q) by (unfold u53 in *; lra).
    destruct (round64_error_pos _ Z0) as [C1 C2].
    set (a3 := round64 (a2 * 100)) in *.
    unfold u53 in *. repeat split; lra.
  - assert (D0 : (O - C <= 0)%Q).
    { apply ofN_le in Hc. fold O C in Hc. lra. }
    destruct (round64_error_neg _ D0) as [A1 A2].
    set (a1 := round64 (O - C)) in *.
    assert (Y1 : ((1 + u53) * (O - C) * / O <= a1 * / O)%Q)
      by (apply Qmult_le_compat_r; [exact A1|lra]).
    assert (Y2 : (a1 * / O <= (1 - u53) * (O - C) * / O)%Q)
      by (apply Qmult_le_compat_r; [exact A2|lra]).
    assert (X0 : ((O - C) * / O <= 0)%Q).
    { assert (T : (0 <= (C - O) * / O)%Q) by (apply Qmult_le_0_compat; lra).
      assert (E : ((C - O) * / O == - ((O - C) * / O))%Q) by ring.
      rewrite E in T. lra. }
    assert (E1 : ((1 + u53) * (O - C) * / O == (1 + u53) * ((O - C) * / O))%Q) by ring.
    assert (E2 : ((1 - u53) * (O - C) * / O == (1 - u53) * ((O - C) * / O))%Q) by ring.
    rewrite E1 in Y1. rewrite E2 in Y2.
    set (X := ((O - C) * / O)%Q) in *.
    assert (Y0 : (a1 / O <= 0)%Q) by (unfold Qdiv, u53 in *; lra).
    destruct (round64_error_neg _ Y0) as [B1 B2].
    set (a2 := round64 (a1 / O)) in *. unfold Qdiv in B1, B2.
    assert (Z0 : (a2 * 100 <= 0)%Q) by (unfold u53 in *; lra).
    destruct (round64_error_neg _ Z0) as [C1 C2].
    set (a3 := round64 (a2 * 100)) in *.
    unfold u53 in *. repeat split; lra.
Qed.

End Runs.

(* ================================================================== *)
(** * C7: the compression ratio is a percentage *)
(* ================================================================== *)

Section Ratio.
Import JS Eff Portfolio JSFacts CompressFacts StringFacts ValidateFacts.
Open Scope string_scope.

(** What a successful [compressImage] read from the browser. *)
Lemma compressImage_success (env : Env) (file : File) (w0 w1 : World)
    (cf : File) (m : ImageMetadata) :
  compressImage env file w0 = (Normal (cf, m), w1) ->
  exists iw ih,
    loadImage env file = Some (iw, ih) /\ getContext2d env = true /\
    toBlob env file (canvasWidth (optimalDimensions iw ih))
      (canvasHeight (optimalDimensions iw ih)) (type file) COMPRESSION_QUALITY
    = Some (size cf) /\
    cf = {| name := name file; type := type file; size := size cf |} /\
    m = {| originalSize := size file; compressedSize := size cf;
           dimensions := optimalDimensions iw ih; format := type file;
           compressionRatio := compressionRatioOf (size file) (size cf) |}.
Proof.
  unfold compressImage, bind, emit, throw, ret.
  destruct (loadImage env file) as [[iw ih]|]; [|discriminate].
  destruct (getContext2d env); simpl; [|discriminate].
  destruct (toBlob env file _ _ _ _) eqn:B; [|discriminate].
  intros E. inversion E; subst. simpl. exists iw, ih. auto.
Qed.

(** C7, as stated, fails: for the 2 MB photo encoded to 500000 bytes the
    returned [compressionRatio] is 76.158..., one hundred times the
    fraction [(originalBytes - finalBytes) / originalBytes]. *)
Lemma compressImage_ratio_not_fraction :
  fst (compressImage Samples.browser Samples.photo initialWorld)
    = Normal (Samples.photoCompressed, Samples.photoMetadata) /\
  (compressionRatio Samples.photoMetadata == 1247775 # 16384)%Q /\
  ((ofN 2097152 - ofN 500000) / ofN 2097152 == 1247775 # 1638400)%Q /\
  ~ (compressionRatio Samples.photoMetadata
     == (ofN 2097152 - ofN 500000) / ofN 2097152)%Q.
Proof.
  split; [vm_compute; reflexivity|]. split; [reflexivity|]. split; [reflexivity|].
  vm_compute. discriminate.
Qed.

(** C7, amended.  The [compressionRatio] that [compressImage] returns is
    the percentage [100 * (originalBytes - finalBytes) / originalBytes],
    computed in binary64 (relative error at most [4 * 2^-53]); it is zero
    when the sizes are equal and negative when the encoded file is larger.
    [uploadFile] shows the "Image optimized" toast only with that
    metadata and only when the ratio exceeds 10, and does show it then.
    The success view does not wait for 10: after every upload that
    succeeds it shows "Optimized by N%" exactly when the ratio is above
    0, so also for a file that shrank by ten percent or less. *)
Theorem compressionRatio_percentage
    (props : Props) (env : Env) (file : File) (w0 w1 : World)
    (cf : File) (m : ImageMetadata) :
  compressImage env file w0 = (Normal (cf, m), w1) ->
  (0 < size file)%N ->
  let P := (100 * ((ofN (size file) - ofN (size cf)) / ofN (size file)))%Q in
  originalSize m = size file /\ compressedSize m = size cf /\
  (Qabs (compressionRatio m - P) <= (4 # 9007199254740992) * Qabs P)%Q /\
  (size cf = size file -> (compressionRatio m == 0)%Q) /\
  ((size file < size cf)%N -> (compressionRatio m < 0)%Q) /\
  ((size cf < size file)%N -> (0 < compressionRatio m)%Q) /\
  forall st,
    let t := trace (snd (uploadFile props env file (fresh st))) in
    let final := uploadState (snd (uploadFile props env file (fresh st))) in
    (forall m', In (Toast (ToastOptimized m')) t ->
                m' = m /\ gt (compressionRatio m) 10 = true) /\
    (authenticated env = true -> validateFile (maxSize props) file = None ->
     gt (compressionRatio m) 10 = true -> In (Toast (ToastOptimized m)) t) /\
    (fst (uploadFile props env file (fresh st)) = Normal tt ->
     status final = success ->
     metadata final = Some m /\
     View.optimizedLine final =
     (if gt (compressionRatio m) 0
      then Some ("Optimized by " ++ View.toFixed0 (compressionRatio m) ++ "%")
      else None) /\
     ((size cf < size file)%N -> View.optimizedLine final <> None)).
Proof.
  intros Hc Ho P.
  destruct (compressImage_success env file w0 w1 cf m Hc)
    as (iw & ih & L & G & B & Ecf & Em).
  destruct (compressionRatioOf_bounds (size file) (size cf) Ho) as [Ble Bge].
  fold P in Ble, Bge.
  assert (Er : compressionRatio m = compressionRatioOf (size file) (size cf))
    by (rewrite Em; reflexivity).
  split; [rewrite Em; reflexivity|]. split; [rewrite Em; reflexivity|].
  rewrite Er. set (r := compressionRatioOf (size file) (size cf)) in *.
  assert (PO : (0 < ofN (size file))%Q) by (apply ofN_pos, Ho).
  split.
  { destruct (N.le_ge_cases (size cf) (size file)) as [H|H].
    - destruct (Ble H) as (A1 & A2 & A3).
      rewrite (Qabs_pos P A3). apply Qabs_Qle_condition. unfold u53 in *. split; lra.
    - destruct (Bge H) as (A1 & A2 & A3).
      rewrite (Qabs_neg P A3). apply Qabs_Qle_condition. unfold u53 in *. split; lra. }
  split.
  { intros E. assert (P0 : (P == 0)%Q).
    { unfold P. rewrite E. unfold Qdiv. ring. }
    destruct (Ble ltac:(lia)) as (A1 & A2 & _).
    rewrite P0 in A1, A2. unfold u53 in *. lra. }
  split.
  { intros Hlt. destruct (Bge ltac:(lia)) as (A1 & A2 & A3).
    assert (Pn : (P < 0)%Q).
    { unfold P. apply ofN_lt in Hlt.
      assert (T : (0 < (ofN (size cf) - ofN (size file)) / ofN (size file))%Q)
        by (apply Qlt_shift_div_l; lra).
      assert (E : ((ofN (size file) - ofN (size cf)) / ofN (size file)
                   == - ((ofN (size cf) - ofN (size file)) / ofN (size file)))%Q)
        by (field; lra).
      rewrite E. lra. }
    unfold u53 in *. lra. }
  split.
  { intros Hlt. destruct (Ble ltac:(lia)) as (A1 & A2 & A3).
    assert (Pn : (0 < P)%Q).
    { unfold P. apply ofN_lt in Hlt.
      assert (T : (0 < (ofN (size file) - ofN (size cf)) / ofN (size file))%Q)
        by (apply Qlt_shift_div_l; lra).
      lra. }
    unfold u53 in *. lra. }
  assert (Pos : (size cf < size file)%N ->
                gt (compressionRatioOf (size file) (size cf)) 0 = true).
  { intros Hlt. apply gt_true. destruct (Ble ltac:(lia)) as (A1 & A2 & A3).
    assert (Pn : (0 < P)%Q).
    { unfold P. apply ofN_lt in Hlt.
      assert (T : (0 < (ofN (size file) - ofN (size cf)) / ofN (size file))%Q)
        by (apply Qlt_shift_div_l; lra).
      lra. }
    fold r. unfold u53 in *. lra. }
  fold r in Pos.
  intros st. cbv zeta. unfold uploadFile, fresh.
  destruct (authenticated env); cbn [negb];
    [|split; [intros m' []|split; [discriminate|intros H; discriminate H]]].
  destruct (validateFile (maxSize props) file);
    [split; [intros m' []|split; [discriminate|intros H; discriminate H]]|].
  unfold compressImage, bind, try_catch, throw, ret, emit, setUploadState.
  cbn [uploadState trace app]. rewrite L, G. cbn [negb]. rewrite B.
  cbn [uploadState trace app compressionRatio size].
  fold r. rewrite <- Ecf, <- Em.
  destruct (gt r 10) eqn:R; cbn [uploadState trace app];
    destruct (storageUpload env _ _ _); destruct (hasOnError props);
    cbn -[filePath compressionRatioOf optimalDimensions canvasWidth canvasHeight
          errorMessageOf getPublicUrl View.toFixed0 gt append];
    (split;
     [intros m' H; repeat (destruct H as [H|H]; try discriminate H);
      try contradiction; inversion H; auto
     |split;
      [intros _ _ R'; try discriminate R'; auto 20
      |intros _ S;
       first [ discriminate S
             | split; [reflexivity|]; try rewrite Er;
               split; [reflexivity|];
               intros Hlt; rewrite (Pos Hlt); discriminate ]]]).
Qed.

Lemma compressionRatio_percentage_witness :
  In (Toast (ToastOptimized Samples.photoMetadata))
     (trace (snd (uploadFile Samples.recipeProps Samples.browser Samples.photo
                    (fresh idleState)))) /\
  View.optimizedLine
    (uploadState (snd (uploadFile Samples.recipeProps Samples.browser Samples.photo
                         (fresh idleState))))
  = Some "Optimized by 76%".
Proof.
  destruct (compressionRatio_percentage Samples.recipeProps Samples.browser
              Samples.photo initialWorld
              {| uploadState := idleState; trace := [CompressImage Samples.photo] |}
              Samples.photoCompressed Samples.photoMetadata)
    as (_ & _ & _ & _ & _ & _ & H).
  - vm_compute. reflexivity.
  - reflexivity.
  - destruct (H idleState) as (_ & T & V). split.
    + apply T; vm_compute; reflexivity.
    + destruct V as (_ & L & _); [vm_compute; reflexivity..|].
      rewrite L. vm_compute. reflexivity.
Defined.

(** The ratio need not exceed 10 to be shown: the 2 MB photo encoded to
    2000000 bytes has shrunk by 4.63 percent; no "Image optimized" toast
    is shown, and the success view says "Optimized by 5%". *)
Example success_view_advertises_small_ratio :
  let r := uploadFile Samples.recipeProps PageSamples.gentleBrowser Samples.photo
             (fresh idleState) in
  fst r = Normal tt /\
  status (uploadState (snd r)) = success /\
  (forall m, metadata (uploadState (snd r)) = Some m ->
             gt (compressionRatio m) 10 = false /\ gt (compressionRatio m) 0 = true) /\
  (forall m, ~ In (Toast (ToastOptimized m)) (trace (snd r))) /\
  View.optimizedLine (uploadState (snd r)) = Some "Optimized by 5%".
Proof.
  cbv zeta. split; [vm_compute; reflexivity|]. split; [vm_compute; reflexivity|].
  split.
  { intros m H. vm_compute in H. inversion H; subst. split; vm_compute; reflexivity. }
  split; [|vm_compute; reflexivity].
  intros m H. vm_compute in H.
  repeat (destruct H as [H|H]; [discriminate H|]). exact H.
Qed.

End Ratio.

(* ================================================================== *)
(** * What RobustImageUpload and the upload route write *)
(* ================================================================== *)

Section Writes.
Import JS Eff JSFacts CompressFacts StringFacts ValidateFacts.
Open Scope string_scope.

Lemma robust_upload_path
    (props : Robust.Props) (env : Widget.Env) (file : File)
    (b p : string) (body : File) (u : bool) :
  In (Widget.Store (StorageUpload b p body u))
     (snd (Robust.handleFileUpload props env file [])) ->
  exists uid, Widget.user env = Some uid /\ p = Widget.fileName uid env file /\
              body = file /\ u = false.
Proof.
  unfold Robust.handleFileUpload.
  destruct (Widget.user env) as [uid|]; cbn [negb].
  2:{ cbn. intros [H|[]]. discriminate H. }
  destruct (includes Robust.validTypes (type file)); cbn [negb].
  2:{ cbn. intros [H|[]]. discriminate H. }
  destruct (gt _ _).
  1:{ cbn. intros [H|[]]. discriminate H. }
  unfold try_finally, try_catch, bind, throw, ret, Widget.set, Widget.emit.
  cbn [app].
  destruct (Widget.storageUpload env _ _ _);
    [destruct (Widget.getPublicUrl env _ _) as [url|];
     [destruct (truthy url); cbn [negb]; [destruct (Widget.fileInputMounted env)|]|]|].
  all: cbn -[Widget.fileName Robust.bucketName].
  all: intros H; repeat (destruct H as [H|H]; try discriminate H); try contradiction.
  all: inversion H; subst; exists uid; auto.
Qed.

Lemma server_upload_path
    (env : Server.Env) (req : Server.Request) (b p : string) (body : File) (u : bool) :
  In (Server.Store (StorageUpload b p body u)) (snd (Server.uploadRoute env req)) ->
  exists uid, fst (Server.getUserFromToken env req) = Some uid /\
              Server.formData req = Server.Form (Some body) /\
              p = Server.uploadFileName uid env body /\ u = false.
Proof.
  unfold Server.uploadRoute.
  destruct (Server.getUserFromToken env req) as [[uid|] err]; [|intros []].
  destruct (includes Server.validBuckets _); cbn [negb]; [|intros []].
  destruct (Server.formData req) as [|[file|]]; [intros [H|[]]; discriminate H| |intros []].
  destruct (includes (_ ++ _)%list _); cbn [negb]; [|intros []].
  destruct (gt _ _); [intros []|].
  destruct (Server.storageUpload env _ _ _);
    [destruct (Server.getPublicUrl env _ _) as [url|]; [destruct (truthy url)|]|].
  all: cbn -[Server.uploadFileName].
  all: intros H; repeat (destruct H as [H|H]; try discriminate H); try contradiction.
  all: inversion H; subst; exists uid; auto.
Qed.

End Writes.

(* ================================================================== *)
(** * C4, C5: storage keys *)
(* ================================================================== *)

Section StorageKeys.
Import JS Eff JSFacts CompressFacts StringFacts ValidateFacts.
Open Scope string_scope.

Lemma base36_notDot (c : ascii) : isBase36Digit c = true -> notDot c = true.
Proof.
  destruct c as [[] [] [] [] [] [] [] []]; vm_compute; intros H;
    first [reflexivity | discriminate H].
Qed.

Lemma all_chars_impl (p q : ascii -> bool) (s : string) :
  (forall c, p c = true -> q c = true) ->
  all_chars p s = true -> all_chars q s = true.
Proof.
  intros I. induction s as [|c s IH]; simpl; [reflexivity|].
  intros H. apply andb_true_iff in H. destruct H as [A B].
  rewrite (I c A), (IH B). reflexivity.
Qed.

(** Whatever tail of the random text is kept, it has base-36 digits only. *)
Lemma random_suffix_base36 (r : string) (n : nat) :
  isRandom36 r = true -> (2 <= n)%nat ->
  all_chars isBase36Digit (substring_from n r) = true.
Proof.
  intros H Hn. destruct n as [|[|n]]; try lia. clear Hn.
  destruct r as [|c0 [|c1 ds]].
  - reflexivity.
  - reflexivity.
  - simpl. apply all_chars_substring_from.
    unfold isRandom36 in H.
    destruct c0 as [[] [] [] [] [] [] [] []]; try discriminate H.
    destruct c1 as [[] [] [] [] [] [] [] []]; try discriminate H.
    exact H.
Qed.

Lemma random_suffix_notDot (r : string) (n : nat) :
  isRandom36 r = true -> (2 <= n)%nat -> all_chars notDot (substring_from n r) = true.
Proof.
  intros H Hn. apply all_chars_impl with (p := isBase36Digit).
  - apply base36_notDot.
  - apply random_suffix_base36; assumption.
Qed.

(** Keys built on one prefix are equal exactly when their random suffixes
    and their extensions are. *)
Lemma key_eq_iff (pre s1 s2 e1 e2 : string) :
  all_chars notDot s1 = true -> all_chars notDot s2 = true ->
  pre ++ s1 ++ "." ++ e1 = pre ++ s2 ++ "." ++ e2 <-> s1 = s2 /\ e1 = e2.
Proof.
  intros H1 H2. split.
  - intros E. apply append_inv_head in E. apply dotted_inj; assumption.
  - intros [A B]. subst. reflexivity.
Qed.

Lemma portfolio_filePath_shape (props : Portfolio.Props) (env : Portfolio.Env) (file : File) :
  Portfolio.filePath props env file
  = ((if truthy (Portfolio.path props) then Portfolio.path props ++ "/" else "")
     ++ showN (Portfolio.now env) ++ "-")
    ++ substring_from 2 (Portfolio.random36 env) ++ "." ++ Portfolio.fileExt file.
Proof.
  unfold Portfolio.filePath, Portfolio.fileName.
  destruct (truthy (Portfolio.path props)); rewrite !append_assoc; reflexivity.
Qed.

Lemma robust_fileName_shape (uid : string) (env : Widget.Env) (file : File) :
  Widget.fileName uid env file
  = (uid ++ "/" ++ showN (Widget.now env) ++ "-")
    ++ substring_from 7 (Widget.random36 env) ++ "." ++ pop (split "." (name file)).
Proof. unfold Widget.fileName. rewrite !append_assoc. reflexivity. Qed.

(** C5, as stated, fails: two invocations in the same millisecond that
    draw the same random number produce the same key for [a.png] and
    [b.png], in either component.  In [RobustImageUpload] even the
    different draws 0.5 and 0.25, printed ["0.i"] and ["0.9"], give the
    same key, since [substring(7)] keeps nothing of them. *)
Lemma same_draw_same_key :
  let a := {| name := "a.png"; type := "image/png"; size := 1000 |} in
  let b := {| name := "b.png"; type := "image/png"; size := 2000 |} in
  a <> b /\
  Portfolio.filePath Samples.recipeProps Samples.browser a
  = Portfolio.filePath Samples.recipeProps Samples.browser b /\
  Portfolio.filePath Samples.recipeProps Samples.browser a
  = "recipes/1700000000000-k3j9x2ab.png" /\
  Widget.fileName "u1" Samples.robustBrowser a
  = Widget.fileName "u1" Samples.robustBrowser b /\
  Widget.fileName "u1" (Samples.robustBrowserWith "0.i") a
  = Widget.fileName "u1" (Samples.robustBrowserWith "0.9") a /\
  Widget.fileName "u1" (Samples.robustBrowserWith "0.i") a = "u1/1700000000000-.png".
Proof. cbv zeta. split; [discriminate|]. vm_compute. repeat split; reflexivity. Qed.

(** C5, amended.  Two invocations for the same owner in the same
    millisecond produce the same storage key exactly when they draw the
    same random suffix and the two file names have the same extension; so
    the keys differ whenever the suffixes differ.  ([Math.random] may
    return the same number twice: the key alone does not exclude it.)
    These keys are the ones written, and every write is issued with
    [upsert: false]. *)
Theorem storage_keys_equal_iff
    (props : Portfolio.Props) (env1 env2 : Portfolio.Env)
    (uid : string) (renv1 renv2 : Widget.Env) (f1 f2 : File) :
  Portfolio.now env1 = Portfolio.now env2 ->
  isRandom36 (Portfolio.random36 env1) = true ->
  isRandom36 (Portfolio.random36 env2) = true ->
  Widget.now renv1 = Widget.now renv2 ->
  isRandom36 (Widget.random36 renv1) = true ->
  isRandom36 (Widget.random36 renv2) = true ->
  (Portfolio.filePath props env1 f1 = Portfolio.filePath props env2 f2 <->
   substring_from 2 (Portfolio.random36 env1) = substring_from 2 (Portfolio.random36 env2)
   /\ pop (split "." (name f1)) = pop (split "." (name f2)))
  /\
  (Widget.fileName uid renv1 f1 = Widget.fileName uid renv2 f2 <->
   substring_from 7 (Widget.random36 renv1) = substring_from 7 (Widget.random36 renv2)
   /\ pop (split "." (name f1)) = pop (split "." (name f2)))
  /\
  (forall st b p body u,
     In (Portfolio.Store (StorageUpload b p body u))
        (Portfolio.trace
           (snd (Portfolio.uploadFile props env1 f1 (Portfolio.fresh st)))) ->
     p = Portfolio.filePath props env1 f1 /\ u = false)
  /\
  (forall rprops b p body u,
     In (Widget.Store (StorageUpload b p body u))
        (snd (Robust.handleFileUpload rprops renv1 f1 [])) ->
     (exists owner, Widget.user renv1 = Some owner /\ p = Widget.fileName owner renv1 f1)
     /\ u = false).
Proof.
  intros N1 R1 R2 N2 R3 R4. split; [|split; [|split]].
  - rewrite !portfolio_filePath_shape, N1. unfold Portfolio.fileExt.
    apply key_eq_iff; apply random_suffix_notDot; auto.
  - rewrite !robust_fileName_shape, N2.
    apply key_eq_iff; apply random_suffix_notDot; auto; lia.
  - intros st b p body u H.
    destruct (uploadFile_upload_path props env1 f1 st b p body u H) as (_ & A & B & _).
    auto.
  - intros rprops b p body u H.
    destruct (robust_upload_path rprops renv1 f1 b p body u H) as (owner & A & B & _ & C).
    split; [exists owner; auto|exact C].
Qed.

Lemma storage_keys_equal_iff_witness :
  let env2 := {| Portfolio.session_user_id := Some "u1";
                 Portfolio.now := 1700000000000;
                 Portfolio.random36 := "0.zzz";
                 Portfolio.loadImage := fun _ => None;
                 Portfolio.getContext2d := true;
                 Portfolio.toBlob := fun _ _ _ _ _ => None;
                 Portfolio.storageUpload := fun _ p _ => UploadData p;
                 Portfolio.getPublicUrl := fun _ p => p |} in
  Portfolio.filePath Samples.recipeProps Samples.browser Samples.photo
  <> Portfolio.filePath Samples.recipeProps env2 Samples.photo.
Proof.
  intros env2 E.
  destruct (storage_keys_equal_iff Samples.recipeProps Samples.browser env2 "u1"
              Samples.robustBrowser Samples.robustBrowser Samples.photo Samples.photo
              eq_refl eq_refl eq_refl eq_refl eq_refl eq_refl) as [[H _] _].
  destruct (H E) as [D _]. vm_compute in D. discriminate D.
Defined.

End StorageKeys.

(* ================================================================== *)
(** * C4: the form of the storage key *)
(* ================================================================== *)

Section KeyForm.
Import JS Eff JSFacts CompressFacts StringFacts ValidateFacts.
Open Scope string_scope.

(** C4, as stated, fails: the recipe form uploads the photo [photo.png],
    a JPEG, under the key [recipes/1700000000000-k3j9x2ab.png].  The key
    starts with the [path] property, not with the id [u1] of the user, and
    its extension is that of the file name: [.png] is not an extension of
    [image/jpeg]. *)
Lemma uploadFile_key_not_owner_nor_mime :
  let w := snd (Portfolio.uploadFile Samples.recipeProps Samples.browser Samples.photo
                  Portfolio.initialWorld) in
  Portfolio.status (Portfolio.uploadState w) = Portfolio.success /\
  Portfolio.storeCalls (Portfolio.trace w)
  = [StorageUpload "recipe-images" "recipes/1700000000000-k3j9x2ab.png"
       Samples.photoCompressed false;
     StorageGetPublicUrl "recipe-images" "recipes/1700000000000-k3j9x2ab.png"] /\
  Portfolio.session_user_id Samples.browser = Some "u1" /\
  startsWith "recipes/1700000000000-k3j9x2ab.png" "u1/" = false /\
  type Samples.photoCompressed = "image/jpeg" /\
  In ("image/jpeg", [".jpg"; ".jpeg"]) Portfolio.ALLOWED_FILE_TYPES /\
  includes [".jpg"; ".jpeg"] ".png" = false.
Proof.
  cbv zeta. split; [vm_compute; reflexivity|]. split; [vm_compute; reflexivity|].
  split; [reflexivity|]. split; [reflexivity|]. split; [reflexivity|].
  split; [left; reflexivity|reflexivity].
Qed.

(** C4, amended.  An invocation of [uploadFile] that ends in the success
    state has written an object.  Every object written has a key of the form
    [<prefix><timestamp>-<random suffix>.<extension>], where the
    timestamp is [Date.now()] in decimal and:
    - in [EnhancedImageUpload] the prefix is [<path>/] when the [path]
      property is not empty and nothing otherwise, the suffix is the
      random text from its third character on, and the extension is what
      follows the last dot of the file name;
    - in [RobustImageUpload] the prefix is [<user id>/], the suffix is the
      random text from its eighth character on, and the extension is
      again that of the file name;
    - in the route [upload/:bucket] the prefix is [<user id>/images/] or
      [<user id>/videos/], the suffix is the first eight characters of a
      UUID, and the extension is [webp] when the type is [image/webp] and
      that of the file name otherwise.
    The extension of a name [base.e] with no dot in [e] is [e]; a name
    without a dot is its own extension. *)
Theorem storage_key_form :
  (forall props env file st s,
     let t := Portfolio.trace
                (snd (Portfolio.uploadFile props env file (Portfolio.fresh st))) in
     Portfolio.final (Portfolio.snapshots t) = Some s ->
     Portfolio.status s = Portfolio.success ->
     exists p body, In (Portfolio.Store (StorageUpload (Portfolio.bucket props) p body false)) t)
  /\
  (forall props env file st b p body u,
     In (Portfolio.Store (StorageUpload b p body u))
        (Portfolio.trace
           (snd (Portfolio.uploadFile props env file (Portfolio.fresh st)))) ->
     p = (if truthy (Portfolio.path props) then Portfolio.path props ++ "/" else "")
         ++ showN (Portfolio.now env) ++ "-"
         ++ substring_from 2 (Portfolio.random36 env) ++ "."
         ++ pop (split "." (name file)))
  /\
  (forall props env file b p body u,
     In (Widget.Store (StorageUpload b p body u))
        (snd (Robust.handleFileUpload props env file [])) ->
     exists uid,
       Widget.user env = Some uid /\
       p = uid ++ "/" ++ showN (Widget.now env) ++ "-"
           ++ substring_from 7 (Widget.random36 env) ++ "."
           ++ pop (split "." (name file)))
  /\
  (forall env req b p body u,
     In (Server.Store (StorageUpload b p body u)) (snd (Server.uploadRoute env req)) ->
     exists uid,
       fst (Server.getUserFromToken env req) = Some uid /\
       p = uid ++ "/"
           ++ (if includes Server.validVideoTypes (type body) then "videos" else "images")
           ++ "/" ++ showN (Server.now env) ++ "-"
           ++ substring_to 8 (Server.randomUUID env) ++ "."
           ++ (if String.eqb (type body) "image/webp" then "webp"
               else pop (split "." (name body))))
  /\
  (forall base e, all_chars notDot e = true -> pop (split "." (base ++ "." ++ e)) = e)
  /\
  (forall n, all_chars notDot n = true -> pop (split "." n) = n).
Proof.
  split; [|split; [|split; [|split; [|split]]]].
  - intros props env file st s t E Hs.
    destruct (uploadFile_success_writes props env file st s E Hs) as [body H].
    eauto.
  - intros props env file st b p body u H.
    destruct (uploadFile_upload_path props env file st b p body u H)
      as (_ & E & _). subst p.
    unfold Portfolio.filePath, Portfolio.fileName, Portfolio.fileExt.
    destruct (truthy (Portfolio.path props)); [|reflexivity].
    rewrite !append_assoc. reflexivity.
  - intros props env file b p body u H.
    destruct (robust_upload_path props env file b p body u H) as (uid & U & E & _).
    exists uid. split; [exact U|]. subst p. reflexivity.
  - intros env req b p body u H.
    destruct (server_upload_path env req b p body u H) as (uid & U & _ & E & _).
    exists uid. split; [exact U|]. subst p. reflexivity.
  - apply pop_split_last.
  - apply pop_split_nodot.
Qed.

Lemma storage_key_form_witness :
  "recipes/1700000000000-k3j9x2ab.png"
  = (if truthy (Portfolio.path Samples.recipeProps)
     then Portfolio.path Samples.recipeProps ++ "/" else "")
    ++ showN (Portfolio.now Samples.browser) ++ "-"
    ++ substring_from 2 (Portfolio.random36 Samples.browser) ++ "."
    ++ pop (split "." (name Samples.photo)).
Proof.
  apply (proj1 (proj2 storage_key_form) Samples.recipeProps Samples.browser Samples.photo
           Portfolio.idleState "recipe-images" "recipes/1700000000000-k3j9x2ab.png"
           Samples.photoCompressed false).
  vm_compute. auto 10.
Defined.

End KeyForm.

(* ================================================================== *)
(** * C9: uploads without a user *)
(* ================================================================== *)

Section Unauthenticated.
Import JS Eff.
Open Scope string_scope.

(** C9.  Without a session or user every upload entry point stops at
    once: [uploadFile] throws "User not authenticated" and leaves the
    state and the trace as they were; the three [handleFileUpload] only
    set their error message; the two upload routes answer 401 and do
    nothing.  The answer does not depend on the file: nothing is
    validated, compressed or sent to the store.  A request without an
    [Authorization] header has no user. *)
Theorem unauthenticated_upload_rejected :
  (forall props env file w,
     Portfolio.authenticated env = false ->
     Portfolio.uploadFile props env file w
     = (Throw (mkError "User not authenticated"), w))
  /\
  (forall props env file t,
     Widget.user env = None ->
     Simple.handleFileUpload props env file t
     = (Normal tt,
        (t ++ [Widget.Set_ (Widget.SetUploadError
                              "You must be logged in to upload images")])%list))
  /\
  (forall props env file t,
     Widget.user env = None ->
     Robust.handleFileUpload props env file t
     = (Normal tt,
        (t ++ [Widget.Set_ (Widget.SetUploadError
                              "You must be logged in to upload images")])%list))
  /\
  (forall props env file t,
     Widget.user env = None ->
     FixedMedia.handleFileUpload props env file t
     = (Normal tt,
        (t ++ [Widget.Set_ (Widget.SetUploadError
                              "You must be logged in to upload files")])%list))
  /\
  (forall env req,
     fst (Server.getUserFromToken env req) = None ->
     Server.status (fst (Server.uploadImageRoute env req)) = 401%N /\
     snd (Server.uploadImageRoute env req) = [] /\
     Server.status (fst (Server.uploadRoute env req)) = 401%N /\
     snd (Server.uploadRoute env req) = [])
  /\
  (forall env req,
     Server.authorization req = None ->
     Server.getUserFromToken env req = (None, Some "No token provided")).
Proof.
  split; [|split; [|split; [|split; [|split]]]].
  - intros props env file w H. unfold Portfolio.uploadFile. rewrite H. reflexivity.
  - intros props env file t H. unfold Simple.handleFileUpload. rewrite H. reflexivity.
  - intros props env file t H. unfold Robust.handleFileUpload. rewrite H. reflexivity.
  - intros props env file t H. unfold FixedMedia.handleFileUpload. rewrite H. reflexivity.
  - intros env req H. unfold Server.uploadImageRoute, Server.uploadRoute.
    destruct (Server.getUserFromToken env req) as [[uid|] err]; [discriminate H|].
    repeat split; reflexivity.
  - intros env req H. unfold Server.getUserFromToken. rewrite H. reflexivity.
Qed.

Lemma unauthenticated_upload_rejected_witness :
  Portfolio.uploadFile Samples.recipeProps Samples.signedOut Samples.photo
    Portfolio.initialWorld
  = (Throw (mkError "User not authenticated"), Portfolio.initialWorld)
  /\
  Robust.handleFileUpload Samples.robustProps Samples.widgetSignedOut Samples.photo []
  = (Normal tt,
     [Widget.Set_ (Widget.SetUploadError "You must be logged in to upload images")])
  /\
  Server.uploadRoute Samples.server Samples.anonymousUpload
  = ({| Server.status := 401; Server.body := Server.ErrorBody "No token provided" |}, []).
Proof.
  destruct unauthenticated_upload_rejected as (P & _ & R & _ & S & _).
  split; [apply P; reflexivity|]. split; [apply (R _ _ _ []); reflexivity|].
  destruct (S Samples.server Samples.anonymousUpload eq_refl) as (_ & _ & A & B).
  reflexivity.
Defined.

End Unauthenticated.

(* ================================================================== *)
(** * C10: the delete route *)
(* ================================================================== *)

Section DeleteFile.
Import JS Eff Server.
Open Scope string_scope.

(** C10, as stated, fails: user [u1] asks to delete [u2/a.png] without
    naming a bucket.  The name lacks the prefix [u1/], and the answer is
    400, not 403.  (With a bucket it is 403.) *)
Lemma deleteFile_foreign_without_bucket_is_400 :
  fst (getUserFromToken Samples.server (Samples.deleteForeign JAbsent)) = Some "u1" /\
  startsWith "u2/a.png" ("u1" ++ "/") = false /\
  deleteFileRoute Samples.server (Samples.deleteForeign JAbsent)
  = ({| status := 400; body := ErrorBody "fileName and bucket are required" |}, []) /\
  deleteFileRoute Samples.server (Samples.deleteForeign (JString "make-cfac176d-recipes"))
  = ({| status := 403; body := ErrorBody "Unauthorized to delete this file" |}, []).
Proof. repeat split; reflexivity. Qed.

(** C10, amended.  The delete route calls [remove] on the store only for
    a [fileName] that is a string starting with the id of the requesting
    user and a slash, and then for that name alone, in the bucket named;
    it answers 200, or 500 when the store reports an error.  Every other
    request leaves the store alone (so the stored objects are as before,
    whatever the store is) and is answered with an error, decided in
    this order: 401 without a user; 500 when the body cannot be read or
    is [null]; 400 when [fileName] or [bucket] is missing or falsy; 500
    when both are truthy and [fileName] is not a string; 403 when
    [fileName] is a string without the prefix. *)
Theorem deleteFile_only_own_files (env : Env) (req : Request) :
  let resp := fst (deleteFileRoute env req) in
  let effects := snd (deleteFileRoute env req) in
  (forall b ps,
     In (Store (StorageRemove b ps)) effects ->
     exists uid fn bucket,
       fst (getUserFromToken env req) = Some uid /\
       json req = JsonFields (JString fn) bucket /\
       startsWith fn (uid ++ "/") = true /\
       ps = [fn] /\ b = json_toString bucket)
  /\
  (fst (getUserFromToken env req) = None ->
   status resp = 401%N /\ effects = [])
  /\
  (forall uid,
     fst (getUserFromToken env req) = Some uid ->
     (json req = JsonUnreadable ->
      resp = {| status := 500; body := ErrorBody "Internal server error deleting file" |} /\
      storeCalls effects = [])
     /\
     (forall fileName bucket,
        json req = JsonFields fileName bucket ->
        (json_truthy fileName = false \/ json_truthy bucket = false ->
         resp = {| status := 400; body := ErrorBody "fileName and bucket are required" |} /\
         effects = [])
        /\
        (json_truthy fileName = true -> json_truthy bucket = true ->
         ((forall fn, fileName <> JString fn) ->
          resp = {| status := 500;
                    body := ErrorBody "Internal server error deleting file" |} /\
          storeCalls effects = [])
         /\
         (forall fn, fileName = JString fn ->
            (startsWith fn (uid ++ "/") = false ->
             resp = {| status := 403;
                       body := ErrorBody "Unauthorized to delete this file" |} /\
             effects = [])
            /\
            (startsWith fn (uid ++ "/") = true ->
             storeCalls effects = [StorageRemove (json_toString bucket) [fn]] /\
             resp = match storageRemove env (json_toString bucket) [fn] with
                    | None => {| status := 200; body := SuccessBody |}
                    | Some _ => {| status := 500;
                                   body := ErrorBody "Failed to delete file" |}
                    end)))
        /\
        ((forall fn, fileName = JString fn -> startsWith fn (uid ++ "/") = false) ->
         storeCalls effects = [] /\
         (forall (S : Type) (step : StoreCall -> S -> S) (s : S),
            applyCalls step (storeCalls effects) s = s)))).
Proof.
  cbv zeta. unfold deleteFileRoute.
  destruct (getUserFromToken env req) as [[uid|] err]; cbn [fst snd].
  2:{ split; [intros b ps []|]. split; [intros _; split; reflexivity|].
      intros uid H. discriminate H. }
  split; [|split; [intros H; discriminate H|]].
  - destruct (json req) as [|fileName bucket];
      [intros b ps [H|[]]; discriminate H|].
    destruct (json_truthy fileName); [|intros b ps []].
    destruct (json_truthy bucket); cbn [negb orb]; [|intros b ps []].
    destruct fileName as [| |fn|tr str]; try (intros b ps [H|[]]; discriminate H).
    destruct (startsWith fn (uid ++ "/")) eqn:P; cbn [negb]; [|intros b ps []].
    destruct (storageRemove env _ _); intros b ps H;
      repeat (destruct H as [H|H]; try discriminate H); try contradiction;
      inversion H; subst; exists uid, fn, bucket; auto.
  - intros uid' U. inversion U; subst uid'. clear U.
    split.
    { intros J. rewrite J. split; reflexivity. }
    intros fileName bucket J. rewrite J. split; [|split].
    + intros [F|F]; rewrite F; [|rewrite orb_true_r]; split; reflexivity.
    + intros TF TB. rewrite TF, TB. cbn [negb orb]. split.
      * intros Hno. destruct fileName as [| |fn|tr str];
          try (split; reflexivity).
        exfalso. exact (Hno fn eq_refl).
      * intros fn E. subst fileName. split; intros P; rewrite P; cbn [negb].
        -- split; reflexivity.
        -- destruct (storageRemove env _ _); split; reflexivity.
    + intros Hno.
      destruct (json_truthy fileName); cbn [negb orb];
        [destruct (json_truthy bucket); cbn [negb orb]|];
        try (split; [reflexivity|intros S step s; reflexivity]).
      destruct fileName as [| |fn|tr str];
        try (split; [reflexivity|intros S step s; reflexivity]).
      rewrite (Hno fn eq_refl). split; [reflexivity|intros S step s; reflexivity].
Qed.

Lemma deleteFile_only_own_files_witness :
  storeCalls (snd (deleteFileRoute Samples.server
                     (Samples.deleteForeign (JString "make-cfac176d-recipes")))) = []
  /\ fst (deleteFileRoute Samples.server
            (Samples.deleteForeign (JString "make-cfac176d-recipes")))
     = {| status := 403; body := ErrorBody "Unauthorized to delete this file" |}.
Proof.
  destruct (deleteFile_only_own_files Samples.server
              (Samples.deleteForeign (JString "make-cfac176d-recipes")))
    as (_ & _ & H).
  destruct (H "u1" eq_refl) as (_ & F).
  destruct (F (JString "u2/a.png") (JString "make-cfac176d-recipes") eq_refl)
    as (_ & T & U).
  split.
  - apply U. intros fn E. inversion E; subst. reflexivity.
  - destruct (T eq_refl eq_refl) as (_ & Str).
    destruct (Str "u2/a.png" eq_refl) as (No & _).
    apply No. reflexivity.
Defined.

(** A user's own file is removed. *)
Example deleteFile_own_file :
  deleteFileRoute Samples.server
    {| authorization := Some "Bearer tok"; bucketParam := "";
       formData := FormUnreadable;
       json := JsonFields (JString "u1/a.png") (JString "make-cfac176d-recipes") |}
  = ({| status := 200; body := SuccessBody |},
     [Store (StorageRemove "make-cfac176d-recipes" ["u1/a.png"])]).
Proof. reflexivity. Qed.

End DeleteFile.

(* ================================================================== *)
(** * Further properties of EnhancedImageUpload *)
(* ================================================================== *)

Section EnhancedMore.
Import JS Eff Portfolio JSFacts CompressFacts StringFacts ValidateFacts Observe.
Open Scope string_scope.

Ltac upload_cases props env file :=
  unfold uploadFile, fresh;
  destruct (authenticated env) eqn:?A; cbn [negb];
  [ destruct (validateFile (maxSize props) file) as [?validationError|] eqn:?V;
    [ | unfold compressImage, bind, try_catch, throw, ret, emit, setUploadState;
        cbn [uploadState trace app];
        destruct (loadImage env file) as [[?iw ?ih]|] eqn:?L;
        [ destruct (getContext2d env) eqn:?G; cbn [negb];
          [ destruct (toBlob env file _ _ _ _) as [?blob|] eqn:?B;
            [ cbn [uploadState trace app];
              destruct (gt _ 10) eqn:?R;
              cbn [uploadState trace app];
              destruct (storageUpload env _ _ _) as [?dataPath|?err] eqn:?U
            | ]
          | ]
        | ]
    ]
  | ];
  destruct (hasOnError props) eqn:?O;
  cbn -[filePath compressionRatioOf optimalDimensions canvasWidth canvasHeight
        errorMessageOf getPublicUrl invalidTypeMessage].

(** X1.  [validateFile] accepts a file exactly when its type is one of the
    four allowed ones and its size is at most [maxSize] times [2^20]
    bytes. *)
Theorem validateFile_accepts_iff (maxSize : N) (file : File) :
  (size file < 9007199254740992)%N ->
  (validateFile maxSize file = None <->
   includes (Object_keys ALLOWED_FILE_TYPES) (type file) = true /\
   (size file <= maxSize * 1048576)%N).
Proof.
  intros Hn. split.
  - intros H. destruct (includes (Object_keys ALLOWED_FILE_TYPES) (type file)) eqn:T.
    + split; [reflexivity|].
      destruct (N.le_gt_cases (size file) (maxSize * 1048576)) as [L|G]; [exact L|].
      rewrite (validateFile_oversized maxSize file T Hn G) in H. discriminate H.
    + rewrite (validateFile_disallowed maxSize file T) in H. discriminate H.
  - intros [T L]. apply validateFile_accepts; assumption.
Qed.

Lemma validateFile_accepts_iff_witness :
  validateFile 10 Samples.photo = None <->
  includes (Object_keys ALLOWED_FILE_TYPES) (type Samples.photo) = true /\
  (size Samples.photo <= 10 * 1048576)%N.
Proof. apply (validateFile_accepts_iff 10 Samples.photo). reflexivity. Defined.

(** X2.  One invocation of [uploadFile] calls the store not at all, or once to
    upload the compressed file under [filePath] (never overwriting), or,
    when that upload was accepted, a second time to ask for the public
    URL of the path the store returned.  [onUpload] is called once, with
    that URL and the metadata, exactly when the invocation ends in the
    success state, and not otherwise. *)
Theorem uploadFile_store_discipline
    (props : Props) (env : Env) (file : File) (st : UploadState) :
  let r := uploadFile props env file (fresh st) in
  let t := trace (snd r) in
  let key := filePath props env file in
  (storeCalls t = [] /\ onUploads t = [] /\
     (fst r = Normal tt -> status (uploadState (snd r)) = error)
   \/ (exists cf e,
         storeCalls t = [StorageUpload (bucket props) key cf false] /\
         storageUpload env (bucket props) key cf = UploadError e /\
         onUploads t = [] /\ status (uploadState (snd r)) = error)
   \/ (exists cf p m,
         storeCalls t = [StorageUpload (bucket props) key cf false;
                         StorageGetPublicUrl (bucket props) p] /\
         storageUpload env (bucket props) key cf = UploadData p /\
         onUploads t = [(getPublicUrl env (bucket props) p, m)] /\
         fst r = Normal tt /\
         status (uploadState (snd r)) = success /\
         preview (uploadState (snd r)) = Some (getPublicUrl env (bucket props) p) /\
         metadata (uploadState (snd r)) = Some m)).
Proof.
  upload_cases props env file.
  all: try (left; repeat split; try reflexivity; intros H; discriminate H).
  all: try (right; left; eexists _, _; repeat split; try reflexivity; eassumption).
  all: right; right; eexists _, _, _; repeat split; try reflexivity; eassumption.
Qed.

(** X3.  When the image cannot be decoded, the canvas has no 2d context or the
    encoder returns no blob, [uploadFile] uploads nothing: it ends in the
    error state with the message of that failure, at progress 30, and has
    shown the message in a toast. *)
Theorem uploadFile_compression_failure
    (props : Props) (env : Env) (file : File) (st : UploadState)
    (w0 w1 : World) (e : JsError) :
  authenticated env = true ->
  validateFile (maxSize props) file = None ->
  compressImage env file w0 = (Throw e, w1) ->
  let r := uploadFile props env file (fresh st) in
  fst r = Normal tt /\
  storeCalls (trace (snd r)) = [] /\
  status (uploadState (snd r)) = error /\
  progress (uploadState (snd r)) = 30%N /\
  error_message (uploadState (snd r)) = Some (message e) /\
  In (message e) ["Failed to load image"; "Failed to get canvas context";
                  "Failed to compress image"] /\
  In (Toast (ToastError (message e))) (trace (snd r)).
Proof.
  intros HA HV HC. cbv zeta. revert HA HV HC.
  unfold compressImage at 1. unfold bind, emit, throw, ret.
  upload_cases props env file.
  all: intros HA HV HC; try discriminate HA; try discriminate HV; try discriminate HC.
  all: inversion HC; subst; cbn; repeat split; auto 10.
Qed.

Lemma uploadFile_compression_failure_witness :
  let env := {| session_user_id := Some "u1"; now := 1700000000000;
                random36 := "0.k3j9x2ab"; loadImage := fun _ => None;
                getContext2d := true; toBlob := fun _ _ _ _ _ => None;
                storageUpload := fun _ p _ => UploadData p;
                getPublicUrl := fun _ p => p |} in
  let r := uploadFile Samples.recipeProps env Samples.photo (fresh idleState) in
  storeCalls (trace (snd r)) = [] /\
  error_message (uploadState (snd r)) = Some "Failed to load image".
Proof.
  intros env r.
  destruct (uploadFile_compression_failure Samples.recipeProps env Samples.photo
              idleState initialWorld
              {| uploadState := idleState; trace := [CompressImage Samples.photo] |}
              (mkError "Failed to load image"))
    as (_ & A & _ & _ & B & _).
  - reflexivity.
  - vm_compute. reflexivity.
  - reflexivity.
  - split; [exact A|exact B].
Defined.

End EnhancedMore.

(* ================================================================== *)
(** * The three upload widgets *)
(* ================================================================== *)

Section Widgets.
Import JS Eff Widget JSFacts CompressFacts StringFacts ValidateFacts Observe WidgetRuns.
Open Scope string_scope.

Ltac widget_cases env file :=
  unfold bind, try_finally, try_catch, throw, ret, set, emit;
  destruct (user env) as [?userId|] eqn:?Hu;
  [ destruct (includes _ (type file)) eqn:?Ht; cbn [negb];
    [ destruct (gt (ofN (size file)) _) eqn:?Hs;
      [ | cbn [app];
          destruct (storageUpload env _ _ file) as [?dataPath|?uploadError] eqn:?Hup;
          [ cbn [app];
            destruct (getPublicUrl env _ _) as [?publicUrl|] eqn:?Hurl;
            [ destruct (truthy publicUrl) eqn:?Htr; cbn [negb];
              [ destruct (fileInputMounted env) eqn:?Hm | ]
            | ]
          | ]
      ]
    | ]
  | ].

(** A size limit in megabytes, multiplied out as the components do it,
    is the exact number of bytes. *)
Lemma megabytes_exact (m : N) :
  (m < 9007199254740992)%N ->
  mul (mul (ofN m) 1024) 1024 == ofN (m * 1048576).
Proof.
  intros Hm. unfold mul.
  assert (B : (Z.abs (Z.of_N m) < 2 ^ 53)%Z)
    by (change (2 ^ 53)%Z with 9007199254740992%Z; lia).
  assert (E1 : ofN m * 1024 == inject_Z (Z.of_N m) * pow2 10).
  { unfold ofN. change (pow2 10) with (inject_Z 1024). reflexivity. }
  rewrite E1, (round64_exact (Z.of_N m) 10 B).
  assert (E2 : inject_Z (Z.of_N m) * pow2 10 * 1024 == inject_Z (Z.of_N m) * pow2 20).
  { change (pow2 10) with (inject_Z 1024). change (pow2 20) with (inject_Z 1048576).
    change 1024 with (inject_Z 1024). rewrite <- !inject_Z_mult.
    apply inject_Z_injective. lia. }
  rewrite E2, (round64_exact (Z.of_N m) 20 B).
  unfold ofN. change (pow2 20) with (inject_Z 1048576). rewrite <- inject_Z_mult.
  apply inject_Z_injective. lia.
Qed.

Lemma over_limit_iff (m n : N) :
  (m < 9007199254740992)%N ->
  gt (ofN n) (mul (mul (ofN m) 1024) 1024) = true <-> (m * 1048576 < n)%N.
Proof.
  intros Hm. rewrite gt_true, (megabytes_exact m Hm). symmetry. apply ofN_lt.
Qed.

Lemma under_limit_iff (m n : N) :
  (m < 9007199254740992)%N ->
  gt (ofN n) (mul (mul (ofN m) 1024) 1024) = false <-> (n <= m * 1048576)%N.
Proof.
  intros Hm. rewrite gt_false, (megabytes_exact m Hm). symmetry. apply ofN_le.
Qed.

Ltac settle :=
  split; [reflexivity|];
  first [ left; repeat split; reflexivity
        | right; split; [reflexivity|]; split; [reflexivity|];
          match goal with
          | |- exists t, ?l = _ => 
              let rec go l :=
                lazymatch l with
                | [?a; ?b] => constr:(@nil Effect)
                | ?x :: ?tl => let r := go tl in constr:(x :: r)
                end in
              let t := go l in exists t; reflexivity
          end ].

(** X4.  None of the three [handleFileUpload] ever throws, whatever the store
    answers.  A file refused before the upload leaves the uploading flag,
    the store and the timers alone; once the flag is raised it is lowered
    again on every path, and the run ends by starting the timer that
    clears the progress (after 1000 ms in SimpleImageUpload and
    FixedMediaUpload, 2000 ms in RobustImageUpload). *)
Theorem handleFileUpload_settles (env : Env) (file : File) :
  (forall props, settled 1000 [SetUploadProgress 0]
                   (Simple.handleFileUpload props env file [])) /\
  (forall props, settled 2000 [SetUploadProgress 0; SetUploadSuccess ""]
                   (Robust.handleFileUpload props env file [])) /\
  (forall props, settled 1000 [SetUploadProgress 0; SetUploadSuccess ""]
                   (FixedMedia.handleFileUpload props env file [])).
Proof.
  split; [|split]; intros props; unfold settled.
  - unfold Simple.handleFileUpload. widget_cases env file; cbn; settle.
  - unfold Robust.handleFileUpload. widget_cases env file; cbn; settle.
  - unfold FixedMedia.handleFileUpload. widget_cases env file; cbn; settle.
Qed.

(** X5.  Every run of a [handleFileUpload] tells its caller exactly one
    thing: the change callback once, with the non-empty public URL of the
    key just uploaded and after exactly the two store calls, or one error
    message and no callback; never both and never neither. *)
Theorem handleFileUpload_answers_once (env : Env) (file : File) :
  (forall props, answered ("make-cfac176d-" ++ Simple.bucket props) env file
                   (Simple.handleFileUpload props env file [])) /\
  (forall props, answered ("make-cfac176d-" ++ Robust.bucket props) env file
                   (Robust.handleFileUpload props env file [])) /\
  (forall props, answered ("make-cfac176d-" ++ FixedMedia.bucket props) env file
                   (FixedMedia.handleFileUpload props env file [])).
Proof.
  split; [|split]; intros props; unfold answered.
  - unfold Simple.handleFileUpload. widget_cases env file; cbn.
    all: try (right; eexists; split; reflexivity).
    all: left; exists userId, publicUrl; repeat split; try reflexivity; try assumption.
    all: eexists; eassumption.
  - unfold Robust.handleFileUpload, Robust.tooLargeMessage, Robust.bucketName.
    widget_cases env file; cbn.
    all: try (right; eexists; split; reflexivity).
    all: left; exists userId, publicUrl; repeat split; try reflexivity; try assumption.
    all: eexists; eassumption.
  - unfold FixedMedia.handleFileUpload. widget_cases env file; cbn.
    all: try (right; eexists; split; reflexivity).
    all: left; exists userId, publicUrl; repeat split; try reflexivity; try assumption.
    all: eexists; eassumption.
Qed.

Lemma simple_store_cases (props : Simple.Props) (env : Env) (file : File) :
  let calls := storeCalls (snd (Simple.handleFileUpload props env file [])) in
  (calls = [] /\
   (user env = None \/ includes imageTypes (type file) = false \/
    gt (ofN (size file)) (mul (mul (ofN (Simple.maxSizeMB props)) 1024) 1024) = true))
  \/ (exists userId, user env = Some userId /\
        includes imageTypes (type file) = true /\
        gt (ofN (size file)) (mul (mul (ofN (Simple.maxSizeMB props)) 1024) 1024) = false /\
        uploadsTo ("make-cfac176d-" ++ Simple.bucket props) (fileName userId env file)
          file calls).
Proof.
  cbv zeta. unfold Simple.handleFileUpload, Simple.validTypes, uploadsTo.
  widget_cases env file; cbn.
  all: try (left; split; [reflexivity|]; auto; fail).
  all: right; exists userId; repeat split; try assumption; eexists; reflexivity.
Qed.

Lemma robust_store_cases (props : Robust.Props) (env : Env) (file : File) :
  let calls := storeCalls (snd (Robust.handleFileUpload props env file [])) in
  (calls = [] /\
   (user env = None \/ includes imageTypes (type file) = false \/
    gt (ofN (size file)) (mul (mul (ofN (Robust.maxSizeMB props)) 1024) 1024) = true))
  \/ (exists userId, user env = Some userId /\
        includes imageTypes (type file) = true /\
        gt (ofN (size file)) (mul (mul (ofN (Robust.maxSizeMB props)) 1024) 1024) = false /\
        uploadsTo ("make-cfac176d-" ++ Robust.bucket props) (fileName userId env file)
          file calls).
Proof.
  cbv zeta. unfold Robust.handleFileUpload, Robust.validTypes, Robust.bucketName, uploadsTo.
  widget_cases env file; cbn.
  all: try (left; split; [reflexivity|]; auto; fail).
  all: right; exists userId; repeat split; try assumption; eexists; reflexivity.
Qed.

Lemma uploadsTo_nonempty (b key : string) (file : File) (calls : list StoreCall) :
  uploadsTo b key file calls -> calls <> [].
Proof. intros [rest E] N. rewrite N in E. discriminate E. Qed.

(** X6.  SimpleImageUpload and RobustImageUpload call the store exactly when
    someone is signed in, the file's type is one of the five image types
    and its size is at most [maxSizeMB] times [2^20] bytes; the first
    call then uploads the file itself, never overwriting, into the
    prefixed bucket under the key that starts with the user's id. *)
Theorem image_upload_reaches_store_iff (env : Env) (file : File) (bucket : string)
    (maxSizeMB : N) :
  (size file < 9007199254740992)%N ->
  (maxSizeMB < 9007199254740992)%N ->
  let ok userId :=
      user env = Some userId /\
      includes imageTypes (type file) = true /\
      (size file <= maxSizeMB * 1048576)%N in
  let simple := storeCalls (snd (Simple.handleFileUpload
                                   (Simple.mkProps bucket maxSizeMB) env file [])) in
  let robust := storeCalls (snd (Robust.handleFileUpload
                                   (Robust.mkProps bucket maxSizeMB) env file [])) in
  (simple <> [] <-> exists userId, ok userId) /\
  (robust <> [] <-> exists userId, ok userId) /\
  (forall userId, ok userId ->
     uploadsTo ("make-cfac176d-" ++ bucket) (fileName userId env file) file simple /\
     uploadsTo ("make-cfac176d-" ++ bucket) (fileName userId env file) file robust).
Proof.
  intros Hn Hm. cbv zeta.
  pose proof (simple_store_cases (Simple.mkProps bucket maxSizeMB) env file) as S.
  pose proof (robust_store_cases (Robust.mkProps bucket maxSizeMB) env file) as R.
  cbv zeta in S, R. cbn [Simple.maxSizeMB Simple.bucket Robust.maxSizeMB Robust.bucket] in S, R.
  pose proof (over_limit_iff maxSizeMB (size file) Hm) as Over.
  pose proof (under_limit_iff maxSizeMB (size file) Hm) as Under.
  assert (Refused : user env = None \/ includes imageTypes (type file) = false \/
            gt (ofN (size file)) (mul (mul (ofN maxSizeMB) 1024) 1024) = true ->
          forall u, ~ (user env = Some u /\ includes imageTypes (type file) = true /\
                      (size file <= maxSizeMB * 1048576)%N)).
  { intros [E|[E|E]] u (A & B & C).
    - rewrite E in A. discriminate A.
    - rewrite E in B. discriminate B.
    - apply Over in E. lia. }
  split; [|split].
  - destruct S as [[E Why]|(u & A & B & C & D)].
    + rewrite E. split; [intros H; contradiction|].
      intros [u Hu]. exfalso. exact (Refused Why u Hu).
    + split; [|intros _; exact (uploadsTo_nonempty _ _ _ _ D)].
      intros _. exists u. repeat split; try assumption. apply Under, C.
  - destruct R as [[E Why]|(u & A & B & C & D)].
    + rewrite E. split; [intros H; contradiction|].
      intros [u Hu]. exfalso. exact (Refused Why u Hu).
    + split; [|intros _; exact (uploadsTo_nonempty _ _ _ _ D)].
      intros _. exists u. repeat split; try assumption. apply Under, C.
  - intros u Hu. split.
    + destruct S as [[E Why]|(u' & A & B & C & D)].
      * exfalso. exact (Refused Why u Hu).
      * destruct Hu as (A' & _). rewrite A in A'. inversion A'; subst. exact D.
    + destruct R as [[E Why]|(u' & A & B & C & D)].
      * exfalso. exact (Refused Why u Hu).
      * destruct Hu as (A' & _). rewrite A in A'. inversion A'; subst. exact D.
Qed.

Lemma image_upload_reaches_store_iff_witness :
  storeCalls (snd (Robust.handleFileUpload (Robust.mkProps "recipes" 10)
                     Samples.robustBrowser Samples.photo [])) <> [] <->
  exists userId,
    user Samples.robustBrowser = Some userId /\
    includes imageTypes (type Samples.photo) = true /\
    (size Samples.photo <= 10 * 1048576)%N.
Proof.
  apply (image_upload_reaches_store_iff Samples.robustBrowser Samples.photo "recipes" 10).
  - reflexivity.
  - reflexivity.
Defined.

Lemma includes_In (l : list string) (x : string) : includes l x = true <-> In x l.
Proof.
  unfold includes. rewrite existsb_exists. split.
  - intros (y & Hy & E). apply String.eqb_eq in E. subst. exact Hy.
  - intros H. exists x. split; [exact H|apply String.eqb_refl].
Qed.

(** What FixedMediaUpload does with an accepted type: the byte limit is
    the one of [getMaxSize], the limit named in the message the one of
    [sizeLimitMB]. *)
Lemma fixedMedia_size_cases (props : FixedMedia.Props) (env : Env) (file : File)
    (userId : string) :
  user env = Some userId ->
  includes (FixedMedia.getAcceptedTypes props) (type file) = true ->
  let t := snd (FixedMedia.handleFileUpload props env file []) in
  let named := match FixedMedia.maxSizeMB_given props with
               | Some n => n
               | None => if startsWith (type file) "video/" then 50%N else 10%N
               end in
  (gt (ofN (size file)) (FixedMedia.getMaxSize props) = false ->
   uploadsTo ("make-cfac176d-" ++ FixedMedia.bucket props) (fileName userId env file)
     file (storeCalls t)) /\
  (gt (ofN (size file)) (FixedMedia.getMaxSize props) = true ->
   storeCalls t = [] /\ onChanges t = [] /\
   errorsShown t = ["File size must be less than " ++ showN named ++ "MB"]).
Proof.
  intros Hu Ht. cbv zeta. unfold FixedMedia.handleFileUpload, uploadsTo.
  widget_cases env file; try discriminate Hu; try discriminate Ht;
    inversion Hu; subst; cbn.
  all: split; intros H; try discriminate H.
  all: try (eexists; reflexivity).
  repeat split; reflexivity.
Qed.

(** X7.  FixedMediaUpload with images and videos allowed and no [maxSizeMB]
    given takes an image of up to 50 MB, the limit meant for videos: it
    uploads it.  An image above 50 MB is refused without a call on the
    store, with a message that names 10 MB as the limit. *)
Theorem fixedMedia_image_limit (props : FixedMedia.Props) (env : Env) (file : File)
    (userId : string) :
  user env = Some userId ->
  FixedMedia.maxSizeMB_given props = None ->
  FixedMedia.allowImage props = true ->
  FixedMedia.allowVideo props = true ->
  includes imageTypes (type file) = true ->
  (size file < 9007199254740992)%N ->
  let t := snd (FixedMedia.handleFileUpload props env file []) in
  ((size file <= 50 * 1048576)%N ->
   uploadsTo ("make-cfac176d-" ++ FixedMedia.bucket props) (fileName userId env file)
     file (storeCalls t)) /\
  ((50 * 1048576 < size file)%N ->
   storeCalls t = [] /\ onChanges t = [] /\
   errorsShown t = ["File size must be less than 10MB"]).
Proof.
  intros Hu Hg Hi Hv Ht Hn. cbv zeta.
  assert (Acc : includes (FixedMedia.getAcceptedTypes props) (type file) = true).
  { unfold FixedMedia.getAcceptedTypes. rewrite Hi, Hv.
    apply includes_In, in_or_app. left. apply includes_In, Ht. }
  assert (NotVideo : startsWith (type file) "video/" = false).
  { apply includes_In in Ht. unfold imageTypes in Ht. cbn [In] in Ht.
    repeat (destruct Ht as [Ht|Ht]; [rewrite <- Ht; reflexivity|]). contradiction. }
  assert (Max : FixedMedia.getMaxSize props = mul (mul (ofN 50) 1024) 1024).
  { unfold FixedMedia.getMaxSize. rewrite Hg, Hv. reflexivity. }
  pose proof (fixedMedia_size_cases props env file userId Hu Acc) as [Under Over].
  rewrite Hg, NotVideo, Max in *.
  split; intros H.
  - apply Under. apply under_limit_iff; [reflexivity|exact H].
  - apply Over. apply over_limit_iff; [reflexivity|exact H].
Qed.

Lemma fixedMedia_image_limit_witness :
  let props := FixedMedia.mkProps "recipes" true true None in
  let file := {| name := "big.png"; type := "image/png"; size := 60 * Samples.MB |} in
  let t := snd (FixedMedia.handleFileUpload props Samples.robustBrowser file []) in
  storeCalls t = [] /\ onChanges t = [] /\
  errorsShown t = ["File size must be less than 10MB"].
Proof.
  intros props file t.
  apply (fixedMedia_image_limit props Samples.robustBrowser file "u1");
    try reflexivity.
Defined.

End Widgets.

(* ================================================================== *)
(** * The edge function: tokens, uploads and their deletion *)
(* ================================================================== *)

Section ServerMore.
Import JS Eff Server JSFacts CompressFacts StringFacts ValidateFacts Chars.
Open Scope string_scope.

Lemma split_without (sep : ascii) (s : string) :
  without sep s = true -> split sep s = [s].
Proof.
  unfold without. induction s as [|c s IH]; simpl; intros H; [reflexivity|].
  apply andb_true_iff in H. destruct H as [A B].
  unfold notChar in A. apply negb_true_iff in A. rewrite A, (IH B). reflexivity.
Qed.

Lemma split_first_two (sep : ascii) (a b more : string) :
  without sep a = true -> without sep b = true ->
  more = "" \/ (exists x, more = String sep x) ->
  at_index (split sep (a ++ String sep (b ++ more))) 1 = Some b.
Proof.
  intros Ha Hb Hm. rewrite split_append, (split_without sep a Ha).
  destruct Hm as [E|[x E]]; subst more.
  - replace (b ++ "") with b by (clear; induction b; simpl; congruence).
    rewrite (split_without sep b Hb). reflexivity.
  - rewrite split_append, (split_without sep b Hb). reflexivity.
Qed.

(** X8.  [getUserFromToken] reads the second space-separated word of the
    [Authorization] header as the token, whatever the first word is and
    whatever follows the second: it does not look for the scheme
    [Bearer].  An empty second word counts as no token. *)
Theorem getUserFromToken_second_word
    (env : Env) (req : Request) (scheme tok more : string) :
  without " " scheme = true ->
  without " " tok = true ->
  more = "" \/ (exists x, more = " " ++ x) ->
  authorization req = Some (scheme ++ " " ++ tok ++ more) ->
  getUserFromToken env req =
  if truthy tok then authGetUser env tok else (None, Some "No token provided").
Proof.
  intros Hs Ht Hm Ha. unfold getUserFromToken. rewrite Ha.
  change (scheme ++ " " ++ tok ++ more) with (scheme ++ String " " (tok ++ more)).
  rewrite (split_first_two " " scheme tok more Hs Ht Hm).
  destruct (truthy tok); reflexivity.
Qed.

Lemma getUserFromToken_second_word_witness :
  getUserFromToken Samples.server
    {| authorization := Some "Basic tok trailing"; bucketParam := "";
       formData := FormUnreadable; json := JsonUnreadable |}
  = (Some "u1", None).
Proof.
  apply (getUserFromToken_second_word Samples.server
           {| authorization := Some "Basic tok trailing"; bucketParam := "";
              formData := FormUnreadable; json := JsonUnreadable |}
           "Basic" "tok" " trailing").
  - reflexivity.
  - reflexivity.
  - right. exists "trailing". reflexivity.
  - reflexivity.
Defined.

(** X9.  A header of one word, like a missing header, carries no token: the
    auth service is not asked, and the answer is "No token provided". *)
Theorem getUserFromToken_one_word (env : Env) (req : Request) (h : string) :
  without " " h = true ->
  authorization req = Some h ->
  getUserFromToken env req = (None, Some "No token provided") /\
  uploadRoute env req = (jsonResponse (ErrorBody "No token provided") 401, []) /\
  deleteFileRoute env req = (jsonResponse (ErrorBody "No token provided") 401, []).
Proof.
  intros Hh Ha.
  assert (E : getUserFromToken env req = (None, Some "No token provided")).
  { unfold getUserFromToken. rewrite Ha, (split_without " " h Hh). reflexivity. }
  unfold uploadRoute, deleteFileRoute. rewrite E. repeat split; reflexivity.
Qed.

Lemma getUserFromToken_one_word_witness :
  uploadRoute Samples.server
    {| authorization := Some "tok"; bucketParam := "recipes";
       formData := Form (Some Samples.photo); json := JsonUnreadable |}
  = (jsonResponse (ErrorBody "No token provided") 401, []).
Proof.
  apply (getUserFromToken_one_word Samples.server
           {| authorization := Some "tok"; bucketParam := "recipes";
              formData := Form (Some Samples.photo); json := JsonUnreadable |} "tok");
    reflexivity.
Defined.

Ltac upload_route_cases env req :=
  unfold uploadRoute;
  destruct (getUserFromToken env req) as [[?uid|] ?err] eqn:?Hu;
  [ destruct (includes validBuckets (bucketParam req)) eqn:?Hb; cbn [negb];
    [ destruct (formData req) as [|[?file|]] eqn:?Hf;
      [ | destruct (includes (validImageTypes ++ validVideoTypes)%list (type file)) eqn:?Ht;
          cbn [negb];
          [ destruct (gt (ofN (size file)) _) eqn:?Hs;
            [ | destruct (storageUpload env _ _ file) as [?p|?e] eqn:?Hup;
                [ destruct (getPublicUrl env _ _) as [?url|] eqn:?Hurl;
                  [ destruct (truthy url) eqn:?Htr | ]
                | ]
            ]
          | ]
        | ]
    | ]
  | ].

Lemma route_limit (video : bool) :
  (if video then mul (mul 50 1024) 1024 else mul (mul 5 1024) 1024)
  = mul (mul (ofN (if video then 50 else 5)) 1024) 1024.
Proof. destruct video; reflexivity. Qed.

(** X10.  The upload route answers 200 exactly when: the token names a user;
    the bucket is one of the five known ones; the form carries a file
    whose type is one of the five image or four video types and whose
    size is at most 5 MB, or 50 MB for a video; the store accepts the
    upload under the user's key in the prefixed bucket; and it gives a
    non-empty public URL for that key.  The answer then reports that
    key, that URL and that bucket, and the two store calls were all. *)
Theorem uploadRoute_ok_iff (env : Env) (req : Request) :
  (forall file, formData req = Form (Some file) ->
                (size file < 9007199254740992)%N) ->
  let accepted uid file url :=
      fst (getUserFromToken env req) = Some uid /\
      In (bucketParam req) validBuckets /\
      formData req = Form (Some file) /\
      In (type file) (validImageTypes ++ validVideoTypes)%list /\
      (size file <= (if isVideo file then 50 else 5) * 1048576)%N /\
      (exists p, storageUpload env ("make-cfac176d-" ++ bucketParam req)
                   (uploadFileName uid env file) file = UploadData p) /\
      getPublicUrl env ("make-cfac176d-" ++ bucketParam req)
        (uploadFileName uid env file) = Some url /\
      truthy url = true in
  (status (fst (uploadRoute env req)) = 200%N <-> exists uid file url, accepted uid file url)
  /\
  (forall uid file url, accepted uid file url ->
     exists u, fst (uploadRoute env req) = jsonResponse (UploadedBody u) 200 /\
               up_fileName u = uploadFileName uid env file /\
               up_url u = url /\
               up_bucket u = "make-cfac176d-" ++ bucketParam req /\
               up_fileSize u = Some (size file) /\
               up_mimeType u = Some (type file) /\
               snd (uploadRoute env req) =
               [Store (StorageUpload (up_bucket u) (up_fileName u) file false);
                Store (StorageGetPublicUrl (up_bucket u) (up_fileName u))]).
Proof.
  intros Hn. cbv zeta.
  upload_route_cases env req; cbn [fst snd status jsonResponse].
  all: try rewrite route_limit in Hs.
  all: try (apply over_limit_iff in Hs; [|destruct (isVideo file); reflexivity]).
  all: try (apply under_limit_iff in Hs; [|destruct (isVideo file); reflexivity]).
  (* the accepted request *)
  all: try (split;
    [ split; [intros _|reflexivity];
      exists uid, file, url; repeat split; try assumption;
      [ apply includes_In, Hb | apply includes_In, Ht | exists p; exact Hup ]
    | intros uid' file' url' (A & _ & C & _ & _ & _ & G & _);
      inversion A; subst uid'; inversion C; subst file';
      rewrite Hurl in G; inversion G; subst url';
      eexists; split; [reflexivity|]; cbn; repeat split; reflexivity ]; fail).
  (* every other request *)
  all: split;
    [ split; [intros H; discriminate H|]
    | ];
    intros; exfalso;
    repeat match goal with
           | H : exists _, _ |- _ => destruct H
           | H : _ /\ _ |- _ => destruct H
           end.
  all: repeat match goal with
              | H : Some _ = Some _ |- _ => inversion H; clear H; subst
              | H : Form _ = Form _ |- _ => inversion H; clear H; subst
              | H : None = Some _ |- _ => discriminate H
              | H : FormUnreadable = _ |- _ => discriminate H
              end.
  all: try match goal with
           | H : In (bucketParam _) validBuckets |- _ =>
               apply includes_In in H; congruence
           end.
  all: try match goal with
           | H : In (type _) (validImageTypes ++ validVideoTypes)%list |- _ =>
               apply includes_In in H; congruence
           end.
  all: try lia.
  all: try congruence.
Qed.

Lemma uploadRoute_ok_iff_witness :
  status (fst (uploadRoute Samples.server MoreSamples.uploadPhoto)) = 200%N <->
  exists uid file url,
    fst (getUserFromToken Samples.server MoreSamples.uploadPhoto) = Some uid /\
    In (bucketParam MoreSamples.uploadPhoto) validBuckets /\
    formData MoreSamples.uploadPhoto = Form (Some file) /\
    In (type file) (validImageTypes ++ validVideoTypes)%list /\
    (size file <= (if isVideo file then 50 else 5) * 1048576)%N /\
    (exists p, storageUpload Samples.server
                 ("make-cfac176d-" ++ bucketParam MoreSamples.uploadPhoto)
                 (uploadFileName uid Samples.server file) file = UploadData p) /\
    getPublicUrl Samples.server ("make-cfac176d-" ++ bucketParam MoreSamples.uploadPhoto)
      (uploadFileName uid Samples.server file) = Some url /\
    truthy url = true.
Proof.
  apply (uploadRoute_ok_iff Samples.server MoreSamples.uploadPhoto).
  intros file E. inversion E. reflexivity.
Defined.

Lemma prefix_owner (sep : ascii) (a b rest : string) :
  without sep a = true -> without sep b = true ->
  (String.prefix (b ++ String sep "") (a ++ String sep rest) = true <-> a = b).
Proof.
  unfold without. revert b.
  induction a as [|c a IH]; intros [|d b] Ha Hb; simpl in *.
  - destruct (ascii_dec sep sep); [|congruence].
    split; [reflexivity|intros _; destruct rest; reflexivity].
  - apply andb_true_iff in Hb. destruct Hb as [Hd _].
    unfold notChar in Hd. apply negb_true_iff, Ascii.eqb_neq in Hd.
    destruct (ascii_dec d sep); [contradiction|]. split; discriminate.
  - apply andb_true_iff in Ha. destruct Ha as [Hc _].
    unfold notChar in Hc. apply negb_true_iff, Ascii.eqb_neq in Hc.
    destruct (ascii_dec sep c); [congruence|]. split; discriminate.
  - apply andb_true_iff in Ha. destruct Ha as [_ Ha].
    apply andb_true_iff in Hb. destruct Hb as [_ Hb].
    destruct (ascii_dec d c) as [E|N].
    + subst d. rewrite (IH b Ha Hb). split; congruence.
    + split; [discriminate|]. intros E. inversion E. congruence.
Qed.

Lemma truthy_append (a : string) (c : ascii) (r : string) :
  truthy (a ++ String c r) = true.
Proof. destruct a; reflexivity. Qed.

(** The key either upload route reports for a stored file. *)
Lemma uploadRoute_reports (env : Env) (req : Request) (u : Uploaded) :
  fst (uploadRoute env req) = jsonResponse (UploadedBody u) 200 ->
  exists uid file,
    fst (getUserFromToken env req) = Some uid /\
    up_fileName u = uploadFileName uid env file /\
    In (up_bucket u) (map (append "make-cfac176d-") validBuckets).
Proof.
  upload_route_cases env req; cbn [fst snd]; intros H; try discriminate H.
  inversion H; subst. cbn [up_fileName up_bucket].
  exists uid, file. repeat split.
  apply (in_map (append "make-cfac176d-") validBuckets (bucketParam req)).
  apply includes_In, Hb.
Qed.

Lemma uploadImageRoute_reports (env : Env) (req : Request) (u : Uploaded) :
  fst (uploadImageRoute env req) = jsonResponse (UploadedBody u) 200 ->
  exists uid file,
    fst (getUserFromToken env req) = Some uid /\
    up_fileName u = legacyFileName uid env file /\
    up_bucket u = "make-cfac176d-recipes".
Proof.
  unfold uploadImageRoute.
  destruct (getUserFromToken env req) as [[uid|] err];
    [|intros H; discriminate H].
  destruct (formData req) as [|[file|]]; try (intros H; discriminate H).
  destruct (includes validImageTypes (type file)); cbn [negb];
    [|intros H; discriminate H].
  destruct (gt _ _); [intros H; discriminate H|].
  destruct (storageUpload env _ _ file); [|intros H; discriminate H].
  destruct (getPublicUrl env _ _) as [url|]; [|intros H; discriminate H].
  destruct (truthy url); intros H; [|discriminate H].
  inversion H; subst. exists uid, file. repeat split.
Qed.

(** Either upload route reports a key that starts with the uploader's id
    and a slash, in a bucket with a name. *)
Lemma upload_reported_shape (env : Env) (req : Request) (uid : string) (u : Uploaded) :
  fst (uploadRoute env req) = jsonResponse (UploadedBody u) 200 \/
  fst (uploadImageRoute env req) = jsonResponse (UploadedBody u) 200 ->
  fst (getUserFromToken env req) = Some uid ->
  exists rest, up_fileName u = uid ++ String "/" rest /\ truthy (up_bucket u) = true.
Proof.
  intros Hup Hu. destruct Hup as [H|H].
  - destruct (uploadRoute_reports env req u H) as (uid0 & file & A & B & C).
    rewrite Hu in A. inversion A; subst uid0.
    eexists. split; [rewrite B; unfold uploadFileName; reflexivity|].
    unfold validBuckets in C. cbn [map In] in C.
    repeat (destruct C as [C|C]; [rewrite <- C; reflexivity|]). contradiction.
  - destruct (uploadImageRoute_reports env req u H) as (uid0 & file & A & B & C).
    rewrite Hu in A. inversion A; subst uid0.
    eexists. split; [rewrite B; unfold legacyFileName; reflexivity|].
    rewrite C. reflexivity.
Qed.

(** The delete route on a key that starts with a user's id and a slash. *)
Lemma deleteFile_keyed (env : Env) (req : Request) (uid uid' rest bucket : string) :
  fst (getUserFromToken env req) = Some uid' ->
  without "/" uid = true -> without "/" uid' = true ->
  truthy bucket = true ->
  json req = JsonFields (JString (uid ++ String "/" rest)) (JString bucket) ->
  (uid' = uid ->
   deleteFileRoute env req =
   match storageRemove env bucket [uid ++ String "/" rest] with
   | None => (jsonResponse SuccessBody 200,
              [Store (StorageRemove bucket [uid ++ String "/" rest])])
   | Some _ => (jsonResponse (ErrorBody "Failed to delete file") 500,
                [Store (StorageRemove bucket [uid ++ String "/" rest]);
                 ConsoleLog "Delete error:"])
   end) /\
  (uid' <> uid ->
   deleteFileRoute env req =
   (jsonResponse (ErrorBody "Unauthorized to delete this file") 403, [])).
Proof.
  intros Hu' Hs Hs' Bucket Hj.
  unfold deleteFileRoute.
  destruct (getUserFromToken env req) as [[uid0|] err']; cbn [fst] in Hu';
    [|discriminate Hu'].
  inversion Hu'; subst uid0. rewrite Hj.
  cbn [json_truthy json_toString]. rewrite Bucket, truthy_append.
  cbn [negb orb]. unfold startsWith.
  change (uid' ++ "/") with (uid' ++ String "/" "").
  pose proof (prefix_owner "/" uid uid' rest Hs Hs') as P.
  split; intros H.
  - subst uid'. rewrite (proj2 P eq_refl). cbn [negb].
    destruct (storageRemove env _ _); reflexivity.
  - destruct (String.prefix _ _) eqn:E; [|reflexivity].
    exfalso. apply H. symmetry. apply P. reflexivity.
Qed.

(** X11.  Upload, then delete.  Take the file name and the bucket that either
    upload route reported in a 200 answer to the user [uid], and send
    them to the delete route as the user [uid'] (ids without a slash, as
    the auth service gives them).  If [uid'] is [uid], the route asks the
    store to remove exactly that object from that bucket, and answers by
    what the store says.  If [uid'] is anyone else, the route answers 403
    and the store is not called. *)
Theorem upload_then_delete
    (env : Env) (req : Request) (uid : string) (u : Uploaded)
    (env' : Env) (req' : Request) (uid' : string) :
  fst (uploadRoute env req) = jsonResponse (UploadedBody u) 200 \/
  fst (uploadImageRoute env req) = jsonResponse (UploadedBody u) 200 ->
  fst (getUserFromToken env req) = Some uid ->
  fst (getUserFromToken env' req') = Some uid' ->
  without "/" uid = true -> without "/" uid' = true ->
  json req' = JsonFields (JString (up_fileName u)) (JString (up_bucket u)) ->
  (uid' = uid ->
   deleteFileRoute env' req' =
   match storageRemove env' (up_bucket u) [up_fileName u] with
   | None => (jsonResponse SuccessBody 200,
              [Store (StorageRemove (up_bucket u) [up_fileName u])])
   | Some _ => (jsonResponse (ErrorBody "Failed to delete file") 500,
                [Store (StorageRemove (up_bucket u) [up_fileName u]);
                 ConsoleLog "Delete error:"])
   end) /\
  (uid' <> uid ->
   deleteFileRoute env' req' =
   (jsonResponse (ErrorBody "Unauthorized to delete this file") 403, [])).
Proof.
  intros Hup Hu Hu' Hs Hs' Hj.
  destruct (upload_reported_shape env req uid u Hup Hu) as (rest & Name & Bucket).
  rewrite Name in *.
  exact (deleteFile_keyed env' req' uid uid' rest (up_bucket u) Hu' Hs Hs' Bucket Hj).
Qed.

Lemma upload_then_delete_witness :
  fst (uploadRoute Samples.server MoreSamples.uploadPhoto)
  = jsonResponse (UploadedBody MoreSamples.photoUploaded) 200 /\
  deleteFileRoute Samples.server (MoreSamples.deleteOf MoreSamples.photoUploaded)
  = (jsonResponse SuccessBody 200,
     [Store (StorageRemove "make-cfac176d-recipes"
               ["u1/images/1700000000000-3f2a9c1e.png"])]).
Proof.
  split; [reflexivity|].
  apply (upload_then_delete Samples.server MoreSamples.uploadPhoto "u1"
           MoreSamples.photoUploaded
           Samples.server (MoreSamples.deleteOf MoreSamples.photoUploaded) "u1").
  - left. reflexivity.
  - reflexivity.
  - reflexivity.
  - reflexivity.
  - reflexivity.
  - reflexivity.
  - reflexivity.
Defined.

End ServerMore.

(* ================================================================== *)
(** * The routes over the key-value store *)
(* ================================================================== *)

Section ApiFacts.
Import JS Eff Api.
Open Scope string_scope.

Lemma lookup_app (k : string) (a b : list (string * Value)) :
  lookup k (a ++ b)%list = match lookup k a with
                           | Some v => Some v
                           | None => lookup k b
                           end.
Proof.
  induction a as [|[k' v] a IH]; simpl; [reflexivity|].
  destruct (String.eqb k k'); [reflexivity|exact IH].
Qed.

Lemma field_own (fields : list (string * Value)) (k : string) :
  field (VObj fields) k = own (VObj fields) k.
Proof. reflexivity. Qed.

Ltac route_auth env req :=
  unfold handle, bind, ret, throw, req_json, kv_get, kv_set, kv_getByPrefix, emit;
  destruct (authenticate env req) as [?userId|?resp] eqn:?Hauth.

(** The runs of PUT /profile for a user with a stored profile. *)
Lemma putProfile_run
    (env : Env) (req : Request) (userId : string) (currentProfile updates : Value) :
  authenticate env req = inl userId ->
  body req = Some updates ->
  kvGet env ("user:" ++ userId) = Found currentProfile ->
  truthyV currentProfile = true ->
  let merged := updatedProfile env currentProfile updates in
  putProfileRoute env req =
  if kvSet env ("user:" ++ userId) merged
  then (jsonResponse (ProfileBody merged) 200, [KvSet ("user:" ++ userId) merged])
  else (jsonResponse (ErrorBody "Internal server error updating profile") 500,
        [KvSet ("user:" ++ userId) merged; ConsoleLog "Update profile error:"]).
Proof.
  intros Ha Hb Hg Ht. cbv zeta.
  unfold putProfileRoute, handle, req_json, kv_get, kv_set, emit.
  unfold bind, ret, throw. rewrite Ha, Hb, Hg, Ht. cbn [app].
  destruct (kvSet env ("user:" ++ userId) _); reflexivity.
Qed.

Lemma updatedProfile_field (env : Env) (currentProfile updates : Value) (k : string) :
  field (updatedProfile env currentProfile updates) k =
  if String.eqb k "updated_at" then Some (VStr (toISOString env 0))
  else match own updates k with
       | Some v => Some v
       | None => own currentProfile k
       end.
Proof.
  unfold updatedProfile, object. cbn [fold_left field lookup].
  destruct (String.eqb k "updated_at"); [reflexivity|].
  rewrite lookup_app. unfold own. rewrite app_nil_r. reflexivity.
Qed.

(** X12.  PUT /profile writes, under the caller's own key, the stored profile
    with every own property of the request body laid over it: what the
    body names it replaces, [role], [id] and [email] included; what the
    body does not name stays; only [updated_at] is always the server's
    time.  The answer carries the object written. *)
Theorem putProfile_merges
    (env : Env) (req : Request) (userId : string) (currentProfile updates : Value) :
  authenticate env req = inl userId ->
  body req = Some updates ->
  kvGet env ("user:" ++ userId) = Found currentProfile ->
  truthyV currentProfile = true ->
  let merged := updatedProfile env currentProfile updates in
  kvSets (snd (putProfileRoute env req)) = [("user:" ++ userId, merged)] /\
  (kvSet env ("user:" ++ userId) merged = true ->
   putProfileRoute env req
   = (jsonResponse (ProfileBody merged) 200, [KvSet ("user:" ++ userId) merged])) /\
  (forall k,
     field merged k =
     if String.eqb k "updated_at" then Some (VStr (toISOString env 0))
     else match own updates k with
          | Some v => Some v
          | None => own currentProfile k
          end).
Proof.
  intros Ha Hb Hg Ht. cbv zeta.
  rewrite (putProfile_run env req userId currentProfile updates Ha Hb Hg Ht).
  split; [|split].
  - destruct (kvSet env _ _); reflexivity.
  - intros Hs. rewrite Hs. reflexivity.
  - intros k. apply updatedProfile_field.
Qed.

Lemma putProfile_merges_witness :
  putProfileRoute (ApiSamples.over ApiSamples.oneStudent)
    (ApiSamples.asU1 ApiSamples.becomeAdmin)
  = (jsonResponse
       (ProfileBody (updatedProfile (ApiSamples.over ApiSamples.oneStudent)
                       ApiSamples.studentProfile ApiSamples.becomeAdmin)) 200,
     [KvSet "user:u1" (updatedProfile (ApiSamples.over ApiSamples.oneStudent)
                         ApiSamples.studentProfile ApiSamples.becomeAdmin)]).
Proof.
  apply (putProfile_merges (ApiSamples.over ApiSamples.oneStudent)
           (ApiSamples.asU1 ApiSamples.becomeAdmin) "u1"
           ApiSamples.studentProfile ApiSamples.becomeAdmin);
    reflexivity.
Defined.



Lemma mayNotTeach_false (p : Value) :
  mayNotTeach (Some p) = false <->
  truthyV p = true /\
  (field p "role" = Some (VStr "instructor") \/ field p "role" = Some (VStr "admin")).
Proof.
  unfold mayNotTeach, is_string.
  destruct (truthyV p); cbn [negb orb].
  2:{ split; [intros H; discriminate H|intros [H _]; discriminate H]. }
  destruct (field p "role") as [[| | |s| |]|]; cbn [negb andb].
  4:{ destruct (String.eqb s "instructor") eqn:E1; cbn [negb andb].
      - apply String.eqb_eq in E1. subst s. split; auto.
      - destruct (String.eqb s "admin") eqn:E2; cbn [negb].
        + apply String.eqb_eq in E2. subst s. split; auto.
        + split; [intros H; discriminate H|].
          intros [_ [H|H]]; inversion H; subst s; discriminate. }
  all: split; [intros H; discriminate H|intros [_ [H|H]]; discriminate H].
Qed.

Lemma notAdmin_false (p : Value) :
  notAdmin (Some p) = false <->
  truthyV p = true /\ field p "role" = Some (VStr "admin").
Proof.
  unfold notAdmin, is_string.
  destruct (truthyV p); cbn [negb orb].
  2:{ split; [intros H; discriminate H|intros [H _]; discriminate H]. }
  destruct (field p "role") as [[| | |s| |]|]; cbn [negb].
  4:{ destruct (String.eqb s "admin") eqn:E2; cbn [negb].
      - apply String.eqb_eq in E2. subst s. split; auto.
      - split; [intros H; discriminate H|].
        intros [_ H]; inversion H; subst s; discriminate. }
  all: split; [intros H; discriminate H|intros [_ H]; discriminate H].
Qed.

Lemma authenticate_401 (env : Env) (req : Request) (resp : Response) :
  authenticate env req = inr resp -> status resp = 401%N.
Proof.
  unfold authenticate.
  destruct (Server.getUserFromToken _ _) as [[u|] e]; intros H; [discriminate H|].
  inversion H. reflexivity.
Qed.

(** X14.  POST /resources writes to the store, and answers 200, only for a
    caller whose stored profile has the role [instructor] or [admin]:
    without a user, without a profile or with any other role the store
    is left alone. *)
Theorem createResource_only_for_teachers (env : Env) (req : Request) :
  kvSets (snd (createResourceRoute env req)) <> [] \/
  status (fst (createResourceRoute env req)) = 200%N ->
  exists userId profile,
    authenticate env req = inl userId /\
    kvGet env ("user:" ++ userId) = Found profile /\
    truthyV profile = true /\
    (field profile "role" = Some (VStr "instructor") \/
     field profile "role" = Some (VStr "admin")).
Proof.
  unfold createResourceRoute. route_auth env req.
  - destruct (kvGet env ("user:" ++ userId)) as [p| |] eqn:Hg; cbn [bind ret].
    + destruct (mayNotTeach (Some p)) eqn:Hm.
      * cbn. intros [H|H]; [contradiction|discriminate H].
      * intros _. apply mayNotTeach_false in Hm. destruct Hm as [Ht Hr].
        exists userId, p. auto.
    + cbn. intros [H|H]; [contradiction|discriminate H].
    + cbn. intros [H|H]; [contradiction|discriminate H].
  - cbn. rewrite (authenticate_401 env req resp Hauth).
    intros [H|H]; [contradiction|discriminate H].
Qed.

Lemma createResource_only_for_teachers_witness :
  exists userId profile,
    authenticate (ApiSamples.over ApiSamples.oneTeacher)
      (ApiSamples.asU1 ApiSamples.soup) = inl userId /\
    kvGet (ApiSamples.over ApiSamples.oneTeacher) ("user:" ++ userId) = Found profile /\
    truthyV profile = true /\
    (field profile "role" = Some (VStr "instructor") \/
     field profile "role" = Some (VStr "admin")).
Proof.
  apply (createResource_only_for_teachers (ApiSamples.over ApiSamples.oneTeacher)
           (ApiSamples.asU1 ApiSamples.soup)).
  right. reflexivity.
Defined.

(** X15.  PUT /profile, then GET /admin/users.  A body with the property
    [role: "admin"] makes the caller an admin, whatever the role was:
    against a store that returns what the first request wrote, the user
    list is served to the same user. *)
Theorem putProfile_then_admin
    (env : Env) (req : Request) (userId : string) (currentProfile updates : Value)
    (env' : Env) (req' : Request) (users : list Value) :
  authenticate env req = inl userId ->
  body req = Some updates ->
  kvGet env ("user:" ++ userId) = Found currentProfile ->
  truthyV currentProfile = true ->
  own updates "role" = Some (VStr "admin") ->
  authenticate env' req' = inl userId ->
  (forall k v, In (k, v) (kvSets (snd (putProfileRoute env req))) ->
               kvGet env' k = Found v) ->
  kvGetByPrefix env' "user:" = Some users ->
  adminUsersRoute env' req' = (jsonResponse (UsersBody users) 200, []).
Proof.
  intros Ha Hb Hg Ht Hr Ha' Hstore Hp.
  assert (G : kvGet env' ("user:" ++ userId)
              = Found (updatedProfile env currentProfile updates)).
  { apply Hstore.
    rewrite (putProfile_run env req userId currentProfile updates Ha Hb Hg Ht).
    destruct (kvSet env _ _); left; reflexivity. }
  assert (NA : notAdmin (Some (updatedProfile env currentProfile updates)) = false).
  { apply notAdmin_false. split; [reflexivity|].
    rewrite updatedProfile_field. cbn [String.eqb Ascii.eqb Bool.eqb].
    rewrite Hr. reflexivity. }
  unfold adminUsersRoute, handle, bind, ret, throw, kv_get, kv_getByPrefix.
  rewrite Ha', G. cbn [bind ret]. rewrite NA, Hp. reflexivity.
Qed.

Lemma putProfile_then_admin_witness :
  adminUsersRoute (ApiSamples.over ApiSamples.oneStudent) (ApiSamples.asU1 VNull)
  = (jsonResponse (ErrorBody "Admin access required") 403, []) /\
  adminUsersRoute
    (ApiSamples.over
       (ApiSamples.after
          (snd (putProfileRoute (ApiSamples.over ApiSamples.oneStudent)
                  (ApiSamples.asU1 ApiSamples.becomeAdmin)))
          ApiSamples.oneStudent))
    (ApiSamples.asU1 VNull)
  = (jsonResponse
       (UsersBody
          [updatedProfile (ApiSamples.over ApiSamples.oneStudent)
             ApiSamples.studentProfile ApiSamples.becomeAdmin]) 200, []).
Proof.
  split; [reflexivity|].
  apply (putProfile_then_admin (ApiSamples.over ApiSamples.oneStudent)
           (ApiSamples.asU1 ApiSamples.becomeAdmin) "u1"
           ApiSamples.studentProfile ApiSamples.becomeAdmin).
  - reflexivity.
  - reflexivity.
  - reflexivity.
  - reflexivity.
  - reflexivity.
  - reflexivity.
  - intros k v [H|[]]. inversion H; subst. reflexivity.
  - reflexivity.
Defined.

(** The runs of POST /recipes for a user and a readable body. *)
Lemma createRecipe_run
    (env : Env) (req : Request) (userId : string) (recipe : Value) :
  authenticate env req = inl userId ->
  body req = Some recipe ->
  let recipeId := Server.randomUUID (server env) in
  let stored := newRecipe env userId recipe in
  let first := KvSet ("recipe:" ++ recipeId) stored in
  let failed t :=
      (jsonResponse (ErrorBody "Internal server error creating recipe") 500,
       (t ++ [ConsoleLog "Create recipe error:"])%list) in
  let finish l :=
      let second := KvSet ("user_recipes:" ++ userId) (VArr (l ++ [VStr recipeId])%list) in
      if kvSet env ("user_recipes:" ++ userId) (VArr (l ++ [VStr recipeId])%list)
      then (jsonResponse (RecipeBody stored) 200, [first; second])
      else failed [first; second] in
  createRecipeRoute env req =
  if kvSet env ("recipe:" ++ recipeId) stored then
    match kvGet env ("user_recipes:" ++ userId) with
    | KvFails => failed [first]
    | Missing => finish []
    | Found v =>
        if truthyV v then
          match v with
          | VArr l => finish l
          | _ => failed [first]
          end
        else finish []
    end
  else failed [first].
Proof.
  intros Ha Hb. cbv zeta.
  unfold createRecipeRoute, handle, req_json, kv_get, kv_set, arrayOrEmpty, emit.
  unfold bind, ret, throw. rewrite Ha, Hb. cbn [app].
  destruct (kvSet env ("recipe:" ++ Server.randomUUID (server env))
              (newRecipe env userId recipe)); [|reflexivity].
  destruct (kvGet env ("user_recipes:" ++ userId)) as [v| |]; [| |reflexivity].
  - destruct (truthyV v).
    + destruct v; try reflexivity.
      cbn [app].
      destruct (kvSet env ("user_recipes:" ++ userId) _); reflexivity.
    + cbn [app]. destruct (kvSet env ("user_recipes:" ++ userId) _); reflexivity.
  - cbn [app]. destruct (kvSet env ("user_recipes:" ++ userId) _); reflexivity.
Qed.

(** X16.  POST /recipes first writes the new recipe under the key of the UUID
    it drew.  In the object written the author is the caller, the two
    times are the server's and the ratings and comments are empty,
    whatever the body says; but an [id] in the body replaces the drawn
    one, so the object's [id] need not be the id of its key.  Every
    other property is the body's. *)
Theorem createRecipe_fields
    (env : Env) (req : Request) (userId : string) (recipe : Value) :
  authenticate env req = inl userId ->
  body req = Some recipe ->
  let recipeId := Server.randomUUID (server env) in
  let stored := newRecipe env userId recipe in
  (exists rest,
     kvSets (snd (createRecipeRoute env req)) = ("recipe:" ++ recipeId, stored) :: rest) /\
  field stored "author_id" = Some (VStr userId) /\
  field stored "created_at" = Some (VStr (toISOString env 0)) /\
  field stored "updated_at" = Some (VStr (toISOString env 1)) /\
  field stored "ratings" = Some (VArr []) /\
  field stored "comments" = Some (VArr []) /\
  field stored "id" = Some match own recipe "id" with
                           | Some v => v
                           | None => VStr recipeId
                           end /\
  (forall k, ~ In k ("id" :: recipeStamps) -> field stored k = own recipe k).
Proof.
  intros Ha Hb. cbv zeta. split; [|repeat split].
  - rewrite (createRecipe_run env req userId recipe Ha Hb).
    destruct (kvSet env _ (newRecipe env userId recipe)); [|eexists; reflexivity].
    destruct (kvGet env ("user_recipes:" ++ userId)) as [v| |];
      [destruct (truthyV v); [destruct v|]| |];
      try (eexists; reflexivity).
    all: destruct (kvSet env ("user_recipes:" ++ userId) _); eexists; reflexivity.
  - unfold newRecipe, object. cbn [fold_left field lookup String.eqb Ascii.eqb Bool.eqb].
    rewrite lookup_app. unfold own. destruct (lookup "id" (spread recipe)); reflexivity.
  - intros k Hk. unfold newRecipe, object, recipeStamps in *.
    cbn [fold_left field lookup].
    assert (N : forall s, In s ["id"; "author_id"; "created_at"; "updated_at";
                                "ratings"; "comments"] -> String.eqb k s = false).
    { intros s Hs. apply String.eqb_neq. intros E. subst s. exact (Hk Hs). }
    rewrite !N by (cbn; auto 10).
    rewrite lookup_app. unfold own. cbn [lookup]. rewrite N by (cbn; auto).
    destruct (lookup k (spread recipe)); reflexivity.
Qed.

Lemma createRecipe_fields_witness :
  let stored := newRecipe (ApiSamples.over []) "u1" ApiSamples.soup in
  field stored "author_id" = Some (VStr "u1") /\
  field stored "id" = Some (VStr "mine") /\
  field stored "title" = Some (VStr "Soup") /\
  kvSets (snd (createRecipeRoute (ApiSamples.over []) (ApiSamples.asU1 ApiSamples.soup)))
  = [("recipe:3f2a9c1e-0b7d-4c55-9e21-7a6d5f4e3b2a", stored);
     ("user_recipes:u1", VArr [VStr "3f2a9c1e-0b7d-4c55-9e21-7a6d5f4e3b2a"])].
Proof.
  intros stored.
  destruct (createRecipe_fields (ApiSamples.over []) (ApiSamples.asU1 ApiSamples.soup)
              "u1" ApiSamples.soup eq_refl eq_refl)
    as (_ & A & _ & _ & _ & _ & I & O).
  split; [exact A|]. split; [exact I|]. split; [|reflexivity].
  apply (O "title"). cbn. intros H.
  repeat (destruct H as [H|H]; [discriminate H|]). exact H.
Defined.

Lemma getAll_last (env : Env) (ids : list Value) (id : string) (v : Value)
    (t : list Effect) :
  (forall k, kvGet env k <> KvFails) ->
  kvGet env ("recipe:" ++ id) = Found v ->
  exists got, getAll env (ids ++ [VStr id])%list t = (Normal (got ++ [Some v])%list, t).
Proof.
  intros Hok Hv. induction ids as [|x ids IH]; cbn [app getAll].
  - exists []. unfold bind, kv_get, ret. cbn [toStr]. rewrite Hv. reflexivity.
  - destruct IH as [got IH]. exists (match kvGet env ("recipe:" ++ toStr x) with
                                     | Found w => Some w
                                     | _ => None
                                     end :: got).
    unfold bind, kv_get, ret, throw.
    destruct (kvGet env ("recipe:" ++ toStr x)) as [w| |] eqn:E.
    + rewrite IH. reflexivity.
    + rewrite IH. reflexivity.
    + exfalso. exact (Hok _ E).
Qed.

Lemma filterBoolean_last (got : list Maybe) (v : Value) :
  truthyV v = true -> In v (filterBoolean (got ++ [Some v])%list).
Proof.
  intros Ht. unfold filterBoolean. rewrite flat_map_app. apply in_or_app. right.
  cbn. rewrite Ht. left. reflexivity.
Qed.

(** X17.  POST /recipes, then GET /my-recipes.  After a request that answered
    200, and against a store that returns what that request wrote and
    does not fail, the author's list contains the new recipe. *)
Theorem createRecipe_then_myRecipes
    (env : Env) (req : Request) (userId : string) (recipe : Value)
    (env' : Env) (req' : Request) :
  authenticate env req = inl userId ->
  body req = Some recipe ->
  status (fst (createRecipeRoute env req)) = 200%N ->
  authenticate env' req' = inl userId ->
  (forall k v, In (k, v) (kvSets (snd (createRecipeRoute env req))) ->
               kvGet env' k = Found v) ->
  (forall k, kvGet env' k <> KvFails) ->
  exists recipes,
    myRecipesRoute env' req' = (jsonResponse (RecipesBody recipes) 200, []) /\
    In (newRecipe env userId recipe) recipes.
Proof.
  intros Ha Hb Hok Ha' Hstore Hnf.
  assert (W : exists old,
             kvSets (snd (createRecipeRoute env req))
             = [("recipe:" ++ Server.randomUUID (server env), newRecipe env userId recipe);
                ("user_recipes:" ++ userId,
                 VArr (old ++ [VStr (Server.randomUUID (server env))])%list)]).
  { revert Hok. rewrite (createRecipe_run env req userId recipe Ha Hb).
    destruct (kvSet env _ (newRecipe env userId recipe));
      [|intros H; discriminate H].
    destruct (kvGet env ("user_recipes:" ++ userId)) as [v| |];
      [destruct (truthyV v); [destruct v|]| |];
      try (intros H; discriminate H).
    all: destruct (kvSet env ("user_recipes:" ++ userId) _); intros H;
      try discriminate H.
    all: eexists; reflexivity. }
  destruct W as [old W]. rewrite W in Hstore.
  assert (G1 : kvGet env' ("recipe:" ++ Server.randomUUID (server env))
               = Found (newRecipe env userId recipe))
    by (apply Hstore; left; reflexivity).
  assert (G2 : kvGet env' ("user_recipes:" ++ userId)
               = Found (VArr (old ++ [VStr (Server.randomUUID (server env))])%list))
    by (apply Hstore; right; left; reflexivity).
  destruct (getAll_last env' old (Server.randomUUID (server env))
              (newRecipe env userId recipe) [] Hnf G1) as [got Hgot].
  exists (filterBoolean (got ++ [Some (newRecipe env userId recipe)])%list).
  split; [|apply filterBoolean_last; reflexivity].
  unfold myRecipesRoute, handle, kv_get, arrayOrEmpty.
  unfold bind at 1 2. rewrite Ha', G2. unfold ret at 1 2. cbn [truthyV].
  unfold bind. rewrite Hgot. reflexivity.
Qed.

Lemma createRecipe_then_myRecipes_witness :
  exists recipes,
    myRecipesRoute
      (ApiSamples.over
         (ApiSamples.after
            (snd (createRecipeRoute (ApiSamples.over []) (ApiSamples.asU1 ApiSamples.soup)))
            []))
      (ApiSamples.asU1 VNull)
    = (jsonResponse (RecipesBody recipes) 200, []) /\
    In (newRecipe (ApiSamples.over []) "u1" ApiSamples.soup) recipes.
Proof.
  apply (createRecipe_then_myRecipes (ApiSamples.over [])
           (ApiSamples.asU1 ApiSamples.soup) "u1" ApiSamples.soup).
  - reflexivity.
  - reflexivity.
  - reflexivity.
  - reflexivity.
  - intros k v [H|[H|[]]]; inversion H; subst; reflexivity.
  - intros k. cbn.
    destruct (String.eqb k _); [discriminate|].
    destruct (String.eqb k _); discriminate.
Defined.

(** X18.  POST /recipes is not atomic.  When the recipe is written and the
    author's list then cannot be read, or holds something truthy that is
    no array, the answer is 500 and the list is not written: the recipe
    stays in the store, listed for nobody. *)
Theorem createRecipe_not_atomic
    (env : Env) (req : Request) (userId : string) (recipe : Value) :
  authenticate env req = inl userId ->
  body req = Some recipe ->
  kvSet env ("recipe:" ++ Server.randomUUID (server env))
    (newRecipe env userId recipe) = true ->
  kvGet env ("user_recipes:" ++ userId) = KvFails \/
  (exists v, kvGet env ("user_recipes:" ++ userId) = Found v /\
             truthyV v = true /\ forall l, v <> VArr l) ->
  createRecipeRoute env req
  = (jsonResponse (ErrorBody "Internal server error creating recipe") 500,
     [KvSet ("recipe:" ++ Server.randomUUID (server env)) (newRecipe env userId recipe);
      ConsoleLog "Create recipe error:"]).
Proof.
  intros Ha Hb Hs Hg.
  rewrite (createRecipe_run env req userId recipe Ha Hb), Hs.
  destruct Hg as [Hg|(v & Hg & Ht & Hn)]; rewrite Hg; [reflexivity|].
  rewrite Ht. destruct v; try reflexivity.
  exfalso. exact (Hn items eq_refl).
Qed.

Lemma createRecipe_not_atomic_witness :
  createRecipeRoute (ApiSamples.over [("user_recipes:u1", VStr "none")])
    (ApiSamples.asU1 ApiSamples.soup)
  = (jsonResponse (ErrorBody "Internal server error creating recipe") 500,
     [KvSet "recipe:3f2a9c1e-0b7d-4c55-9e21-7a6d5f4e3b2a"
        (newRecipe (ApiSamples.over [("user_recipes:u1", VStr "none")]) "u1"
           ApiSamples.soup);
      ConsoleLog "Create recipe error:"]).
Proof.
  apply (createRecipe_not_atomic (ApiSamples.over [("user_recipes:u1", VStr "none")])
           (ApiSamples.asU1 ApiSamples.soup) "u1" ApiSamples.soup).
  - reflexivity.
  - reflexivity.
  - reflexivity.
  - right. exists (VStr "none"). repeat split. intros l H. discriminate H.
Defined.

Lemma Value_is_null (v : Value) : v = VNull \/ v <> VNull.
Proof. destruct v; [left; reflexivity|right; discriminate..]. Qed.

(** The runs of POST /auth/signup for a body that is not [null]. *)
Lemma signup_run (env : Env) (req : Request) (b : Value) :
  body req = Some b -> b <> VNull ->
  signupRoute env req =
  match field b "email", field b "password", field b "name" with
  | Some email, Some password, Some name =>
      if negb (truthyV email) || negb (truthyV password) || negb (truthyV name) then
        (jsonResponse (ErrorBody "Email, password, and name are required") 400, [])
      else if negb (includesV roles (requestedRole b)) then
        (jsonResponse
           (ErrorBody "Invalid role. Must be student, instructor, or admin") 400, [])
      else
        let call := CreateUser email password name (requestedRole b) in
        match createUser env email password name (requestedRole b) with
        | CreateFails =>
            (jsonResponse (ErrorBody "Internal server error during signup") 500,
             [call; ConsoleLog "Signup server error:"])
        | CreateError message =>
            (jsonResponse (ErrorBody message) 400, [call; ConsoleLog "Signup error:"])
        | CreatedUser u =>
            let write := KvSet ("user:" ++ user_id u)
                           (signupProfile env u name (requestedRole b)) in
            if kvSet env ("user:" ++ user_id u)
                 (signupProfile env u name (requestedRole b))
            then (jsonResponse (SignedUpBody u) 200, [call; write])
            else (jsonResponse (ErrorBody "Internal server error during signup") 500,
                  [call; write; ConsoleLog "Signup server error:"])
        end
  | _, _, _ => (jsonResponse (ErrorBody "Email, password, and name are required") 400, [])
  end.
Proof.
  intros Hb Hn. unfold signupRoute, handle, req_json, kv_set, emit.
  unfold bind, ret, throw. rewrite Hb.
  destruct b; try contradiction; cbv beta iota zeta.
  all: destruct (field _ "email") as [email|]; [|reflexivity];
    destruct (field _ "password") as [password|]; [|reflexivity];
    destruct (field _ "name") as [nm|]; [|reflexivity].
  all: destruct (negb (truthyV email) || negb (truthyV password) || negb (truthyV nm));
    try reflexivity.
  all: destruct (negb (includesV roles _)); try reflexivity.
  all: cbn [app]; destruct (createUser env email password nm _); try reflexivity.
  all: cbn [app]; destruct (kvSet env _ _); reflexivity.
Qed.

(** X19.  POST /auth/signup asks the auth service for a user exactly when the
    body is an object (or another value, not [null]) whose [email],
    [password] and [name] are truthy and whose [role] -- [student] when
    the body has none -- is one of the strings [student], [instructor]
    and [admin].  The [Authorization] header plays no part: the route
    does for a request without it what it does with it. *)
Theorem signup_creates_iff (env : Env) (req : Request) :
  ((exists e p n r, In (CreateUser e p n r) (snd (signupRoute env req))) <->
   (exists b e p n,
      body req = Some b /\ b <> VNull /\
      field b "email" = Some e /\ field b "password" = Some p /\
      field b "name" = Some n /\
      truthyV e = true /\ truthyV p = true /\ truthyV n = true /\
      includesV roles (requestedRole b) = true))
  /\ signupRoute env req = signupRoute env {| authorization := None; body := body req |}.
Proof.
  split; [|reflexivity].
  destruct (body req) as [b|] eqn:Hb.
  2:{ unfold signupRoute, handle, req_json. rewrite Hb. cbn. split.
      - intros (e & p & n & r & [H|[]]). discriminate H.
      - intros (b & e & p & n & H & _). discriminate H. }
  destruct (Value_is_null b) as [E|Hn].
  { subst b. unfold signupRoute, handle, req_json. rewrite Hb. cbn. split.
    - intros (e & p & n & r & [H|[]]). discriminate H.
    - intros (b & e & p & n & H & N & _). inversion H. subst b. contradiction. }
  rewrite (signup_run env req b Hb Hn).
  destruct (field b "email") as [email|] eqn:He.
  2:{ split; [intros (e & p & n & r & [])|].
      intros (b' & e & p & n & H & _ & H1 & _). inversion H; subst b'.
      rewrite He in H1. discriminate H1. }
  destruct (field b "password") as [password|] eqn:Hp.
  2:{ split; [intros (e & p & n & r & [])|].
      intros (b' & e & p & n & H & _ & _ & H1 & _). inversion H; subst b'.
      rewrite Hp in H1. discriminate H1. }
  destruct (field b "name") as [name|] eqn:Hname.
  2:{ split; [intros (e & p & n & r & [])|].
      intros (b' & e & p & n & H & _ & _ & _ & H1 & _). inversion H; subst b'.
      rewrite Hname in H1. discriminate H1. }
  destruct (truthyV email) eqn:T1; cbn [negb orb].
  2:{ split; [intros (e & p & n & r & [])|].
      intros (b' & e & p & n & H & _ & H1 & _ & _ & H2 & _). inversion H; subst b'.
      rewrite He in H1. inversion H1; subst e. congruence. }
  destruct (truthyV password) eqn:T2; cbn [negb orb].
  2:{ split; [intros (e & p & n & r & [])|].
      intros (b' & e & p & n & H & _ & _ & H1 & _ & _ & H2 & _). inversion H; subst b'.
      rewrite Hp in H1. inversion H1; subst p. congruence. }
  destruct (truthyV name) eqn:T3; cbn [negb orb].
  2:{ split; [intros (e & p & n & r & [])|].
      intros (b' & e & p & n & H & _ & _ & _ & H1 & _ & _ & H2 & _). inversion H; subst b'.
      rewrite Hname in H1. inversion H1; subst n. congruence. }
  destruct (includesV roles (requestedRole b)) eqn:R; cbn [negb].
  2:{ split; [intros (e & p & n & r & [])|].
      intros (b' & e & p & n & H & _ & _ & _ & _ & _ & _ & _ & H2). inversion H; subst b'.
      congruence. }
  split.
  - intros _. exists b, email, password, name. repeat split; auto.
  - intros _. exists email, password, name, (requestedRole b).
    cbv zeta. destruct (createUser env email password name (requestedRole b));
      [destruct (kvSet env _ _)| |]; left; reflexivity.
Qed.

(** X20.  Signing up as an admin.  A body with [role: "admin"] and truthy
    [email], [password] and [name], sent by anyone, stores a profile
    with that role for the user the auth service creates; against a
    store that returns what was written, the user list is then served to
    that user. *)
Theorem signup_then_admin
    (env : Env) (req : Request) (b email password name : Value) (u : AuthUser)
    (env' : Env) (req' : Request) (users : list Value) :
  body req = Some b -> b <> VNull ->
  field b "email" = Some email -> field b "password" = Some password ->
  field b "name" = Some name ->
  truthyV email = true -> truthyV password = true -> truthyV name = true ->
  field b "role" = Some (VStr "admin") ->
  createUser env email password name (VStr "admin") = CreatedUser u ->
  authenticate env' req' = inl (user_id u) ->
  (forall k v, In (k, v) (kvSets (snd (signupRoute env req))) -> kvGet env' k = Found v) ->
  kvGetByPrefix env' "user:" = Some users ->
  kvSets (snd (signupRoute env req))
  = [("user:" ++ user_id u, signupProfile env u name (VStr "admin"))] /\
  adminUsersRoute env' req' = (jsonResponse (UsersBody users) 200, []).
Proof.
  intros Hb Hn He Hp Hname T1 T2 T3 Hr Hc Ha' Hstore Hu.
  assert (Sets : kvSets (snd (signupRoute env req))
                 = [("user:" ++ user_id u, signupProfile env u name (VStr "admin"))]).
  { rewrite (signup_run env req b Hb Hn), He, Hp, Hname, T1, T2, T3.
    unfold requestedRole. rewrite Hr. cbn [negb orb includesV]. 
    change (includes roles "admin") with true. cbn [negb]. cbv zeta. rewrite Hc.
    destruct (kvSet env _ _); reflexivity. }
  split; [exact Sets|].
  assert (G : kvGet env' ("user:" ++ user_id u)
              = Found (signupProfile env u name (VStr "admin"))).
  { apply Hstore. rewrite Sets. left. reflexivity. }
  unfold adminUsersRoute, handle, kv_get, kv_getByPrefix.
  unfold bind at 1. rewrite Ha', G. unfold ret at 1.
  assert (NA : notAdmin (Some (signupProfile env u name (VStr "admin"))) = false).
  { apply notAdmin_false. split; reflexivity. }
  rewrite NA. unfold bind. rewrite Hu. reflexivity.
Qed.

Lemma signup_then_admin_witness :
  adminUsersRoute
    (ApiSamples.overFor2
       (ApiSamples.after
          (snd (signupRoute (ApiSamples.over [])
                  (ApiSamples.anonymous ApiSamples.adminSignup)))
          []))
    (ApiSamples.asU2 VNull)
  = (jsonResponse
       (UsersBody
          [signupProfile (ApiSamples.over [])
             {| user_id := "u2"; user_email := "eve@example.org" |}
             (VStr "Eve") (VStr "admin")]) 200, []).
Proof.
  apply (signup_then_admin (ApiSamples.over [])
           (ApiSamples.anonymous ApiSamples.adminSignup) ApiSamples.adminSignup
           (VStr "eve@example.org") (VStr "pw") (VStr "Eve")
           {| user_id := "u2"; user_email := "eve@example.org" |}).
  - reflexivity.
  - discriminate.
  - reflexivity.
  - reflexivity.
  - reflexivity.
  - reflexivity.
  - reflexivity.
  - reflexivity.
  - reflexivity.
  - reflexivity.
  - reflexivity.
  - intros k v [H|[]]. inversion H; subst. reflexivity.
  - reflexivity.
Defined.

(** X21.  Whatever the three create routes write under a key of their own
    kind carries the caller as [author_id]; the only other write is the
    caller's own recipe list. *)
Theorem created_objects_author (env : Env) (req : Request) (k : string) (v : Value) :
  In (k, v) (kvSets (snd (createRecipeRoute env req))) \/
  In (k, v) (kvSets (snd (createPostRoute env req))) \/
  In (k, v) (kvSets (snd (createResourceRoute env req))) ->
  exists userId,
    authenticate env req = inl userId /\
    (k = "user_recipes:" ++ userId \/ field v "author_id" = Some (VStr userId)).
Proof.
  destruct (authenticate env req) as [userId|resp] eqn:Ha.
  2:{ unfold createRecipeRoute, createPostRoute, createResourceRoute, handle.
      rewrite Ha. cbn. intros [[]|[[]|[]]]. }
  intros H. exists userId. split; [reflexivity|].
  assert (AR : forall b, field (newRecipe env userId b) "author_id" = Some (VStr userId))
    by reflexivity.
  assert (AP : forall b, field (newPost env userId b) "author_id" = Some (VStr userId))
    by reflexivity.
  assert (AS : forall b, field (newResource env userId b) "author_id" = Some (VStr userId))
    by reflexivity.
  destruct H as [H|[H|H]].
  - destruct (body req) as [b|] eqn:Hb.
    + rewrite (createRecipe_run env req userId b Ha Hb) in H. revert H.
      destruct (kvSet env _ (newRecipe env userId b));
        [destruct (kvGet env ("user_recipes:" ++ userId)) as [w| |];
         [destruct (truthyV w); [destruct w|]| |]|];
        try destruct (kvSet env ("user_recipes:" ++ userId) _); cbn;
        intros H; repeat (destruct H as [H|H]; [inversion H; subst; auto|]);
        contradiction.
    + revert H. unfold createRecipeRoute, handle, req_json. unfold bind, throw.
      rewrite Ha, Hb. cbn. intros [].
  - revert H. unfold createPostRoute, handle, req_json, kv_set, emit.
    unfold bind, ret, throw. rewrite Ha.
    destruct (body req) as [b|]; [|intros []]. cbn [app].
    destruct (kvSet env _ _); cbn; intros [H|[]]; inversion H; subst; auto.
  - revert H. unfold createResourceRoute, handle, req_json, kv_get, kv_set, emit.
    unfold bind, ret, throw. rewrite Ha.
    destruct (kvGet env ("user:" ++ userId)) as [p| |]; try (intros []).
    destruct (mayNotTeach (Some p)); [intros []|].
    destruct (body req) as [b|]; [|intros []]. cbn [app].
    destruct (kvSet env _ _); cbn; intros [H|[]]; inversion H; subst; auto.
Qed.

Lemma created_objects_author_witness :
  exists userId,
    authenticate (ApiSamples.over []) (ApiSamples.asU1 ApiSamples.soup) = inl userId /\
    ("forum_post:3f2a9c1e-0b7d-4c55-9e21-7a6d5f4e3b2a" = "user_recipes:" ++ userId \/
     field (newPost (ApiSamples.over []) "u1" ApiSamples.soup) "author_id"
     = Some (VStr userId)).
Proof.
  apply (created_objects_author (ApiSamples.over []) (ApiSamples.asU1 ApiSamples.soup)
           "forum_post:3f2a9c1e-0b7d-4c55-9e21-7a6d5f4e3b2a"
           (newPost (ApiSamples.over []) "u1" ApiSamples.soup)).
  right. left. left. reflexivity.
Defined.

(** X22.  PUT /profile, then GET /profile: against a store that returns what
    was written, the caller reads back the merged profile. *)
Theorem putProfile_then_getProfile
    (env : Env) (req : Request) (userId : string) (currentProfile updates : Value)
    (env' : Env) (req' : Request) :
  authenticate env req = inl userId ->
  body req = Some updates ->
  kvGet env ("user:" ++ userId) = Found currentProfile ->
  truthyV currentProfile = true ->
  authenticate env' req' = inl userId ->
  (forall k v, In (k, v) (kvSets (snd (putProfileRoute env req))) ->
               kvGet env' k = Found v) ->
  getProfileRoute env' req'
  = (jsonResponse (ProfileBody (updatedProfile env currentProfile updates)) 200, []) /\
  (forall k, own updates k = None -> k <> "updated_at" ->
     field (updatedProfile env currentProfile updates) k = own currentProfile k).
Proof.
  intros Ha Hb Hg Ht Ha' Hstore.
  assert (G : kvGet env' ("user:" ++ userId)
              = Found (updatedProfile env currentProfile updates)).
  { apply Hstore.
    rewrite (putProfile_run env req userId currentProfile updates Ha Hb Hg Ht).
    destruct (kvSet env _ _); left; reflexivity. }
  split.
  - unfold getProfileRoute, handle, kv_get. unfold bind, ret.
    rewrite Ha', G. reflexivity.
  - intros k Hk Hn. rewrite updatedProfile_field, Hk.
    apply String.eqb_neq in Hn. rewrite Hn. reflexivity.
Qed.

Lemma putProfile_then_getProfile_witness :
  getProfileRoute
    (ApiSamples.over
       (ApiSamples.after
          (snd (putProfileRoute (ApiSamples.over ApiSamples.oneStudent)
                  (ApiSamples.asU1 ApiSamples.becomeAdmin)))
          ApiSamples.oneStudent))
    (ApiSamples.asU1 VNull)
  = (jsonResponse
       (ProfileBody (updatedProfile (ApiSamples.over ApiSamples.oneStudent)
                       ApiSamples.studentProfile ApiSamples.becomeAdmin)) 200, []).
Proof.
  apply (putProfile_then_getProfile (ApiSamples.over ApiSamples.oneStudent)
           (ApiSamples.asU1 ApiSamples.becomeAdmin) "u1"
           ApiSamples.studentProfile ApiSamples.becomeAdmin).
  - reflexivity.
  - reflexivity.
  - reflexivity.
  - reflexivity.
  - reflexivity.
  - intros k v [H|[]]. inversion H; subst. reflexivity.
Defined.

(** X23.  A stored file and somebody else.  Take the file name and the bucket
    an upload route reported to the user [uid], and let another user
    [uid'] name them.  The delete route refuses with 403; the route
    [get-signed-url] makes no such check: it asks the store to sign that
    very object for 24 hours and hands the URL out. *)
Theorem foreign_file_signed_not_deleted
    (senv : Server.Env) (upload : Server.Request) (uid : string) (u : Server.Uploaded)
    (env' : Env) (delete : Server.Request) (sign : Request) (uid' : string)
    (b : Value) (url : option string) :
  fst (Server.uploadRoute senv upload) = Server.jsonResponse (Server.UploadedBody u) 200 \/
  fst (Server.uploadImageRoute senv upload)
  = Server.jsonResponse (Server.UploadedBody u) 200 ->
  fst (Server.getUserFromToken senv upload) = Some uid ->
  Chars.without "/" uid = true -> Chars.without "/" uid' = true ->
  uid' <> uid ->
  fst (Server.getUserFromToken (server env') delete) = Some uid' ->
  Server.json delete = Server.JsonFields (Server.JString (Server.up_fileName u))
                         (Server.JString (Server.up_bucket u)) ->
  authenticate env' sign = inl uid' ->
  body sign = Some b -> b <> VNull ->
  field b "fileName" = Some (VStr (Server.up_fileName u)) ->
  field b "bucket" = Some (VStr (Server.up_bucket u)) ->
  createSignedUrl env' (VStr (Server.up_bucket u)) (VStr (Server.up_fileName u)) 86400
  = SignedUrl url ->
  Server.deleteFileRoute (server env') delete
  = (Server.jsonResponse (Server.ErrorBody "Unauthorized to delete this file") 403, []) /\
  getSignedUrlRoute env' sign
  = (jsonResponse (UrlBody url) 200,
     [CreateSignedUrl (VStr (Server.up_bucket u)) (VStr (Server.up_fileName u)) 86400]).
Proof.
  intros Hup Hu Hs Hs' Hne Hd Hj Ha Hb Hn Hf Hbk Hsign.
  destruct (upload_reported_shape senv upload uid u Hup Hu) as (rest & Name & Bucket).
  split.
  - rewrite Name in Hj.
    apply (deleteFile_keyed (server env') delete uid uid' rest (Server.up_bucket u)
             Hd Hs Hs' Bucket Hj).
    exact Hne.
  - unfold getSignedUrlRoute, handle, req_json, emit. unfold bind, ret, throw.
    rewrite Ha, Hb. destruct b; try contradiction; cbv beta iota zeta.
    all: rewrite Hf, Hbk; cbn [truthyV]; rewrite Bucket, Name, truthy_append.
    all: cbn [negb orb app].
    all: change (24 * 3600)%N with 86400%N; rewrite <- Name, Hsign; reflexivity.
Qed.

Lemma foreign_file_signed_not_deleted_witness :
  Server.deleteFileRoute (server (ApiSamples.overFor2 []))
    {| Server.authorization := Some "Bearer tok2"; Server.bucketParam := "";
       Server.formData := Server.FormUnreadable;
       Server.json := Server.json (MoreSamples.deleteOf MoreSamples.photoUploaded) |}
  = (Server.jsonResponse (Server.ErrorBody "Unauthorized to delete this file") 403, []) /\
  getSignedUrlRoute (ApiSamples.overFor2 [])
    (ApiSamples.asU2
       (VObj [("fileName", VStr "u1/images/1700000000000-3f2a9c1e.png");
              ("bucket", VStr "make-cfac176d-recipes")]))
  = (jsonResponse
       (UrlBody (Some "https://store/sign/make-cfac176d-recipes/u1/images/1700000000000-3f2a9c1e.png"))
       200,
     [CreateSignedUrl (VStr "make-cfac176d-recipes")
        (VStr "u1/images/1700000000000-3f2a9c1e.png") 86400]).
Proof.
  apply (foreign_file_signed_not_deleted Samples.server MoreSamples.uploadPhoto "u1"
           MoreSamples.photoUploaded (ApiSamples.overFor2 [])
           {| Server.authorization := Some "Bearer tok2"; Server.bucketParam := "";
              Server.formData := Server.FormUnreadable;
              Server.json := Server.json (MoreSamples.deleteOf MoreSamples.photoUploaded) |}
           (ApiSamples.asU2
              (VObj [("fileName", VStr "u1/images/1700000000000-3f2a9c1e.png");
                     ("bucket", VStr "make-cfac176d-recipes")]))
           "u2"
           (VObj [("fileName", VStr "u1/images/1700000000000-3f2a9c1e.png");
                  ("bucket", VStr "make-cfac176d-recipes")])
           (Some "https://store/sign/make-cfac176d-recipes/u1/images/1700000000000-3f2a9c1e.png")).
  - left. reflexivity.
  - reflexivity.
  - reflexivity.
  - reflexivity.
  - discriminate.
  - reflexivity.
  - reflexivity.
  - reflexivity.
  - reflexivity.
  - discriminate.
  - reflexivity.
  - reflexivity.
  - reflexivity.
Defined.

End ApiFacts.

(* ================================================================== *)
(** * EnhancedImageUpload: dropping a file *)
(* ================================================================== *)

Section Dropping.
Import JS Eff Portfolio ValidateFacts.
Open Scope string_scope.

(** X24.  A component first rendered without a session treats every file
    dropped on it, or chosen in its file input, as unauthenticated, also
    when it has since been rendered again with a session: the upload
    function that [handleFileSelect] calls is the one of the first
    render.  The rejection is handled by nobody and the upload state
    stays as it was.  A disabled component does not look at a drop. *)
Theorem handleDrop_mounted_session
    (mounted current : Handlers.Render) (browser : Env)
    (files : option (list File)) (w : World) :
  Handlers.session mounted = None ->
  let dropped := Handlers.handleDrop mounted current browser files w in
  let chosen := Handlers.onChange mounted browser files w in
  (Handlers.disabled current = true -> Handlers.selected dropped = None) /\
  (Handlers.disabled current = false ->
   Handlers.selected dropped = Handlers.selected chosen) /\
  exists s, Handlers.selected chosen = Some s /\
            world s = w /\
            forall file rest, files = Some (file :: rest) ->
                              unhandledRejection s
                              = Some (mkError "User not authenticated").
Proof.
  intros Hs. cbv zeta. unfold Handlers.handleDrop, Handlers.onChange.
  split; [intros H; rewrite H; reflexivity|].
  split; [intros H; rewrite H; reflexivity|].
  cbn [Handlers.selected]. eexists. split; [reflexivity|].
  unfold Handlers.handleFileSelect, handleFileSelect.
  assert (U : forall file,
             uploadFile (Handlers.props mounted) (Handlers.envOf mounted browser) file w
             = (Throw (mkError "User not authenticated"), w)).
  { intros file. apply uploadFile_unauthenticated.
    unfold authenticated, Handlers.envOf. cbn. rewrite Hs. reflexivity. }
  destruct files as [[|file rest]|].
  - split; [reflexivity|]. intros f r H. discriminate H.
  - rewrite U. split; [reflexivity|]. intros f r H. reflexivity.
  - split; [reflexivity|]. intros f r H. discriminate H.
Qed.

Lemma handleDrop_mounted_session_witness :
  session_user_id Samples.browser = Some "u1" /\
  Handlers.selected
    (Handlers.handleDrop PageSamples.mountedSignedOut PageSamples.renderedSignedIn
       Samples.browser (Some [Samples.photo]) initialWorld)
  = Some {| world := initialWorld;
            unhandledRejection := Some (mkError "User not authenticated") |}.
Proof.
  split; [reflexivity|].
  destruct (handleDrop_mounted_session PageSamples.mountedSignedOut
              PageSamples.renderedSignedIn Samples.browser (Some [Samples.photo])
              initialWorld eq_refl) as (_ & D & s & C & W & R).
  rewrite (D eq_refl), C.
  destruct s as [sw sr]. cbn in W, R. rewrite W, (R Samples.photo [] eq_refl).
  reflexivity.
Defined.

End Dropping.

(* ================================================================== *)
(** * DigitalPortfolio: the export file name and the average level *)
(* ================================================================== *)

Section PageFacts.
Import JS Page JSFacts CompressFacts.
Open Scope string_scope.

Lemma nameChar_of (c : ascii) :
  isNameChar (lowerChar (if isAlnum c then c else "_"%char)) = true.
Proof.
  destruct c as [[] [] [] [] [] [] [] []]; reflexivity.
Qed.

Lemma nameChar_kept (c : ascii) :
  isNameChar c = true -> lowerChar (if isAlnum c then c else "_"%char) = c.
Proof.
  destruct c as [[] [] [] [] [] [] [] []]; intros H; try reflexivity; discriminate H.
Qed.

Lemma lower_twice (c : ascii) :
  lowerChar (if isAlnum (lowerChar (if isAlnum c then c else "_"%char))
             then lowerChar (if isAlnum c then c else "_"%char) else "_"%char)
  = lowerChar (if isAlnum c then c else "_"%char).
Proof.
  destruct c as [[] [] [] [] [] [] [] []]; reflexivity.
Qed.

Lemma length_append (a b : string) :
  String.length (a ++ b) = (String.length a + String.length b)%nat.
Proof. induction a as [|x a IH]; simpl; [reflexivity|rewrite IH; reflexivity]. Qed.

Lemma append_inv_tail (t a b : string) : a ++ t = b ++ t -> a = b.
Proof.
  revert b. induction a as [|x a IH]; intros [|y b] H.
  - reflexivity.
  - exfalso. apply (f_equal String.length) in H.
    rewrite !length_append in H. simpl in H. lia.
  - exfalso. apply (f_equal String.length) in H.
    rewrite !length_append in H. simpl in H. lia.
  - cbn in H. inversion H. f_equal. apply IH. assumption.
Qed.

(** X25.  The name [exportPortfolio] gives the download is the title, code
    unit by code unit, with every ASCII letter in lower case and
    everything that is no ASCII letter or digit replaced by an
    underscore, followed by [_portfolio.json]: the stem is as long as
    the title and holds nothing but [a-z], [0-9] and [_], so no dot and
    no path separator.  A title of such characters is kept; the stem of
    a stem is the stem. *)
Theorem exportFileDefaultName_safe (title : string) :
  let stem := toLowerCase (replaceNonAlnum title) in
  exportFileDefaultName title = stem ++ "_portfolio.json" /\
  String.length stem = String.length title /\
  all_chars isNameChar stem = true /\
  (all_chars isNameChar title = true -> stem = title) /\
  exportFileDefaultName stem = exportFileDefaultName title.
Proof.
  cbv zeta. split; [reflexivity|]. unfold exportFileDefaultName.
  induction title as [|c r (L & A & K & I)]; [repeat split; reflexivity|].
  cbn [replaceNonAlnum toLowerCase String.length all_chars]. split; [|split; [|split]].
  - rewrite L. reflexivity.
  - rewrite nameChar_of, A. reflexivity.
  - intros H. apply andb_true_iff in H. destruct H as [H1 H2].
    rewrite (nameChar_kept c H1), (K H2). reflexivity.
  - apply append_inv_tail in I.
    rewrite lower_twice, I. reflexivity.
Qed.

Lemma sumLevels_from (levels : list N) (acc : Q) (a : N) :
  acc == ofN a ->
  (a + total levels < 9007199254740992)%N ->
  fold_left (fun acc level => round64 (acc + ofN level)) levels acc
  == ofN (a + total levels).
Proof.
  revert acc a. induction levels as [|l ls IH]; intros acc a Ha Hb; cbn [fold_left total fold_right].
  - rewrite Ha. unfold ofN. apply inject_Z_injective. lia.
  - cbn [total fold_right] in Hb. fold (total ls) in *.
    assert (E : ofN (a + (l + total ls)) = ofN ((a + l) + total ls))
      by (f_equal; lia).
    rewrite E. apply IH; [|lia].
    assert (E2 : acc + ofN l == inject_Z (Z.of_N (a + l))).
    { rewrite Ha. unfold ofN. rewrite <- inject_Z_plus.
      apply inject_Z_injective. lia. }
    rewrite (round64_comp _ _ E2). apply round64_Z.
    change (2 ^ 53)%Z with 9007199254740992%Z. lia.
Qed.

Lemma sumLevels_exact (levels : list N) :
  (total levels < 9007199254740992)%N -> sumLevels levels == ofN (total levels).
Proof.
  intros H. unfold sumLevels.
  rewrite (sumLevels_from levels 0 0); [reflexivity|reflexivity|exact H].
Qed.

Lemma total_bounds (levels : list N) (lo hi : N) :
  (forall l, In l levels -> (lo <= l <= hi)%N) ->
  (lo * N.of_nat (List.length levels) <= total levels
   <= hi * N.of_nat (List.length levels))%N.
Proof.
  induction levels as [|l ls IH]; intros H; cbn [total fold_right List.length].
  - lia.
  - fold (total ls). 
    assert (Hl : (lo <= l <= hi)%N) by (apply H; left; reflexivity).
    assert (Hr : forall x, In x ls -> (lo <= x <= hi)%N) by (intros x Hx; apply H; right; exact Hx).
    specialize (IH Hr). lia.
Qed.

(** X26.  The mean of two or more levels, rounded: the division is done in
    binary64 and then rounded to a whole number, and still the result is
    exactly the mean rounded to the nearest whole number, halves going
    up, for every list whose levels sum to less than [2^52].  So it lies
    between the least and the greatest level. *)
Theorem avgSkillLevel_rounded_mean (levels : list N) :
  levels <> [] ->
  (total levels < 4503599627370496)%N ->
  (N.of_nat (List.length levels) < 4503599627370496)%N ->
  let n := Z.of_nat (List.length levels) in
  avgSkillLevel levels == inject_Z ((2 * Z.of_N (total levels) + n) / (2 * n)) /\
  forall lo hi, (forall l, In l levels -> (lo <= l <= hi)%N) ->
                ofN lo <= avgSkillLevel levels /\ avgSkillLevel levels <= ofN hi.
Proof.
  intros Hne Hs Hlen. cbv zeta.
  set (n := Z.of_nat (List.length levels)).
  set (S := Z.of_N (total levels)).
  assert (Hn : (0 < n)%Z).
  { unfold n. destruct levels; [contradiction|]. cbn [List.length]. lia. }
  set (k := ((2 * S + n) / (2 * n))%Z).
  assert (Kdiv : (2 * n * k <= 2 * S + n < 2 * n * k + 2 * n)%Z).
  { unfold k. pose proof (Z.div_mod (2 * S + n) (2 * n)) as D.
    pose proof (Z.mod_pos_bound (2 * S + n) (2 * n)) as M. lia. }
  assert (HS : (0 <= S < 4503599627370496)%Z) by (unfold S; lia).
  assert (Hk : (0 <= k)%Z) by (unfold k; apply Z.div_pos; lia).
  assert (Main : avgSkillLevel levels == inject_Z k).
  { unfold avgSkillLevel.
    assert (G : gt (ofN (N.of_nat (List.length levels))) 0 = true).
    { apply gt_true. apply ofN_pos. lia. }
    rewrite G. unfold Math_round, div.
    assert (En : ofN (N.of_nat (List.length levels)) = inject_Z n).
    { unfold ofN, n. f_equal. lia. }
    rewrite En.
    assert (Ex : sumLevels levels / inject_Z n == inject_Z S / inject_Z n).
    { rewrite sumLevels_exact by lia. reflexivity. }
    rewrite (round64_comp _ _ Ex).
    set (x := inject_Z S / inject_Z n).
    assert (Nq : 1 <= inject_Z n).
    { change 1 with (inject_Z 1). rewrite <- Zle_Qle. lia. }
    assert (Sq0 : 0 <= inject_Z S).
    { change 0 with (inject_Z 0). rewrite <- Zle_Qle. lia. }
    assert (Sq1 : inject_Z S < 4503599627370496).
    { change 4503599627370496 with (inject_Z 4503599627370496).
      rewrite <- Zlt_Qlt. lia. }
    assert (Xn : x * inject_Z n == inject_Z S).
    { unfold x. field. lra. }
    assert (X0 : 0 <= x).
    { unfold x. apply Qle_shift_div_l; lra. }
    assert (K1 : 2 * inject_Z n * inject_Z k <= 2 * inject_Z S + inject_Z n).
    { change 2 with (inject_Z 2). rewrite <- !inject_Z_mult, <- inject_Z_plus.
      rewrite <- Zle_Qle. lia. }
    assert (K2 : 2 * inject_Z S + inject_Z n + 1
                 <= 2 * inject_Z n * inject_Z k + 2 * inject_Z n).
    { change 2 with (inject_Z 2). change 1 with (inject_Z 1).
      rewrite <- !inject_Z_mult, <- !inject_Z_plus.
      rewrite <- Zle_Qle. lia. }
    destruct (round64_error_pos x X0) as [R1 R2]. unfold u53 in R1, R2.
    set (q := round64 x) in *.
    assert (R1n : (1 - (1 # 9007199254740992)) * inject_Z S <= q * inject_Z n).
    { rewrite <- Xn.
      assert (T : (1 - (1 # 9007199254740992)) * (x * inject_Z n)
                  == ((1 - (1 # 9007199254740992)) * x) * inject_Z n) by ring.
      rewrite T. apply Qmult_le_compat_r; lra. }
    assert (R2n : q * inject_Z n <= (1 + (1 # 9007199254740992)) * inject_Z S).
    { rewrite <- Xn.
      assert (T : (1 + (1 # 9007199254740992)) * (x * inject_Z n)
                  == ((1 + (1 # 9007199254740992)) * x) * inject_Z n) by ring.
      rewrite T. apply Qmult_le_compat_r; lra. }
    assert (F : (k <= Qfloor (q + (1 # 2)) <= k)%Z).
    { apply floor_between.
      - (* the lower side *)
        destruct (Z.eq_dec (2 * S + n) (2 * n * k)) as [Eq|Ne].
        + (* the mean is a half exactly: it is a binary64 number *)
          assert (Xh : x == inject_Z (2 * k - 1) * pow2 (-1)).
          { unfold x. change (pow2 (-1)) with (1 # 2).
            apply Qeq_sym. 
            assert (E3 : inject_Z (2 * k - 1) * inject_Z n == 2 * inject_Z S).
            { change 2 with (inject_Z 2). rewrite <- !inject_Z_mult.
              apply inject_Z_injective. lia. }
            field_simplify_eq; [|lra]. lra. }
          assert (Qx : q == x).
          { unfold q. rewrite (round64_comp _ _ Xh), <- Xh at 1.
            rewrite (round64_comp _ _ Xh). rewrite Xh.
            apply round64_exact. change (2 ^ 53)%Z with 9007199254740992%Z. nia. }
          rewrite Qx, Xh. change (pow2 (-1)) with (1 # 2).
          replace (2 * k - 1)%Z with (2 * k + -1)%Z by lia.
          rewrite inject_Z_plus, inject_Z_mult.
          change (inject_Z 2) with 2. change (inject_Z (-1)) with (-1). lra.
        + assert (K3 : 2 * inject_Z n * inject_Z k + 1 <= 2 * inject_Z S + inject_Z n).
          { change 2 with (inject_Z 2). change 1 with (inject_Z 1).
            rewrite <- !inject_Z_mult, <- !inject_Z_plus.
            rewrite <- Zle_Qle. lia. }
          apply Qnot_lt_le. intros C.
          assert (C2 : (q + (1 # 2)) * inject_Z n < inject_Z k * inject_Z n)
            by (apply Qmult_lt_compat_r; lra).
          lra.
      - (* the upper side *)
        rewrite inject_Z_plus. change (inject_Z 1) with 1.
        apply Qnot_le_lt. intros C.
        assert (C2 : (inject_Z k + 1) * inject_Z n <= (q + (1 # 2)) * inject_Z n)
          by (apply Qmult_le_compat_r; lra).
        lra. }
    assert (Fk : Qfloor (q + (1 # 2)) = k) by lia.
    rewrite Fk. reflexivity. }
  split; [exact Main|].
  intros lo hi Hb. rewrite Main.
  pose proof (total_bounds levels lo hi Hb) as [T1 T2].
  assert (B1 : (Z.of_N lo <= k)%Z).
  { unfold k. apply Z.div_le_lower_bound; [lia|]. unfold S, n. nia. }
  assert (B2 : (k <= Z.of_N hi)%Z).
  { assert (k < Z.of_N hi + 1)%Z; [|lia].
    unfold k. apply Z.div_lt_upper_bound; [lia|]. unfold S, n. nia. }
  unfold ofN. rewrite <- !Zle_Qle. split; assumption.
Qed.

Lemma avgSkillLevel_rounded_mean_witness :
  avgSkillLevel PageSamples.starterLevels == 13.
Proof.
  apply (avgSkillLevel_rounded_mean PageSamples.starterLevels).
  - discriminate.
  - reflexivity.
  - reflexivity.
Defined.

End PageFacts.
